(** * Proxych: a shallow embedding of [proxy_checker.py]

    The development follows the layout of the Python module: the string
    helpers the parser relies on, the [ProxyChecker] class (parser, socket
    prober, external validation client, per-candidate probe, fallback
    tester), the two module-level coroutines [check_proxy] and
    [check_multiple_proxies], and the semaphore that guards
    [ProxyChecker.check_proxy].

    Conventions.
    - A Python [str] is the [string] of its UTF-8 encoding.  [int()] decodes
      it to find the decimal digits and the blanks of every script;
      [str.strip()] is embedded for the ASCII blanks.
    - Wall-clock instants and durations are integers in milliseconds.
    - A coroutine that may raise returns a sum or a dedicated result type;
      the network is an explicit oracle record, and every operation that
      touches it is logged in an event trace. *)

From Stdlib Require Import ZArith String Ascii List Bool Lia Arith.
From Stdlib Require Import DecimalString.
From Stdlib Require DecimalPos DecimalFacts.
Import ListNotations.

Set Warnings "-register-all".

Open Scope string_scope.
Open Scope Z_scope.

(* ================================================================== *)
(** * Python built-ins used by the module *)
(* ================================================================== *)

Module Py.

(** [s.split(sep)] for a one-character separator: every occurrence cuts,
    so the result is never empty and has one more field than there are
    separators. *)
Fixpoint split (sep : ascii) (s : string) : list string :=
  match s with
  | EmptyString => [EmptyString]
  | String c rest =>
      if Ascii.eqb c sep then EmptyString :: split sep rest
      else match split sep rest with
           | [] => [String c EmptyString]
           | f :: fs => String c f :: fs
           end
  end.

(** [c in s] for a character. *)
Fixpoint has_char (c : ascii) (s : string) : bool :=
  match s with
  | EmptyString => false
  | String c' rest => Ascii.eqb c' c || has_char c rest
  end.

(** [sep.join(parts)]. *)
Fixpoint join (sep : string) (parts : list string) : string :=
  match parts with
  | [] => EmptyString
  | [p] => p
  | p :: ps => p ++ sep ++ join sep ps
  end.

(** Blank characters of [str.strip()] in the ASCII range: TAB, LF, VT, FF,
    CR, FS, GS, RS, US and space. *)
Definition isspace (c : ascii) : bool :=
  let n := nat_of_ascii c in
  ((9 <=? n)%nat && (n <=? 13)%nat)
  || ((28 <=? n)%nat && (n <=? 32)%nat).

Definition isdigit (c : ascii) : bool :=
  let n := nat_of_ascii c in (48 <=? n)%nat && (n <=? 57)%nat.

Definition digit_value (c : ascii) : Z := Z.of_nat (nat_of_ascii c) - 48.

Fixpoint lstrip (s : string) : string :=
  match s with
  | String c rest => if isspace c then lstrip rest else s
  | EmptyString => EmptyString
  end.

Fixpoint rstrip (s : string) : string :=
  match s with
  | EmptyString => EmptyString
  | String c rest =>
      match rstrip rest with
      | EmptyString => if isspace c then EmptyString else String c EmptyString
      | r => String c r
      end
  end.

Definition strip (s : string) : string := rstrip (lstrip s).

(** Blanks of the C locale, the ones [int()] skips around an ASCII
    literal: TAB, LF, VT, FF, CR and space. *)
Definition c_isspace (c : ascii) : bool :=
  let n := nat_of_ascii c in
  ((9 <=? n)%nat && (n <=? 13)%nat) || (n =? 32)%nat.

Fixpoint lstrip_c (s : string) : string :=
  match s with
  | String c rest => if c_isspace c then lstrip_c rest else s
  | EmptyString => EmptyString
  end.

Fixpoint rstrip_c (s : string) : string :=
  match s with
  | EmptyString => EmptyString
  | String c rest =>
      match rstrip_c rest with
      | EmptyString => if c_isspace c then EmptyString else String c EmptyString
      | r => String c r
      end
  end.

(** [s.isascii()]. *)
Fixpoint isascii (s : string) : bool :=
  match s with
  | EmptyString => true
  | String c rest => (nat_of_ascii c <? 128)%nat && isascii rest
  end.

(** Code points above 127 for which [str.isspace()] holds (Unicode 14, the
    database of CPython 3.11). *)
Definition unicode_blanks : list N :=
  [133; 160; 5760; 8192; 8193; 8194; 8195; 8196;
   8197; 8198; 8199; 8200; 8201; 8202; 8232; 8233;
   8239; 8287; 12288]%N.

(** First code points of the runs of ten decimal digits (category Nd) above
    127, in the same database; the digit at offset [k] of a run has the
    value [k]. *)
Definition decimal_runs : list N :=
  [1632; 1776; 1984; 2406; 2534; 2662; 2790; 2918;
   3046; 3174; 3302; 3430; 3558; 3664; 3792; 3872;
   4160; 4240; 6112; 6160; 6470; 6608; 6784; 6800;
   6992; 7088; 7232; 7248; 42528; 43216; 43264; 43472;
   43504; 43600; 44016; 65296; 66720; 68912; 69734; 69872;
   69942; 70096; 70384; 70736; 70864; 71248; 71360; 71472;
   71904; 72016; 72784; 73040; 73120; 92768; 92864; 93008;
   120782; 120792; 120802; 120812; 120822; 123200; 123632; 125264;
   130032]%N.

Definition unicode_isspace (cp : N) : bool :=
  existsb (N.eqb cp) unicode_blanks.

(** [Py_UNICODE_TODECIMAL] above 127. *)
Definition unicode_decimal (cp : N) : option N :=
  match find (fun b => (b <=? cp) && (cp <? b + 10))%N decimal_runs with
  | Some b => Some (cp - b)%N
  | None => None
  end.

Definition is_continuation (c : ascii) : bool :=
  let n := nat_of_ascii c in (128 <=? n)%nat && (n <? 192)%nat.

(** The six payload bits of a continuation byte. *)
Definition payload (c : ascii) : N := N.land (N_of_ascii c) 63.

(** What [int()] does with a character above 127 before it reads the
    literal: a blank becomes a space, a decimal digit its ASCII digit, and
    anything else a question mark, which no literal holds. *)
Definition ascii_image (cp : N) : ascii :=
  if unicode_isspace cp then " "%char
  else match unicode_decimal cp with
       | Some d => ascii_of_N (48 + d)
       | None => "?"%char
       end.

(** [_PyUnicode_TransformDecimalAndSpaceToASCII] on the UTF-8 encoding:
    ASCII characters are kept, the others are decoded and replaced by their
    image.  A byte sequence that encodes no character gives a question
    mark. *)
Fixpoint to_ascii_decimal (s : string) : string :=
  match s with
  | EmptyString => EmptyString
  | String b0 rest =>
      let n0 := N_of_ascii b0 in
      if (n0 <? 128)%N then String b0 (to_ascii_decimal rest)
      else if ((194 <=? n0) && (n0 <? 224))%N then
        match rest with
        | String b1 rest1 =>
            if is_continuation b1 then
              String (ascii_image (N.land n0 31 * 64 + payload b1))
                (to_ascii_decimal rest1)
            else String "?"%char EmptyString
        | _ => String "?"%char EmptyString
        end
      else if ((224 <=? n0) && (n0 <? 240))%N then
        match rest with
        | String b1 (String b2 rest2) =>
            if is_continuation b1 && is_continuation b2 then
              String (ascii_image
                        ((N.land n0 15 * 64 + payload b1) * 64 + payload b2))
                (to_ascii_decimal rest2)
            else String "?"%char EmptyString
        | _ => String "?"%char EmptyString
        end
      else if ((240 <=? n0) && (n0 <? 245))%N then
        match rest with
        | String b1 (String b2 (String b3 rest3)) =>
            if is_continuation b1 && is_continuation b2
               && is_continuation b3 then
              String (ascii_image
                        (((N.land n0 7 * 64 + payload b1) * 64 + payload b2)
                         * 64 + payload b3))
                (to_ascii_decimal rest3)
            else String "?"%char EmptyString
        | _ => String "?"%char EmptyString
        end
      else String "?"%char EmptyString
  end.

(** Default of [sys.get_int_max_str_digits()]: a decimal literal with more
    digits than this makes [int()] raise [ValueError]. *)
Definition int_max_str_digits : nat := 4300.

(** The digit run of a base-10 literal: digits, with single underscores
    allowed between two digits.  [after_us] is true at the start and right
    after an underscore, the two places where a digit is required. *)
Fixpoint scan_digits (s : string) (after_us : bool) (acc : Z) (ndigits : nat)
  : option (Z * nat) :=
  match s with
  | EmptyString => if after_us then None else Some (acc, ndigits)
  | String c rest =>
      if isdigit c then
        scan_digits rest false (10 * acc + digit_value c) (S ndigits)
      else if Ascii.eqb c "_"%char then
        if after_us then None else scan_digits rest true acc ndigits
      else None
  end.

(** [int(s)] on a string, base 10.  [None] stands for [ValueError].
    Digits and blanks of other scripts are first replaced by their ASCII
    image; then the blanks of the C locale around the literal are dropped,
    one sign is allowed, then comes the digit run; nothing else may
    follow. *)
Definition int (s : string) : option Z :=
  let body := rstrip_c (lstrip_c (to_ascii_decimal s)) in
  let '(sign, digits) :=
    match body with
    | String "+"%char rest => (1, rest)
    | String "-"%char rest => (-1, rest)
    | _ => (1, body)
    end in
  match scan_digits digits true 0 0 with
  | Some (v, n) =>
      if (int_max_str_digits <? n)%nat then None else Some (sign * v)
  | None => None
  end.

(** [str(n)] for an integer. *)
Definition str_of_int (n : Z) : string :=
  NilEmpty.string_of_int (Z.to_int n).

(** [needle in haystack] for two strings. *)
Fixpoint contains (needle haystack : string) : bool :=
  if String.prefix needle haystack then true
  else match haystack with
       | EmptyString => false
       | String _ rest => contains needle rest
       end.

End Py.

(* ================================================================== *)
(** * Module constants *)
(* ================================================================== *)

Definition MAX_CONCURRENT_CHECKS : nat := 20.

(** Timeouts, in milliseconds (the source gives seconds). *)
Definition CONNECT_TIMEOUT : Z := 12000.
Definition REQUEST_TIMEOUT : Z := 18000.
Definition SOCKET_TIMEOUT : Z := 8000.

(** [aiohttp.BasicAuth(login, password)]. *)
Record BasicAuth := { login : string; password : string }.

(* ================================================================== *)
(** * Endpoint parser and validator *)
(* ================================================================== *)

Definition MSG_INVALID_PORT : string :=
  "Invalid port number. Must be an integer.".
Definition MSG_INVALID_FORMAT : string :=
  "Invalid proxy format. Use 'ip:port' or 'ip:port:username:password'".
Definition MSG_PORT_RANGE : string :=
  "Invalid port number. Port must be between 1 and 65535.".

(** [ProxyChecker._parse_proxy_string]: the tuple [(host, port, auth)] on the
    left, the error message on the right.  In the four-field branch
    [aiohttp.BasicAuth] would raise [ValueError] only for a login holding a
    colon, which a field cut at the colons cannot hold. *)
Definition _parse_proxy_string (proxy_str : string)
  : (string * Z * option BasicAuth) + string :=
  let parts := Py.split ":"%char proxy_str in
  match parts with
  | [host; port_str] =>
      match Py.int port_str with
      | Some port => inl (host, port, None)
      | None => inr MSG_INVALID_PORT
      end
  | [host; port_str; username; password] =>
      match Py.int port_str with
      | Some port =>
          inl (host, port, Some {| login := username; password := password |})
      | None => inr MSG_INVALID_PORT
      end
  | _ => inr MSG_INVALID_FORMAT
  end.

(** [ProxyChecker._validate_ip_port]: [Some msg] is the error, [None] is
    Python's [None]. *)
Definition _validate_ip_port (host : string) (port : Z) : option string :=
  if (port <? 1) || (port >? 65535) then Some MSG_PORT_RANGE else None.

(* ================================================================== *)
(** * Python values and exceptions *)
(* ================================================================== *)

(** A decoded JSON document, which is also the type of the values stored
    in the result dictionaries. *)
Inductive pyval :=
| PyNone
| PyBool (b : bool)
| PyInt (n : Z)
| PyStr (s : string)
| PyList (items : list pyval)
| PyDict (items : list (string * pyval)).

(** [bool(v)]. *)
Definition truthy (v : pyval) : bool :=
  match v with
  | PyNone => false
  | PyBool b => b
  | PyInt n => negb (n =? 0)
  | PyStr s => negb (String.eqb s EmptyString)
  | PyList l => match l with [] => false | _ => true end
  | PyDict d => match d with [] => false | _ => true end
  end.

(** Lookup in the association list that represents a [dict]. *)
Fixpoint dict_get (d : list (string * pyval)) (k : string) : option pyval :=
  match d with
  | [] => None
  | (k', v) :: rest => if String.eqb k' k then Some v else dict_get rest k
  end.

Definition dict_has (d : list (string * pyval)) (k : string) : bool :=
  match dict_get d k with Some _ => true | None => false end.

(** [k in v] for a string [k]; [None] is the [TypeError] raised when [v]
    is not a container. *)
Definition py_in (k : string) (v : pyval) : option bool :=
  match v with
  | PyDict d => Some (dict_has d k)
  | PyList l =>
      Some (existsb (fun x => match x with
                              | PyStr s => String.eqb s k
                              | _ => false
                              end) l)
  | PyStr s => Some (Py.contains k s)
  | PyNone | PyBool _ | PyInt _ => None
  end.

(** The exception classes that can reach the handlers of the module, with
    the inheritance of the standard library and of [aiohttp].
    [TimeoutError] is the built-in class, of which [asyncio.TimeoutError]
    and [socket.timeout] are other names. *)
Inductive exc_class :=
| BaseException
| CancelledError
| Exception
| TimeoutError
| OSError
| ValueError
| AttributeError
| TypeError
| ClientError
| ClientResponseError
| ClientHttpProxyError
| ClientConnectionError
| ClientOSError
| ClientConnectorError
| ClientProxyConnectionError
| ClientSSLError
| ClientConnectorSSLError
| ClientConnectorCertificateError
| ServerConnectionError
| ServerDisconnectedError
| ServerTimeoutError
| ClientPayloadError
| InvalidURL
| OtherException (name : string).

(** Direct base classes. *)
Definition bases (c : exc_class) : list exc_class :=
  match c with
  | BaseException => []
  | CancelledError => [BaseException]
  | Exception => [BaseException]
  | TimeoutError => [OSError]
  | OSError => [Exception]
  | ValueError => [Exception]
  | AttributeError => [Exception]
  | TypeError => [Exception]
  | ClientError => [Exception]
  | ClientResponseError => [ClientError]
  | ClientHttpProxyError => [ClientResponseError]
  | ClientConnectionError => [ClientError]
  | ClientOSError => [ClientConnectionError; OSError]
  | ClientConnectorError => [ClientOSError]
  | ClientProxyConnectionError => [ClientConnectorError]
  | ClientSSLError => [ClientConnectorError]
  | ClientConnectorSSLError => [ClientSSLError]
  | ClientConnectorCertificateError => [ClientSSLError]
  | ServerConnectionError => [ClientConnectionError]
  | ServerDisconnectedError => [ServerConnectionError]
  | ServerTimeoutError => [ServerConnectionError; TimeoutError]
  | ClientPayloadError => [ClientError]
  | InvalidURL => [ClientError; ValueError]
  | OtherException _ => [Exception]
  end.

Definition exc_class_eqb (a b : exc_class) : bool :=
  match a, b with
  | BaseException, BaseException
  | CancelledError, CancelledError
  | Exception, Exception
  | TimeoutError, TimeoutError
  | OSError, OSError
  | ValueError, ValueError
  | AttributeError, AttributeError
  | TypeError, TypeError
  | ClientError, ClientError
  | ClientResponseError, ClientResponseError
  | ClientHttpProxyError, ClientHttpProxyError
  | ClientConnectionError, ClientConnectionError
  | ClientOSError, ClientOSError
  | ClientConnectorError, ClientConnectorError
  | ClientProxyConnectionError, ClientProxyConnectionError
  | ClientSSLError, ClientSSLError
  | ClientConnectorSSLError, ClientConnectorSSLError
  | ClientConnectorCertificateError, ClientConnectorCertificateError
  | ServerConnectionError, ServerConnectionError
  | ServerDisconnectedError, ServerDisconnectedError
  | ServerTimeoutError, ServerTimeoutError
  | ClientPayloadError, ClientPayloadError
  | InvalidURL, InvalidURL => true
  | OtherException n, OtherException m => String.eqb n m
  | _, _ => false
  end.

(** [issubclass(c, target)]: [c] is [target] or one of its bases is a
    subclass of it.  The hierarchy is seven levels deep at most. *)
Fixpoint issubclass_fuel (fuel : nat) (c target : exc_class) : bool :=
  exc_class_eqb c target
  || match fuel with
     | O => false
     | S f => existsb (fun b => issubclass_fuel f b target) (bases c)
     end.

Definition issubclass : exc_class -> exc_class -> bool := issubclass_fuel 8.

(** [type(e).__name__]. *)
Definition class_name (c : exc_class) : string :=
  match c with
  | BaseException => "BaseException"
  | CancelledError => "CancelledError"
  | Exception => "Exception"
  | TimeoutError => "TimeoutError"
  | OSError => "OSError"
  | ValueError => "ValueError"
  | AttributeError => "AttributeError"
  | TypeError => "TypeError"
  | ClientError => "ClientError"
  | ClientResponseError => "ClientResponseError"
  | ClientHttpProxyError => "ClientHttpProxyError"
  | ClientConnectionError => "ClientConnectionError"
  | ClientOSError => "ClientOSError"
  | ClientConnectorError => "ClientConnectorError"
  | ClientProxyConnectionError => "ClientProxyConnectionError"
  | ClientSSLError => "ClientSSLError"
  | ClientConnectorSSLError => "ClientConnectorSSLError"
  | ClientConnectorCertificateError => "ClientConnectorCertificateError"
  | ServerConnectionError => "ServerConnectionError"
  | ServerDisconnectedError => "ServerDisconnectedError"
  | ServerTimeoutError => "ServerTimeoutError"
  | ClientPayloadError => "ClientPayloadError"
  | InvalidURL => "InvalidURL"
  | OtherException n => n
  end.

(** A raised exception: its class and [str(e)]. *)
Record exn := { exc_type : exc_class; exc_msg : string }.

Definition isinstance (e : exn) (c : exc_class) : bool :=
  issubclass (exc_type e) c.

(* ================================================================== *)
(** * Formatting of elapsed times *)
(* ================================================================== *)

(** Rounding of [n / d] to the nearest integer, ties to even, for [0 <= n]
    and [0 < d]. *)
Definition round_half_even (n d : Z) : Z :=
  let q := n / d in
  let r := n mod d in
  if 2 * r <? d then q
  else if d <? 2 * r then q + 1
  else if Z.even q then q else q + 1.

(** The binary64 number nearest to [n / d], for [0 < n] and [0 < d], as a
    pair [(m, e)] that stands for [m * 2 ^ e]: the quotient lies in
    [2 ^ E, 2 ^ (E + 1)) and is rounded to 53 significant bits. *)
Definition nearest_double (n d : Z) : Z * Z :=
  let L := Z.log2 n - Z.log2 d in
  let above :=
    if 0 <=? L then d * 2 ^ L <=? n else d <=? n * 2 ^ (- L) in
  let E := if above then L else L - 1 in
  let e := E - 52 in
  (if e <=? 0 then round_half_even (n * 2 ^ (- e)) d
   else round_half_even n (d * 2 ^ e),
   e).

(** The hundredths in [f"{x:.2f}"] for the binary64 number [x = m * 2 ^ e]:
    its exact value is rounded to two decimals, ties to even. *)
Definition hundredths (x : Z * Z) : Z :=
  let '(m, e) := x in
  if 0 <=? e then m * 2 ^ e * 100
  else round_half_even (m * 100) (2 ^ (- e)).

Definition two_digits (n : Z) : string :=
  if n <? 10 then "0" ++ Py.str_of_int n else Py.str_of_int n.

(** [f"{elapsed:.2f}"] for a duration of [ms] milliseconds, [elapsed] being
    the float [ms / 1000]. *)
Definition format_2f (ms : Z) : string :=
  let c :=
    if ms =? 0 then 0 else hundredths (nearest_double (Z.abs ms) 1000) in
  (if ms <? 0 then "-" else "")
  ++ Py.str_of_int (c / 100) ++ "." ++ two_digits (c mod 100).

(* ================================================================== *)
(** * Per-candidate probe: [ProxyChecker._test_proxy] *)
(* ================================================================== *)

(** The result dictionary shared by the probes and the validation client;
    [ip] and [anonymity] are the two optional keys. *)
Record probe_result := {
  protocol : string;
  working : pyval;
  status : string;
  time : Z;
  ip : option pyval;
  anonymity : option string
}.

Definition set_working (v : pyval) (r : probe_result) : probe_result :=
  {| protocol := protocol r; working := v; status := status r;
     time := time r; ip := ip r; anonymity := anonymity r |}.

Definition set_status (s : string) (r : probe_result) : probe_result :=
  {| protocol := protocol r; working := working r; status := s;
     time := time r; ip := ip r; anonymity := anonymity r |}.

Definition set_time (t : Z) (r : probe_result) : probe_result :=
  {| protocol := protocol r; working := working r; status := status r;
     time := t; ip := ip r; anonymity := anonymity r |}.

Definition set_ip (v : pyval) (r : probe_result) : probe_result :=
  {| protocol := protocol r; working := working r; status := status r;
     time := time r; ip := Some v; anonymity := anonymity r |}.

Definition set_anonymity (a : string) (r : probe_result) : probe_result :=
  {| protocol := protocol r; working := working r; status := status r;
     time := time r; ip := ip r; anonymity := Some a |}.

(** What the network does for one request. *)
Inductive body_outcome :=
| BodyJson (v : pyval)          (* [response.json()] returned [v] in time *)
| BodyRaised (e : exn).         (* it raised, or the 2 s wait timed out *)

Record response := {
  resp_status : Z;
  resp_content_type : string;   (* [headers.get('Content-Type', '')] *)
  resp_body : body_outcome
}.

Inductive request_outcome :=
| Responded (elapsed : Z) (r : response)
| RequestRaised (e : exn).      (* includes the safety [wait_for] timeout *)

Record probe_run := {
  session_error : option exn;   (* [get_client_session()] raised *)
  request : request_outcome
}.

(** The anonymity part of the enrichment: [response_json.get('headers', {})]
    and the three forwarding headers.  Any exception leaves the result as
    it is. *)
Definition enrich_anonymity (response_json : pyval) (result : probe_result)
  : probe_result :=
  match response_json with
  | PyDict d =>
      let headers :=
        match dict_get d "headers" with Some h => h | None => PyDict [] end in
      match headers with
      | PyDict h =>
          let get k :=
            match dict_get h k with Some v => v | None => PyStr "" end in
          let forwarded_for := truthy (get "X-Forwarded-For") in
          let real_ip := truthy (get "X-Real-Ip") in
          let via := truthy (get "Via") in
          if negb forwarded_for && negb real_ip && negb via then
            set_anonymity "Elite (Level 1)" result
          else if negb forwarded_for && (real_ip || via) then
            set_anonymity "Anonymous (Level 2)" result
          else set_anonymity "Transparent (Level 3)" result
      | _ => result                          (* AttributeError on [.get] *)
      end
  | _ => result                              (* AttributeError on [.get] *)
  end.

(** The body of the inner [try] that reads the JSON document.  Every
    failure is an [Exception] and is swallowed by the handler, keeping the
    keys written so far. *)
Definition enrich (response_json : pyval) (result : probe_result)
  : probe_result :=
  match py_in "origin" response_json with
  | None => result                           (* TypeError *)
  | Some true =>
      match response_json with
      | PyDict d =>
          match dict_get d "origin" with
          | Some (PyStr s) =>
              let first := hd EmptyString (Py.split ","%char s) in
              enrich_anonymity response_json
                (set_ip (PyStr (Py.strip first)) result)
          | _ => result                      (* no [split] on that value *)
          end
      | _ => result                          (* TypeError on the subscript *)
      end
  | Some false =>
      match py_in "query" response_json with
      | Some true =>
          match response_json with
          | PyDict d =>
              match dict_get d "query" with
              | Some q => enrich_anonymity response_json (set_ip q result)
              | None => result
              end
          | _ => result                      (* TypeError on the subscript *)
          end
      | Some false => enrich_anonymity response_json result
      | None => result
      end
  end.

(** The outermost handler of [_test_proxy]: [except Exception as e]. *)
Definition outer_handler (e : exn) (result : probe_result)
  : probe_result + exn :=
  if isinstance e Exception then
    inl (set_status ("❌ Error: " ++ class_name (exc_type e)) result)
  else inr e.

(** The handler chain around the request, first match wins, in the order
    of the source. *)
Definition request_handlers (e : exn) (result : probe_result)
  : probe_result + exn :=
  if isinstance e TimeoutError then inl (set_status "❌ Timeout" result)
  else if isinstance e ClientProxyConnectionError then
    inl (set_status "❌ Proxy Connection Error" result)
  else if isinstance e ClientConnectorError then
    inl (set_status "❌ Connection Failed" result)
  else if isinstance e ClientSSLError then
    inl (set_status "❌ SSL Error" result)
  else if isinstance e ClientError then
    inl (set_status "❌ Client Error" result)
  else if isinstance e CancelledError then
    inl (set_status "❌ Request Cancelled" result)
  else if isinstance e Exception then
    inl (set_status ("❌ Error: " ++ class_name (exc_type e)) result)
  else outer_handler e result.

(** [ProxyChecker._test_proxy]: the result dictionary, or the exception
    that escapes the coroutine. *)
Definition _test_proxy (run : probe_run) (proxy test_url protocol : string)
  : probe_result + exn :=
  let result := {| protocol := protocol; working := PyBool false;
                   status := "❌ Failed"; time := 0;
                   ip := None; anonymity := None |} in
  match session_error run with
  | Some e => outer_handler e result
  | None =>
      match request run with
      | RequestRaised e =>
          if isinstance e TimeoutError then
            inl (set_status "❌ Request Timeout" result)
          else request_handlers e result
      | Responded elapsed resp =>
          let result := set_time elapsed result in
          if resp_status resp <? 500 then
            let result := set_working (PyBool true) result in
            let result :=
              set_status ("✅ Working (" ++ format_2f elapsed ++ "s)") result in
            if Py.contains "application/json" (resp_content_type resp) then
              match resp_body resp with
              | BodyJson v => inl (enrich v result)
              | BodyRaised e =>
                  if isinstance e TimeoutError then inl result
                  else if isinstance e Exception then inl result
                  else request_handlers e result
              end
            else inl (set_working (PyBool true) result)
          else
            inl (set_status ("❌ HTTP " ++ Py.str_of_int (resp_status resp))
                   result)
      end
  end.

(* ================================================================== *)
(** * Fallback tester: [ProxyChecker._test_proxy_with_fallbacks] *)
(* ================================================================== *)

(** A coroutine awaited through [asyncio.gather(..., return_exceptions=True)]:
    the instant at which it completes, counted from the launch of the
    gather, and what it then delivers. *)
Record candidate := {
  finish : Z;
  outcome : probe_result + exn
}.

(** [asyncio.gather] completes with its slowest member; an empty gather is
    complete at once. *)
Definition gather_finish (tasks : list candidate) : Z :=
  fold_right Z.max 0 (map finish tasks).

Definition default_result (protocol : string) : probe_result :=
  {| protocol := protocol; working := PyBool false;
     status := "❌ Not working with " ++ protocol; time := 0;
     ip := None; anonymity := None |}.

(** Raised by [task.done()] in the timeout handler: the members of [tasks]
    are coroutine objects, which have no such method. *)
Definition EXC_NO_DONE : exn :=
  {| exc_type := AttributeError;
     exc_msg := "'coroutine' object has no attribute 'done'" |}.

(** Raised by [result.get] when a member of [results] is an exception
    object that is not an [Exception] instance. *)
Definition exc_no_get (e : exn) : exn :=
  {| exc_type := AttributeError;
     exc_msg := "'" ++ class_name (exc_type e)
                ++ "' object has no attribute 'get'" |}.

(** The [for i, result in enumerate(results)] loop: [results] is in the
    order of [test_urls]. *)
Fixpoint scan_results (results : list (probe_result + exn))
  (last_result : probe_result) : probe_result + exn :=
  match results with
  | [] => inl last_result
  | inr e :: rest =>
      if isinstance e Exception then scan_results rest last_result
      else inr (exc_no_get e)
  | inl result :: rest =>
      if truthy (working result) then inl result
      else scan_results rest result
  end.

(** Per-protocol ceiling: [REQUEST_TIMEOUT * 1.5]. *)
Definition PROTOCOL_TIMEOUT : Z := REQUEST_TIMEOUT * 3 / 2.

(** [_test_proxy_with_fallbacks].  [probe] is the timed behaviour of
    [self._test_proxy]; the result is the instant of return (from the call)
    and the returned dictionary or raised exception.  The wait is won by the
    gather when it completes strictly before the timeout. *)
Definition _test_proxy_with_fallbacks
  (probe : string -> string -> string -> candidate)
  (proxy : string) (test_urls : list string) (protocol : string)
  : Z * (probe_result + exn) :=
  let last_result := default_result protocol in
  let tasks := map (fun url => probe proxy url protocol) test_urls in
  if gather_finish tasks <? PROTOCOL_TIMEOUT then
    let results := map outcome tasks in
    (gather_finish tasks, scan_results results last_result)
  else
    match tasks with
    | [] => (PROTOCOL_TIMEOUT, inl last_result)
    | _ :: _ => (PROTOCOL_TIMEOUT, inr EXC_NO_DONE)
    end.

(* ================================================================== *)
(** * Socket prober *)
(* ================================================================== *)

Inductive socket_family := AF_INET | AF_INET6.

(** What one attempt does, step by step: [socket.socket(...)] followed by
    [settimeout] may raise, then [connect_ex] returns its code or raises,
    then [close] may raise.  In a turn of the loop a step is reached only
    when the steps before it did not raise; in the final retry [close]
    runs whatever [connect_ex] did. *)
Record attempt := {
  sock_error : option exn;
  connect_result : Z + exn;
  close_error : option exn
}.

(** The network as [_socket_connect] sees it.  The attempt number tells
    the first IPv4 attempt (0) and the IPv6 one (1) from the final
    retry (2). *)
Definition connect_oracle := socket_family -> nat -> string -> Z -> attempt.

(** The body of the [try] of one turn of the loop: [inr e] is the exception
    raised in it, [inl code] the value of [result] when nothing was. *)
Definition loop_body (a : attempt) : Z + exn :=
  match sock_error a with
  | Some e => inr e
  | None =>
      match connect_result a with
      | inr e => inr e
      | inl code =>
          match close_error a with
          | Some e => inr e
          | None => inl code
          end
      end
  end.

(** The calls of [connect_ex] an attempt makes: none when the socket could
    not be created. *)
Definition connect_calls (a : attempt) (fam : socket_family) (n : nat)
  : list (socket_family * nat) :=
  match sock_error a with
  | Some _ => []
  | None => [(fam, n)]
  end.

(** The [for socket_family in [AF_INET, AF_INET6]] loop of
    [_socket_connect]: [Some r] is an early [return] or an exception that
    the handler does not take, [None] falls out of the loop; the calls of
    [connect_ex] are logged. *)
Fixpoint connect_loop (connect_ex : connect_oracle) (host : string) (port : Z)
  (families : list socket_family) (n : nat)
  : list (socket_family * nat) * option (Z + exn) :=
  match families with
  | [] => ([], None)
  | fam :: rest =>
      let a := connect_ex fam n host port in
      let continue_ :=
        let '(log, r) := connect_loop connect_ex host port rest (S n) in
        ((connect_calls a fam n ++ log)%list, r) in
      match loop_body a with
      | inl code =>
          if code =? 0 then (connect_calls a fam n, Some (inl 0))
          else continue_
      | inr e =>
          if isinstance e OSError then continue_
          else (connect_calls a fam n, Some (inr e))
      end
  end.

(** The final retry: the socket is created outside the [try], the bare
    [except] turns whatever [connect_ex] raises into 111, and [close] runs
    in the [finally] clause. *)
Definition final_retry (a : attempt) : Z + exn :=
  match sock_error a with
  | Some e => inr e
  | None =>
      match close_error a with
      | Some e => inr e
      | None =>
          match connect_result a with
          | inl code => inl code
          | inr _ => inl 111
          end
      end
  end.

(** [ProxyChecker._socket_connect]: the calls of [connect_ex] made, and the
    return code or the exception that escapes. *)
Definition _socket_connect (connect_ex : connect_oracle)
  (host : string) (port : Z) : list (socket_family * nat) * (Z + exn) :=
  match connect_loop connect_ex host port [AF_INET; AF_INET6] 0 with
  | (log, Some r) => (log, r)
  | (log, None) =>
      let a := connect_ex AF_INET 2%nat host port in
      ((log ++ connect_calls a AF_INET 2%nat)%list, final_retry a)
  end.

(** The dictionary built by [_check_socket_connection]; [error] is the
    optional key. *)
Record socket_result := {
  connected : bool;
  sock_time : Z;
  error : option string
}.

(** [ProxyChecker._check_socket_connection]; [elapsed] is the measured
    [time.time() - connection_start]. *)
Definition _check_socket_connection (connect_ex : connect_oracle)
  (elapsed : Z) (host : string) (port : Z)
  : list (socket_family * nat) * (socket_result + exn) :=
  let '(log, r) := _socket_connect connect_ex host port in
  (log,
   match r with
   | inl connection_result =>
       if negb (connection_result =? 0) then
         inl {| connected := false; sock_time := elapsed;
                error := Some ("Connection error (code: "
                               ++ Py.str_of_int connection_result ++ ")") |}
       else
         inl {| connected := true; sock_time := elapsed; error := None |}
   | inr e =>
       if isinstance e Exception then
         inl {| connected := false; sock_time := 0;
                error := Some ("Error: " ++ exc_msg e) |}
       else inr e
   end).

(* ================================================================== *)
(** * Report builder: [ProxyChecker._format_response] *)
(* ================================================================== *)

(** The arguments of [_format_response] together with the list it derives
    from them.  The returned text is the rendering of this record; its
    first line announces success exactly when [working_protocols] is not
    empty. *)
Record report := {
  rep_proxy_str : string;
  rep_connection_time : Z;
  rep_http : probe_result;
  rep_https : probe_result;
  rep_socks4 : probe_result;
  rep_socks5 : probe_result;
  rep_username : option string;
  working_protocols : list string
}.

Definition _format_response (proxy_str : string) (connection_time : Z)
  (http_result https_result socks4_result socks5_result : probe_result)
  (username : option string) : report :=
  let protocol_results :=
    [http_result; https_result; socks4_result; socks5_result] in
  {| rep_proxy_str := proxy_str;
     rep_connection_time := connection_time;
     rep_http := http_result;
     rep_https := https_result;
     rep_socks4 := socks4_result;
     rep_socks5 := socks5_result;
     rep_username := username;
     working_protocols :=
       map protocol (filter (fun r => truthy (working r)) protocol_results) |}.

(** A string returned by the checker: a literal message, or the rendering
    of a report. *)
Inductive check_output :=
| Message (text : string)
| Rendered (r : report).

(* ================================================================== *)
(** * External validation client (the RapidAPI block of [check_proxy]) *)
(* ================================================================== *)

(** What happens in the RapidAPI block.  In the first case the session
    could not be created and no request is sent. *)
Inductive api_outcome :=
| ApiSessionRaised (e : exn)     (* [get_client_session()] raised *)
| ApiRaised (e : exn)            (* [session.post] raised *)
| ApiResponded (elapsed : Z) (status : Z) (body : body_outcome).


(** Whether the POST request was issued. *)
Definition api_requested (resp : api_outcome) : bool :=
  match resp with
  | ApiSessionRaised _ => false
  | ApiRaised _ | ApiResponded _ _ _ => true
  end.

(** [v[k]]: [None] is the [TypeError] or [KeyError]. *)
Definition py_getitem (v : pyval) (k : string) : option pyval :=
  match v with
  | PyDict d => dict_get d k
  | _ => None
  end.

Definition is_success (v : pyval) : bool :=
  match v with
  | PyStr s => String.eqb s "success"
  | _ => false
  end.

(** The [if]/[elif] that binds [result_data].  [None] means that an
    exception is raised: a [TypeError] of [in] or of the subscript, or the
    [UnboundLocalError] of the first use of [result_data] when neither
    branch was taken. *)
Definition select_result_data (data : pyval) : option pyval :=
  let alternate (_ : unit) :=
    match py_in "isHttpProxyValid" data, py_in "isHttpsProxyValid" data with
    | Some a, Some b => if a || b then Some data else None
    | _, _ => None
    end in
  match py_in "status" data with
  | None => None
  | Some false => alternate tt
  | Some true =>
      match py_getitem data "status" with
      | None => None
      | Some s =>
          if is_success s then
            match data with
            | PyDict d =>
                Some (match dict_get d "data" with
                      | Some v => v
                      | None => PyDict []
                      end)
            | _ => None
            end
          else alternate tt
      end
  end.

(** One of the four dictionaries built from [result_data]. *)
Definition api_protocol_result (result_data : list (string * pyval))
  (protocol key : string) (elapsed : Z) : probe_result :=
  let flag :=
    match dict_get result_data key with
    | Some v => v
    | None => PyBool false
    end in
  {| protocol := protocol;
     working := flag;
     status := if truthy flag then "✅ Working" else "❌ Failed";
     time := elapsed;
     ip := None; anonymity := None |}.

Inductive api_verdict :=
| Usable (http https socks4 socks5 : probe_result)
| UseFallback
| ApiEscapes (e : exn).          (* not an [Exception]: no handler takes it *)

(** The three nested [try] blocks of the RapidAPI call. *)
Definition rapidapi_verdict (resp : api_outcome) : api_verdict :=
  let handler (e : exn) :=
    if isinstance e Exception then UseFallback else ApiEscapes e in
  match resp with
  | ApiSessionRaised e => handler e
  | ApiRaised e => handler e
  | ApiResponded elapsed status body =>
      if (200 <=? status) && (status <? 500) then
        match body with
        | BodyRaised e => handler e
        | BodyJson data =>
            if truthy data then
              match select_result_data data with
              | Some (PyDict rd) =>
                  Usable
                    (api_protocol_result rd "HTTP" "isHttpProxyValid" elapsed)
                    (api_protocol_result rd "HTTPS" "isHttpsProxyValid" elapsed)
                    (api_protocol_result rd "SOCKS4" "isSocks4ProxyValid" elapsed)
                    (api_protocol_result rd "SOCKS5" "isSocks5ProxyValid" elapsed)
              | _ => UseFallback    (* AttributeError, TypeError, Unbound *)
              end
            else UseFallback
        end
      else UseFallback
  end.

(* ================================================================== *)
(** * [ProxyChecker.check_proxy] *)
(* ================================================================== *)

(** Ceiling of the wait on [response.json()] in [_test_proxy]. *)
Definition BODY_TIMEOUT : Z := 2000.

(** Raised by [asyncio.wait_for] when its timeout elapses. *)
Definition EXC_WAIT_TIMEOUT : exn :=
  {| exc_type := TimeoutError; exc_msg := EmptyString |}.

(** Whether [_test_proxy] reads the body of a response. *)
Definition reads_body (resp : response) : bool :=
  (resp_status resp <? 500)
  && Py.contains "application/json" (resp_content_type resp).

(** The transport behind one probe, were it never interrupted: what the
    session and the request do, the instant at which a failing request
    raises (a response arrives at its [elapsed]), and how long
    [response.json()] takes.  Instants are counted from the start of the
    probe. *)
Record transport := {
  net_run : probe_run;
  request_time : Z;
  body_time : Z
}.

(** The two safety waits of [_test_proxy] applied to the transport:
    [wait_for(request_task, REQUEST_TIMEOUT)] and
    [wait_for(read_task, 2.0)].  A wait is won by the awaited task when it
    completes strictly before the timeout. *)
Definition under_timeouts (t : transport) : probe_run :=
  let timed_out :=
    {| session_error := None; request := RequestRaised EXC_WAIT_TIMEOUT |} in
  match session_error (net_run t) with
  | Some _ => net_run t
  | None =>
      match request (net_run t) with
      | RequestRaised _ =>
          if request_time t <? REQUEST_TIMEOUT then net_run t else timed_out
      | Responded elapsed resp =>
          if elapsed <? REQUEST_TIMEOUT then
            if reads_body resp && (BODY_TIMEOUT <=? body_time t) then
              {| session_error := None;
                 request :=
                   Responded elapsed
                     {| resp_status := resp_status resp;
                        resp_content_type := resp_content_type resp;
                        resp_body := BodyRaised EXC_WAIT_TIMEOUT |} |}
            else net_run t
          else timed_out
      end
  end.

(** The instant at which [_test_proxy] returns, counted from its start. *)
Definition probe_duration (t : transport) : Z :=
  match session_error (net_run t) with
  | Some _ => 0
  | None =>
      match request (net_run t) with
      | RequestRaised _ => Z.min (Z.max 0 (request_time t)) REQUEST_TIMEOUT
      | Responded elapsed resp =>
          if elapsed <? REQUEST_TIMEOUT then
            Z.max 0 elapsed
            + (if reads_body resp
               then Z.min (Z.max 0 (body_time t)) BODY_TIMEOUT
               else 0)
          else REQUEST_TIMEOUT
      end
  end.

(** The behaviour of the outside world for one endpoint check. *)
Record world := {
  connect_ex : connect_oracle;
  connect_elapsed : Z;
  api_post : string -> Z -> option BasicAuth -> api_outcome;
  probe_net : string -> string -> string -> transport
}.

(** Network operations, in the order in which they are started. *)
Inductive net_event :=
| EvConnect (fam : socket_family) (host : string) (port : Z)
| EvApiPost (host : string) (port : Z)
| EvProbe (proxy url protocol : string).

(** [self._test_proxy(proxy, url, protocol)] as a timed coroutine. *)
Definition test_proxy_task (w : world) (proxy url protocol : string)
  : candidate :=
  let t := probe_net w proxy url protocol in
  {| finish := probe_duration t;
     outcome := _test_proxy (under_timeouts t) proxy url protocol |}.

Definition HTTP_URLS : list string :=
  ["http://httpbin.org/get"; "http://ip-api.com/json"; "http://example.com"].
Definition HTTPS_URLS : list string :=
  ["https://httpbin.org/get"; "https://ifconfig.me/all.json";
   "https://example.com"].
Definition SOCKS4_URLS : list string :=
  ["http://httpbin.org/get"; "http://ip.jsontest.com"; "http://example.com"].
Definition SOCKS5_URLS : list string :=
  ["http://httpbin.org/get"; "http://ip-api.com/json"; "http://example.com"].

(** The [asyncio.gather] of the four testers, without [return_exceptions]: the first
    exception raised, in time, is propagated. *)
Fixpoint first_raised (rs : list (Z * (probe_result + exn)))
  : option (Z * exn) :=
  match rs with
  | [] => None
  | (t, inl _) :: rest => first_raised rest
  | (t, inr e) :: rest =>
      match first_raised rest with
      | Some (t', e') => if t' <? t then Some (t', e') else Some (t, e)
      | None => Some (t, e)
      end
  end.

Definition not_responding (proxy_str err : string) : string :=
  "❌ Proxy <code>" ++ proxy_str ++ "</code> is not responding. " ++ err.

(** The fallback part of [check_proxy], after the RapidAPI block. *)
Definition manual_testing (w : world) (proxy_str : string)
  (host : string) (port : Z) (auth : option BasicAuth)
  (connection_time : Z) (username : option string)
  : list net_event * (check_output + exn) :=
  let proxy_url := host ++ ":" ++ Py.str_of_int port in
  let cred :=
    match auth with
    | Some a => login a ++ ":" ++ password a ++ "@"
    | None => ""
    end in
  let http_proxy := "http://" ++ cred ++ proxy_url in
  let socks4_proxy := "socks4://" ++ cred ++ proxy_url in
  let socks5_proxy := "socks5://" ++ cred ++ proxy_url in
  let run proxy urls protocol :=
    _test_proxy_with_fallbacks (test_proxy_task w) proxy urls protocol in
  let launched proxy urls protocol :=
    map (fun url => EvProbe proxy url protocol) urls in
  let events :=
    (launched http_proxy HTTP_URLS "HTTP"
     ++ launched http_proxy HTTPS_URLS "HTTPS"
     ++ launched socks4_proxy SOCKS4_URLS "SOCKS4"
     ++ launched socks5_proxy SOCKS5_URLS "SOCKS5")%list in
  let r1 := run http_proxy HTTP_URLS "HTTP" in
  let r2 := run http_proxy HTTPS_URLS "HTTPS" in
  let r3 := run socks4_proxy SOCKS4_URLS "SOCKS4" in
  let r4 := run socks5_proxy SOCKS5_URLS "SOCKS5" in
  match first_raised [r1; r2; r3; r4], snd r1, snd r2, snd r3, snd r4 with
  | None, inl http_result, inl https_result, inl socks4_result,
    inl socks5_result =>
      (events,
       inl (Rendered (_format_response proxy_str connection_time
                        http_result https_result socks4_result socks5_result
                        username)))
  | Some (_, e), _, _, _, _ => (events, inr e)
  | None, _, _, _, _ => (events, inr EXC_NO_DONE)     (* unreachable *)
  end.

Module ProxyChecker.

(** [ProxyChecker.check_proxy], the body of [async with self.semaphore]:
    the network operations started, and the returned string or the
    exception that escapes. *)
Definition check_proxy (w : world) (proxy_str : string)
  (username : option string) : list net_event * (check_output + exn) :=
  match _parse_proxy_string proxy_str with
  | inr proxy_data => ([], inl (Message proxy_data))
  | inl (host, port, auth) =>
      match _validate_ip_port host port with
      | Some validation_result => ([], inl (Message validation_result))
      | None =>
          let '(log, r) :=
            _check_socket_connection (connect_ex w) (connect_elapsed w)
              host port in
          let connects := map (fun a => EvConnect (fst a) host port) log in
          match r with
          | inr e => (connects, inr e)
          | inl socket_result =>
              let failed :=
                match error socket_result with
                | Some err => negb (String.eqb err EmptyString)
                | None => false
                end in
              if failed then
                (connects,
                 inl (Message
                        (not_responding proxy_str
                           (match error socket_result with
                            | Some err => err
                            | None => EmptyString
                            end))))
              else
                let connection_time := sock_time socket_result in
                let resp := api_post w host port auth in
                let api :=
                  if api_requested resp
                  then (connects ++ [EvApiPost host port])%list
                  else connects in
                match rapidapi_verdict resp with
                | Usable http_result https_result socks4_result
                    socks5_result =>
                    (api,
                     inl (Rendered
                            (_format_response proxy_str connection_time
                               http_result https_result socks4_result
                               socks5_result username)))
                | ApiEscapes e => (api, inr e)
                | UseFallback =>
                    let '(probes, out) :=
                      manual_testing w proxy_str host port auth
                        connection_time username in
                    ((api ++ probes)%list, out)
                end
          end
      end
  end.

End ProxyChecker.

(* ================================================================== *)
(** * The shared connector: [ProxyChecker.initialize] *)
(* ================================================================== *)

(** The keyword arguments of [aiohttp.TCPConnector(...)] that the module
    sets; durations in milliseconds. *)
Record connector_args := {
  limit : nat;
  limit_per_host : nat;
  ssl : bool;
  ttl_dns_cache : Z;
  force_close : bool;
  keepalive_timeout : option Z
}.

(** The arguments passed by [initialize]. *)
Definition connector_arguments (max_concurrent : nat) : connector_args :=
  {| limit := max_concurrent;
     limit_per_host := 2;
     ssl := false;
     ttl_dns_cache := 300000;
     force_close := true;
     keepalive_timeout := Some 5000 |}.

Definition EXC_KEEPALIVE : exn :=
  {| exc_type := ValueError;
     exc_msg := "keepalive_timeout cannot be set if force_close is True" |}.

(** The check of its arguments that [aiohttp.TCPConnector.__init__] makes:
    [Some e] is the exception raised, [None] means that the connector is
    built. *)
Definition TCPConnector (a : connector_args) : option exn :=
  if force_close a then
    match keepalive_timeout a with
    | Some _ => Some EXC_KEEPALIVE
    | None => None
    end
  else None.

(** [self.connector]: [None], a connector, or a connector that was
    closed. *)
Inductive connector_state := NoConnector | OpenConnector | ClosedConnector.

(** [ProxyChecker.initialize]: the new value of [self.connector] and the
    exception raised, if any.  [build] is the constructor of the connector
    class. *)
Definition initialize (build : connector_args -> option exn)
  (max_concurrent : nat) (connector : connector_state)
  : connector_state * option exn :=
  match connector with
  | OpenConnector => (OpenConnector, None)
  | NoConnector | ClosedConnector =>
      match build (connector_arguments max_concurrent) with
      | Some e => (connector, Some e)
      | None => (OpenConnector, None)
      end
  end.

(* ================================================================== *)
(** * Module-level coroutines *)
(* ================================================================== *)

(** [check_proxy]: the wrapper that turns an [Exception] into a message. *)
Definition check_proxy (w : world) (proxy_str : string)
  (username : option string) : list net_event * (check_output + exn) :=
  match ProxyChecker.check_proxy w proxy_str username with
  | (events, inr e) =>
      if isinstance e Exception then
        (events,
         inl (Message ("❌ An error occurred while checking the proxy: "
                       ++ exc_msg e)))
      else (events, inr e)
  | r => r
  end.

(** [range(0, stop, step)]; [None] is the [ValueError] of a zero step. *)
Definition py_range (stop step : nat) : option (list nat) :=
  match step with
  | O => None
  | S _ =>
      Some (map (fun k => (k * step)%nat)
              (seq 0 ((stop + step - 1) / step)%nat))
  end.

Definition EXC_RANGE_STEP : exn :=
  {| exc_type := ValueError; exc_msg := "range() arg 3 must not be zero" |}.

(** Per-sub-batch ceiling: [REQUEST_TIMEOUT * 3]. *)
Definition BATCH_TIMEOUT : Z := REQUEST_TIMEOUT * 3.

(** The world of one call of [check_multiple_proxies].  [connector] is
    [proxy_checker.connector] at the call and [build_connector] the
    constructor [initialize] calls.  The tasks all live from the first
    suspension of the orchestrator on: [task_world i] is the network seen
    by the [i]-th task and [task_finish i] the instant at which it
    completes, counted from the creation of the tasks.  [unwind i] is the
    time the cancelled tasks of the sub-batch that starts at index [i] take
    to end, once its wait has timed out. *)
Record batch_world := {
  connector : connector_state;
  build_connector : connector_args -> option exn;
  task_world : nat -> world;
  task_finish : nat -> Z;
  unwind : nat -> nat
}.

(** An [asyncio.Task] of the orchestrator: its position of creation and
    the endpoint it checks. *)
Record task := { t_idx : nat; t_proxy : string }.

(** An element of the list returned by [check_multiple_proxies]: a string,
    or an exception object appended as it is. *)
Inductive entry :=
| Entry (o : check_output)
| EntryExc (e : exn).

(** What the orchestrator asks of the event loop, in program order. *)
Inductive sched_event :=
| Spawn (idx : nat) (proxy : string)      (* [asyncio.create_task] *)
| WaitBegin (now : Z) (members : list nat) (* suspension on [wait_for] *)
| WaitEnd (now : Z) (timed_out : bool)     (* the orchestrator resumes *)
| Cancel (idx : nat).                      (* a timed-out wait cancels it *)

(** [proxy_list[proxy_idx] if proxy_idx < len(proxy_list) else "unknown"]. *)
Definition proxy_at (proxy_list : list string) (proxy_idx : nat) : string :=
  nth proxy_idx proxy_list "unknown".

(** What [gather(..., return_exceptions=True)] holds for a completed task. *)
Definition task_outcome (bw : batch_world) (username : option string)
  (t : task) : check_output + exn :=
  snd (check_proxy (task_world bw (t_idx t)) (t_proxy t) username).

(** The loop over [enumerate(batch_results)]. *)
Definition collect_batch (bw : batch_world) (proxy_list : list string)
  (username : option string) (i : nat) (batch : list task) : list entry :=
  map (fun jt : nat * task =>
         let '(j, t) := jt in
         match task_outcome bw username t with
         | inr e =>
             if isinstance e Exception then
               Entry (Message ("❌ Error checking proxy "
                               ++ proxy_at proxy_list (i + j) ++ ": "
                               ++ exc_msg e))
             else EntryExc e
         | inl result => Entry result
         end)
      (combine (seq 0 (length batch)) batch).

(** The handler of the sub-batch [TimeoutError]. *)
Definition timeout_batch (proxy_list : list string) (i : nat)
  (batch : list task) : list entry :=
  map (fun j => Entry (Message ("❌ Timeout checking proxy "
                                ++ proxy_at proxy_list (i + j))))
      (seq 0 (length batch)).

(** The [for i in range(0, len(tasks), batch_size)] loop, from the instant
    [now] on. *)
Fixpoint run_batches (bw : batch_world) (proxy_list : list string)
  (username : option string) (tasks : list task) (batch_size : nat)
  (starts : list nat) (now : Z) : list sched_event * list entry :=
  match starts with
  | [] => ([], [])
  | i :: later =>
      let batch := firstn batch_size (skipn i tasks) in
      let members := map t_idx batch in
      let deadline := now + BATCH_TIMEOUT in
      let done_at :=
        fold_right Z.max now (map (fun t => task_finish bw (t_idx t)) batch) in
      if done_at <? deadline then
        let '(events, results) :=
          run_batches bw proxy_list username tasks batch_size later done_at in
        (WaitBegin now members :: WaitEnd done_at false :: events,
         (collect_batch bw proxy_list username i batch ++ results)%list)
      else
        let pending :=
          filter (fun t => deadline <=? task_finish bw (t_idx t)) batch in
        let resumed := deadline + Z.of_nat (unwind bw i) in
        let '(events, results) :=
          run_batches bw proxy_list username tasks batch_size later resumed in
        ((WaitBegin now members :: WaitEnd resumed true
            :: map (fun t => Cancel (t_idx t)) pending) ++ events,
         timeout_batch proxy_list i batch ++ results)%list
  end.

(** The list returned by the outermost handler of
    [check_multiple_proxies]. *)
Definition batch_error (e : exn) : list entry :=
  [Entry (Message ("❌ An error occurred in batch processing: "
                   ++ exc_msg e))].

(** [check_multiple_proxies]: the requests made to the event loop, and the
    returned list or the exception that escapes.  A wait that times out
    cancels its gather and resumes once the cancelled tasks have ended. *)
Definition check_multiple_proxies (bw : batch_world)
  (proxy_list : list string) (username : option string)
  : list sched_event * (list entry + exn) :=
  match snd (initialize (build_connector bw) MAX_CONCURRENT_CHECKS
               (connector bw)) with
  | Some e =>
      if isinstance e Exception then ([], inl (batch_error e))
      else ([], inr e)
  | None =>
      let tasks :=
        map (fun ip : nat * string => {| t_idx := fst ip; t_proxy := snd ip |})
          (combine (seq 0 (length proxy_list)) proxy_list) in
      let spawned := map (fun t => Spawn (t_idx t) (t_proxy t)) tasks in
      let batch_size := Nat.min 10 (length proxy_list) in
      match py_range (length tasks) batch_size with
      | None => (spawned, inl (batch_error EXC_RANGE_STEP))
      | Some starts =>
          let '(events, results) :=
            run_batches bw proxy_list username tasks batch_size starts 0 in
          ((spawned ++ events)%list, inl results)
      end
  end.

(** ** Reading the orchestrator's trace *)

(** The instant of the next suspension of the orchestrator. *)
Fixpoint first_wait (events : list sched_event) : option Z :=
  match events with
  | [] => None
  | WaitBegin now _ :: _ => Some now
  | _ :: rest => first_wait rest
  end.

(** A task created by [asyncio.create_task] starts running when its
    creator next suspends. *)
Fixpoint task_start (events : list sched_event) (idx : nat) : option Z :=
  match events with
  | [] => None
  | Spawn i _ :: rest =>
      if (i =? idx)%nat then first_wait rest else task_start rest idx
  | _ :: rest => task_start rest idx
  end.

(** The instant at which the wait on the sub-batch holding [idx] ends,
    by completion or by timeout. *)
Fixpoint wait_end (events : list sched_event) (idx : nat) : option Z :=
  match events with
  | [] => None
  | WaitBegin _ members :: rest =>
      if existsb (Nat.eqb idx) members then
        match rest with
        | WaitEnd now _ :: _ => Some now
        | _ => None
        end
      else wait_end rest idx
  | _ :: rest => wait_end rest idx
  end.

(** The member lists of the successive waits. *)
Fixpoint waits (events : list sched_event) : list (list nat) :=
  match events with
  | [] => []
  | WaitBegin _ members :: rest => members :: waits rest
  | _ :: rest => waits rest
  end.

Definition is_spawn (e : sched_event) : bool :=
  match e with Spawn _ _ => true | _ => false end.

(* ================================================================== *)
(** * The semaphore around [ProxyChecker.check_proxy] *)
(* ================================================================== *)

(** A candidate probe of the fallback: waiting for a connection of the
    connector, holding one, or over. *)
Inductive probe_state := Waiting | Connected | Over.

(** Where one call of [ProxyChecker.check_proxy] stands.  The phases that
    hold a unit of [self.semaphore] are those inside [async with].  An
    HTTP operation (the RapidAPI request, a candidate probe) goes through
    the shared connector, built with [limit=self.max_concurrent] and
    [limit_per_host=2]: it waits until the connector grants it a
    connection and holds that connection while it is in flight. *)
Inductive phase :=
| Created                       (* not yet past [async with self.semaphore] *)
| Probing                       (* awaiting [_check_socket_connection] *)
| Validating (connected : bool) (* in the RapidAPI block *)
| Testing (probes : list probe_state)
                                (* awaiting the gather of the testers *)
| Finished.

Definition holds_unit (p : phase) : bool :=
  match p with
  | Probing | Validating _ | Testing _ => true
  | Created | Finished => false
  end.

(** Socket probes of a call that are in flight. *)
Definition sockets_of (p : phase) : nat :=
  match p with
  | Probing => 1
  | _ => 0
  end.

Definition connected_count (st : probe_state) : nat :=
  match st with
  | Connected => 1
  | Waiting | Over => 0
  end.

(** The sum of a measure over a list. *)
Definition total {A : Type} (f : A -> nat) (l : list A) : nat :=
  fold_right Nat.add 0%nat (map f l).

(** Connections of the shared connector that a call holds: its HTTP
    operations in flight. *)
Definition connections_of (p : phase) : nat :=
  match p with
  | Validating true => 1
  | Testing probes => total connected_count probes
  | _ => 0
  end.

(** Network operations of a call that are in flight. *)
Definition in_flight_of (p : phase) : nat :=
  sockets_of p + connections_of p.

(** Candidate probes launched by the fallback part of one call, numbered
    in the order of the four testers and of their URL lists. *)
Definition FALLBACK_PROBES : nat :=
  length (HTTP_URLS ++ HTTPS_URLS ++ SOCKS4_URLS ++ SOCKS5_URLS)%list.

(** The suspension points of one call and the ways it leaves them. *)
Inductive move :=
| Enter (accepted : bool)   (* acquire; parse and validate *)
| SocketDone (alive : bool) (* the socket probe returned *)
| ApiConnect                (* the RapidAPI request obtains a connection *)
| ApiDone (usable : bool)   (* the RapidAPI block is over *)
| ProbeConnect (k : nat)    (* candidate [k] obtains a connection *)
| ProbeDone (k : nat)       (* candidate [k], connected, completes *)
| ProbeFail (k : nat)       (* candidate [k] ends without connection *)
| Leave.                    (* return, exception or cancellation *)

Fixpoint set_nth {A : Type} (i : nat) (x : A) (l : list A) : list A :=
  match l, i with
  | [], _ => []
  | _ :: rest, O => x :: rest
  | y :: rest, S j => y :: set_nth j x rest
  end.

(** One move of one call against the semaphore value [permits] and the
    number [free] of connections the connector can still grant. *)
Definition step_phase (permits free : nat) (p : phase) (m : move)
  : option (nat * nat * phase) :=
  match p, m with
  | Created, Enter accepted =>
      match permits with
      | O => None                              (* [acquire] blocks *)
      | S v => if accepted then Some (v, free, Probing)
               else Some (S v, free, Finished) (* acquired and released *)
      end
  | Created, Leave => Some (permits, free, Finished)
                                               (* cancelled while waiting *)
  | Probing, SocketDone alive =>
      if alive then Some (permits, free, Validating false)
      else Some (S permits, free, Finished)
  | Validating false, ApiConnect =>
      match free with
      | O => None                              (* the connector is full *)
      | S f => Some (permits, f, Validating true)
      end
  | Validating true, ApiDone usable =>
      if usable then Some (S permits, S free, Finished)
      else Some (permits, S free, Testing (repeat Waiting FALLBACK_PROBES))
  | Validating false, ApiDone false =>
      Some (permits, free, Testing (repeat Waiting FALLBACK_PROBES))
  | Testing probes, ProbeConnect k =>
      match nth_error probes k, free with
      | Some Waiting, S f =>
          Some (permits, f, Testing (set_nth k Connected probes))
      | _, _ => None                           (* the connector is full *)
      end
  | Testing probes, ProbeDone k =>
      match nth_error probes k with
      | Some Connected =>
          Some (permits, S free, Testing (set_nth k Over probes))
      | _ => None
      end
  | Testing probes, ProbeFail k =>
      match nth_error probes k with
      | Some Waiting => Some (permits, free, Testing (set_nth k Over probes))
      | _ => None
      end
  | Probing, Leave | Validating _, Leave | Testing _, Leave =>
      Some (S permits, (free + connections_of p)%nat, Finished)
                                               (* [__aexit__] releases *)
  | _, _ => None
  end.

(** The key under which the connector counts the connections of one host
    for [limit_per_host]: the target of the request together with the
    proxy it goes through.  Every RapidAPI request has the same key; the
    twelve candidates of a call have twelve different keys, which they
    share with the candidates of the calls that check the same endpoint. *)
Inductive connection_key :=
| ApiHost
| Candidate (endpoint k : nat).

(** Whether a call, checking [endpoint], holds a connection under [key]. *)
Definition holds_key (key : connection_key) (endpoint : nat) (p : phase)
  : nat :=
  match key, p with
  | ApiHost, Validating true => 1
  | Candidate e k, Testing probes =>
      if (e =? endpoint)%nat then
        match nth_error probes k with
        | Some Connected => 1
        | _ => 0
        end
      else 0
  | _, _ => 0
  end.

(** The key of the connection that a move asks the connector for. *)
Definition requested_key (endpoint : nat) (m : move) : option connection_key :=
  match m with
  | ApiConnect => Some ApiHost
  | ProbeConnect k => Some (Candidate endpoint k)
  | _ => None
  end.

(** The semaphore, the connector and the calls.  [endpoint_of] tells which
    endpoint a call checks: two calls have the same value when they were
    given the same host, port and credentials. *)
Record system := {
  permits : nat;                (* value of the [asyncio.Semaphore] *)
  free_connections : nat;       (* what the connector can still grant *)
  per_host : nat;               (* [limit_per_host] of the connector *)
  endpoint_of : nat -> nat;
  calls : list phase
}.

(** The sum over the calls of a measure that depends on the index of the
    call, the first call having index [start]. *)
Fixpoint total_from (f : nat -> phase -> nat) (start : nat) (l : list phase)
  : nat :=
  match l with
  | [] => 0
  | p :: rest => (f start p + total_from f (S start) rest)%nat
  end.

(** Connections that the connector has granted under [key]. *)
Definition acquired_per_host (s : system) (key : connection_key) : nat :=
  total_from (fun i p => holds_key key (endpoint_of s i) p) 0 (calls s).

(** One move of the call [i].  A request for a connection waits while the
    connector has granted [limit_per_host] connections under its key. *)
Definition step (s : system) (i : nat) (m : move) : option system :=
  match nth_error (calls s) i with
  | None => None
  | Some p =>
      let refused :=
        match requested_key (endpoint_of s i) m with
        | Some key => (per_host s <=? acquired_per_host s key)%nat
        | None => false
        end in
      if refused then None
      else
        match step_phase (permits s) (free_connections s) p m with
        | None => None
        | Some (v, f, p') =>
            Some {| permits := v; free_connections := f;
                    per_host := per_host s; endpoint_of := endpoint_of s;
                    calls := set_nth i p' (calls s) |}
        end
  end.

Fixpoint run (s : system) (script : list (nat * move)) : option system :=
  match script with
  | [] => Some s
  | (i, m) :: rest =>
      match step s i m with
      | None => None
      | Some s' => run s' rest
      end
  end.

(** [ProxyChecker(max_concurrent)], its connector built, with [n] calls of
    [check_proxy] issued, the call [i] for the endpoint [endpoints i]. *)
Definition initial (max_concurrent n : nat) (endpoints : nat -> nat)
  : system :=
  {| permits := max_concurrent;
     free_connections := limit (connector_arguments max_concurrent);
     per_host := limit_per_host (connector_arguments max_concurrent);
     endpoint_of := endpoints;
     calls := repeat Created n |}.

Definition holders (s : system) : nat :=
  length (filter holds_unit (calls s)).

Definition sockets (s : system) : nat := total sockets_of (calls s).

Definition connections (s : system) : nat := total connections_of (calls s).

Definition in_flight (s : system) : nat := total in_flight_of (calls s).

(* ================================================================== *)
(** * The specification's reading of the fallback race *)
(* ================================================================== *)

Definition succeeded (c : candidate) : bool :=
  match outcome c with
  | inl r => truthy (working r)
  | inr _ => false
  end.

(** Specification, section 4.4: the first candidate to report success, in
    completion order. *)
Fixpoint spec_first_success (tasks : list candidate) : option candidate :=
  match tasks with
  | [] => None
  | c :: rest =>
      let later := spec_first_success rest in
      if succeeded c then
        match later with
        | Some b => if finish b <? finish c then Some b else Some c
        | None => Some c
        end
      else later
  end.

(** Specification, section 4.4: the race returns the first success at the
    instant it completes. *)
Definition spec_race (tasks : list candidate) : option (Z * (probe_result + exn)) :=
  match spec_first_success tasks with
  | Some c => Some (finish c, outcome c)
  | None => None
  end.

(** Specification, section 4.4: the non-exception result that completed
    last before the per-protocol timeout, or the default. *)
Fixpoint spec_last_completed (tasks : list candidate)
  : option candidate :=
  match tasks with
  | [] => None
  | c :: rest =>
      let later := spec_last_completed rest in
      match outcome c with
      | inl _ =>
          if finish c <? PROTOCOL_TIMEOUT then
            match later with
            | Some b => if finish c <? finish b then Some b else Some c
            | None => Some c
            end
          else later
      | inr _ => later
      end
  end.

Definition spec_no_success_result (tasks : list candidate) (protocol : string)
  : probe_result + exn :=
  match spec_last_completed tasks with
  | Some c => outcome c
  | None => inl (default_result protocol)
  end.



Definition is_usable (v : api_verdict) : bool :=
  match v with Usable _ _ _ _ => true | _ => false end.

(* ================================================================== *)
(** * Sample runs *)
(* ================================================================== *)

(** The failed request of a probe, by the class of the exception raised. *)
Definition raising (c : exc_class) (msg : string) : probe_run :=
  {| session_error := None;
     request := RequestRaised {| exc_type := c; exc_msg := msg |} |}.

Definition failed_with (protocol text : string) : probe_result + exn :=
  inl {| protocol := protocol; working := PyBool false; status := text;
         time := 0; ip := None; anonymity := None |}.


Definition responding (elapsed status : Z) (content_type : string)
  (body : body_outcome) : probe_run :=
  {| session_error := None;
     request := Responded elapsed
                  {| resp_status := status;
                     resp_content_type := content_type;
                     resp_body := body |} |}.

(** A candidate that neither succeeds nor stops the scan of the results:
    a returned dictionary that is not working, or an [Exception] object. *)
Definition quiet (o : probe_result + exn) : Prop :=
  match o with
  | inl r => truthy (working r) = false
  | inr e => isinstance e Exception = true
  end.

(** The dictionaries among the gathered results, in list order. *)
Fixpoint returned (results : list (probe_result + exn)) : list probe_result :=
  match results with
  | [] => []
  | inl r :: rest => r :: returned rest
  | inr _ :: rest => returned rest
  end.

(** An attempt in which [connect_ex] returns [code] and nothing raises. *)
Definition answering (code : Z) : attempt :=
  {| sock_error := None; connect_result := inl code; close_error := None |}.

(** A network in which the socket answers and RapidAPI times out, so that
    the four fallback testers run.  Behind the proxy [http://1.2.3.4:8080]:
    - HTTP: httpbin answers 200 after 10 s, ip-api answers 200 after 1 s,
      example.com answers 503 after 12 s;
    - HTTPS: httpbin answers 503 after 9 s, ifconfig.me refuses the
      connection after 1 s, example.com times out after 4 s.
    Behind any other HTTP proxy:
    - HTTP: httpbin refuses after 0.5 s, ip-api answers 503 after 0.7 s,
      example.com answers 200 after 0.9 s;
    - HTTPS: every request is refused after 0.3 s.
    The SOCKS probes fail at once with a [ValueError], the proxy URL not
    being an HTTP one. *)
Definition sample_finish (proxy url protocol : string) : Z :=
  if String.eqb protocol "HTTP" then
    if String.eqb proxy "http://1.2.3.4:8080" then
      if String.eqb url "http://httpbin.org/get" then 10000
      else if String.eqb url "http://ip-api.com/json" then 1000
      else 12000
    else
      if String.eqb url "http://httpbin.org/get" then 500
      else if String.eqb url "http://ip-api.com/json" then 700
      else 900
  else if String.eqb protocol "HTTPS" then
    if String.eqb proxy "http://1.2.3.4:8080" then
      if String.eqb url "https://httpbin.org/get" then 9000
      else if String.eqb url "https://ifconfig.me/all.json" then 1000
      else 4000
    else 300
  else 1.

Definition sample_run (proxy url protocol : string) : probe_run :=
  let page elapsed status :=
    responding elapsed status "text/html" (BodyJson PyNone) in
  let refused := raising ClientConnectorError "Cannot connect to host" in
  if String.eqb protocol "HTTP" then
    if String.eqb proxy "http://1.2.3.4:8080" then
      if String.eqb url "http://httpbin.org/get" then page 10000 200
      else if String.eqb url "http://ip-api.com/json" then page 1000 200
      else page 12000 503
    else
      if String.eqb url "http://httpbin.org/get" then refused
      else if String.eqb url "http://ip-api.com/json" then page 700 503
      else page 900 200
  else if String.eqb protocol "HTTPS" then
    if String.eqb proxy "http://1.2.3.4:8080" then
      if String.eqb url "https://httpbin.org/get" then page 9000 503
      else if String.eqb url "https://ifconfig.me/all.json" then refused
      else raising TimeoutError ""
    else refused
  else raising ValueError "Only http proxies are supported".

Definition sample_net (proxy url protocol : string) : transport :=
  {| net_run := sample_run proxy url protocol;
     request_time := sample_finish proxy url protocol;
     body_time := 0 |}.

Definition sample_world : world :=
  {| connect_ex := fun _ _ _ _ => answering 0;
     connect_elapsed := 40;
     api_post := fun _ _ _ =>
       ApiRaised {| exc_type := TimeoutError; exc_msg := "" |};
     probe_net := sample_net |}.

(** The same network behind a proxy whose port is closed. *)
Definition dead_world : world :=
  {| connect_ex := fun _ _ _ _ => answering 111;
     connect_elapsed := 3;
     api_post := api_post sample_world;
     probe_net := sample_net |}.

(** A failed socket probe: a non-zero code from [_socket_connect], or an
    exception caught by [_check_socket_connection]. *)
Definition socket_failed (r : Z + exn) : Prop :=
  match r with
  | inl code => code <> 0
  | inr e => isinstance e Exception = true
  end.

Definition is_connect (ev : net_event) : Prop :=
  match ev with
  | EvConnect _ _ _ => True
  | EvApiPost _ _ | EvProbe _ _ _ => False
  end.

Definition is_probe (ev : net_event) : Prop :=
  match ev with
  | EvProbe _ _ _ => True
  | EvConnect _ _ _ | EvApiPost _ _ => False
  end.

(** Where the validation client reads the four flags from, for a decoded
    body that is the object [d]: from its [data] member (an empty object
    when absent) if [status] is "success", else from [d] itself if it has
    one of the two HTTP flags. *)
Definition flags_source (d rd : list (string * pyval)) : Prop :=
  (dict_get d "status" = Some (PyStr "success")
   /\ (dict_get d "data" = Some (PyDict rd)
       \/ (dict_get d "data" = None /\ rd = [])))
  \/ (dict_get d "status" <> Some (PyStr "success")
      /\ (dict_has d "isHttpProxyValid" = true
          \/ dict_has d "isHttpsProxyValid" = true)
      /\ rd = d).



(** Twenty calls, for twenty endpoints: the first nineteen are awaiting
    their socket probe, the twentieth has reached the fallback testers and
    two of its candidate probes hold a connection. *)
Definition enter_all (n : nat) : list (nat * move) :=
  map (fun i => (i, Enter true)) (seq 0 n).

Definition nineteen_sockets_two_probes : list (nat * move) :=
  (enter_all 20
   ++ [(19%nat, SocketDone true); (19%nat, ApiConnect);
       (19%nat, ApiDone false); (19%nat, ProbeConnect 0);
       (19%nat, ProbeConnect 1)])%list.

(** Three calls that reach the RapidAPI block: the third request waits
    for a connection while the first two hold theirs. *)
Definition three_api_requests : list (nat * move) :=
  (enter_all 3
   ++ [(0%nat, SocketDone true); (1%nat, SocketDone true);
       (2%nat, SocketDone true); (0%nat, ApiConnect);
       (1%nat, ApiConnect)])%list.

(** What the semaphore and the connector guarantee in a state. *)
Definition unit_count (p : phase) : nat := if holds_unit p then 1 else 0.

(** A call in the fallback has launched [FALLBACK_PROBES] probes. *)
Definition launched_in_bounds (p : phase) : Prop :=
  match p with
  | Testing probes => length probes = FALLBACK_PROBES
  | _ => True
  end.

Definition balanced (max_concurrent : nat) (s : system) : Prop :=
  (permits s + holders s = max_concurrent)%nat
  /\ (free_connections s + connections s = max_concurrent)%nat
  /\ Forall launched_in_bounds (calls s)
  /\ (forall key, acquired_per_host s key <= per_host s)%nat
  /\ per_host s = limit_per_host (connector_arguments max_concurrent).

(** ** Reading the orchestrator's result *)

(** The tasks created for the endpoints [l], numbered from [start]. *)
Definition tasks_from (start : nat) (l : list string) : list task :=
  map (fun ip : nat * string => {| t_idx := fst ip; t_proxy := snd ip |})
    (combine (seq start (length l)) l).

(** The entry of a completed check of the [k]-th endpoint. *)
Definition done_entry (bw : batch_world) (proxy_list : list string)
  (username : option string) (k : nat) : entry :=
  match task_outcome bw username
          {| t_idx := k; t_proxy := proxy_at proxy_list k |} with
  | inr e =>
      if isinstance e Exception then
        Entry (Message ("❌ Error checking proxy "
                        ++ proxy_at proxy_list k ++ ": " ++ exc_msg e))
      else EntryExc e
  | inl result => Entry result
  end.

(** The entry of the [k]-th endpoint when its sub-batch timed out. *)
Definition timeout_entry (proxy_list : list string) (k : nat) : entry :=
  Entry (Message ("❌ Timeout checking proxy " ++ proxy_at proxy_list k)).

(** The entry at position [k] speaks of the [k]-th endpoint. *)
Definition entry_for (bw : batch_world) (proxy_list : list string)
  (username : option string) (k : nat) (e : entry) : Prop :=
  e = done_entry bw proxy_list username k \/ e = timeout_entry proxy_list k.

(** What [await proxy_checker.initialize()] raises for the orchestrator,
    if anything. *)
Definition initialize_raises (bw : batch_world) : option exn :=
  snd (initialize (build_connector bw) MAX_CONCURRENT_CHECKS (connector bw)).

(** The instant at which the last of the tasks [members] completes, for
    an observer who starts looking at the instant [now]. *)
Definition all_done (bw : batch_world) (now : Z) (members : list nat) : Z :=
  fold_right Z.max now (map (task_finish bw) members).

(** The waits of the orchestrator follow one another from the instant
    [now].  Each begins when the one before ended.  It ends either by
    completion, at the instant the last of its members completes and
    before its ceiling, or by timeout, not before its ceiling, one of its
    members being still running then. *)
Fixpoint sequenced (bw : batch_world) (now : Z) (events : list sched_event)
  : Prop :=
  match events with
  | [] => True
  | WaitBegin t members :: rest =>
      t = now
      /\ match rest with
         | WaitEnd t' timed_out :: _ =>
             if timed_out then
               now + BATCH_TIMEOUT <= all_done bw now members
               /\ now + BATCH_TIMEOUT <= t'
             else
               all_done bw now members < now + BATCH_TIMEOUT
               /\ t' = all_done bw now members
         | _ => False
         end
      /\ sequenced bw now rest
  | WaitEnd t' _ :: rest => sequenced bw t' rest
  | Cancel _ :: rest => sequenced bw now rest
  | Spawn _ _ :: _ => False
  end.

(** Eleven endpoints: the checks of the first ten complete after five
    seconds, the check of the eleventh after two. *)
Definition eleven_proxies : list string :=
  map (fun k => "10.0.0." ++ Py.str_of_int (Z.of_nat k) ++ ":8080")
    (seq 1 11).

Definition steady_batch : batch_world :=
  {| connector := OpenConnector;
     build_connector := TCPConnector;
     task_world := fun _ => dead_world;
     task_finish := fun i => if (i <? 10)%nat then 5000 else 2000;
     unwind := fun _ => 0%nat |}.

(* ================================================================== *)
(** * Further notions used to state properties of the checker *)
(* ================================================================== *)

(** [s.count(c)] for a character. *)
Fixpoint count_char (c : ascii) (s : string) : nat :=
  match s with
  | EmptyString => O
  | String c' rest =>
      if Ascii.eqb c' c then S (count_char c rest) else count_char c rest
  end.

(** A turn of the [for] loop of [_socket_connect] after which the loop
    goes on: a non-zero code, or an [OSError] such as [socket.gaierror] or
    a timeout, raised by any step of the turn. *)
Definition soft_failure (a : attempt) : bool :=
  match loop_body a with
  | inl code => negb (code =? 0)
  | inr e => isinstance e OSError
  end.

(** A name that does not resolve: [connect_ex] raises [socket.gaierror],
    a subclass of [OSError], at every attempt. *)
Definition EXC_GAIERROR : exn :=
  {| exc_type := OSError;
     exc_msg := "[Errno -2] Name or service not known" |}.

Definition unresolved : attempt :=
  {| sock_error := None; connect_result := inr EXC_GAIERROR;
     close_error := None |}.

(** The process has no file descriptor left: [socket.socket] raises. *)
Definition EXC_EMFILE : exn :=
  {| exc_type := OSError; exc_msg := "[Errno 24] Too many open files" |}.

Definition no_descriptor : attempt :=
  {| sock_error := Some EXC_EMFILE; connect_result := inl 0;
     close_error := None |}.

(** The three attempts [_socket_connect] can make, in order. *)
Definition ATTEMPTS : list (socket_family * nat) :=
  [(AF_INET, 0%nat); (AF_INET6, 1%nat); (AF_INET, 2%nat)].

(** The four protocol labels, in the order of the report. *)
Definition PROTOCOLS : list string := ["HTTP"; "HTTPS"; "SOCKS4"; "SOCKS5"].

(** [l1] is [l2] with some elements left out. *)
Fixpoint sublist (l1 l2 : list string) : Prop :=
  match l1, l2 with
  | [], _ => True
  | _ :: _, [] => False
  | x :: r1, y :: r2 => (x = y /\ sublist r1 r2) \/ sublist l1 r2
  end.

(** The four testers started by the fallback part of [check_proxy]: the
    proxy URL, the candidate URLs and the protocol label of each. *)
Definition testers (host : string) (port : Z) (auth : option BasicAuth)
  : list (string * list string * string) :=
  let proxy_url := host ++ ":" ++ Py.str_of_int port in
  let cred :=
    match auth with
    | Some a => login a ++ ":" ++ password a ++ "@"
    | None => ""
    end in
  [("http://" ++ cred ++ proxy_url, HTTP_URLS, "HTTP");
   ("http://" ++ cred ++ proxy_url, HTTPS_URLS, "HTTPS");
   ("socks4://" ++ cred ++ proxy_url, SOCKS4_URLS, "SOCKS4");
   ("socks5://" ++ cred ++ proxy_url, SOCKS5_URLS, "SOCKS5")].

(** [sample_world] with a RapidAPI that answers: HTTP valid, the rest not. *)
Definition answering_world : world :=
  {| connect_ex := connect_ex sample_world;
     connect_elapsed := connect_elapsed sample_world;
     api_post := fun _ _ _ =>
       ApiResponded 310 200
         (BodyJson (PyDict [("isHttpProxyValid", PyBool true);
                            ("isHttpsProxyValid", PyBool false);
                            ("isSocks4ProxyValid", PyBool false);
                            ("isSocks5ProxyValid", PyBool false)]));
     probe_net := sample_net |}.

(** Three endpoints, the second of which is still being checked after a
    minute. *)
Definition three_proxies : list string :=
  ["1.2.3.4:8080"; "5.6.7.8:3128"; "9.10.11.12:80"].

Definition stuck_batch : batch_world :=
  {| connector := OpenConnector;
     build_connector := TCPConnector;
     task_world := fun _ => dead_world;
     task_finish := fun i => if (i =? 1)%nat then 60000 else 2000;
     unwind := fun _ => 0%nat |}.

(** The value of a decimal numeral read from its first digit on, [acc]
    being the value of the digits already read. *)
Fixpoint decimal_value (d : Decimal.uint) (acc : Z) : Z :=
  match d with
  | Decimal.Nil => acc
  | Decimal.D0 d => decimal_value d (10 * acc)
  | Decimal.D1 d => decimal_value d (10 * acc + 1)
  | Decimal.D2 d => decimal_value d (10 * acc + 2)
  | Decimal.D3 d => decimal_value d (10 * acc + 3)
  | Decimal.D4 d => decimal_value d (10 * acc + 4)
  | Decimal.D5 d => decimal_value d (10 * acc + 5)
  | Decimal.D6 d => decimal_value d (10 * acc + 6)
  | Decimal.D7 d => decimal_value d (10 * acc + 7)
  | Decimal.D8 d => decimal_value d (10 * acc + 8)
  | Decimal.D9 d => decimal_value d (10 * acc + 9)
  end.

(* ================================================================== *)
(** * The Telegram handlers of [main.py] that call the checker *)
(* ================================================================== *)

Module Main.

Definition MAX_PROXIES_PER_BATCH : nat := 10.

(** What a handler does with an update whose sender is known. *)
Inductive handled :=
| Help                               (* the usage text is sent *)
| Rejected                           (* the format reminder is sent *)
| Single (proxy_str : string)        (* [process_single_proxy] is awaited *)
| Multiple (proxies : list string)   (* [process_multiple_proxies] is awaited *)
| Raises (e : exn).                  (* the handler raises *)

(** The line feed, the separator of [text.split("\n")]. *)
Definition LF : ascii := "010"%char.

(** [[p.strip() for p in text.split("\n") if p.strip()]]. *)
Definition stripped_lines (text : string) : list string :=
  map Py.strip
    (filter (fun p => match Py.strip p with
                      | EmptyString => false
                      | _ => true
                      end)
       (Py.split LF text)).

(** [proxies[0]] on an empty list. *)
Definition EXC_INDEX : exn :=
  {| exc_type := OtherException "IndexError";
     exc_msg := "list index out of range" |}.

(** [pchk_command], from the test of [context.args] on. *)
Definition pchk_command (args : list string) : handled :=
  match args with
  | [] => Help
  | _ =>
      let proxy := Py.join " " args in
      let proxies := stripped_lines proxy in
      if (1 <? length proxies)%nat then Multiple proxies
      else match proxies with
           | p :: _ => Single p
           | [] => Raises EXC_INDEX
           end
  end.

(** The test of [proxy_message] on a line:
    [":" in line and len(line.split(":")) in [2, 4]]. *)
Definition looks_like_proxy (line : string) : bool :=
  Py.has_char ":" line
  && (let n := length (Py.split ":" line) in (n =? 2)%nat || (n =? 4)%nat).

(** [proxy_message], from the text of the message on. *)
Definition proxy_message (text : string) : handled :=
  let lines := stripped_lines text in
  let valid_proxies := filter looks_like_proxy lines in
  match valid_proxies with
  | [] => Rejected
  | p :: _ =>
      if (1 <? length valid_proxies)%nat then Multiple valid_proxies
      else Single p
  end.

(** The endpoints a handler passes on. *)
Definition forwarded (h : handled) : list string :=
  match h with
  | Single p => [p]
  | Multiple ps => ps
  | Help | Rejected | Raises _ => []
  end.

(** [process_multiple_proxies], up to the return of the orchestrator: the
    list it keeps, and what [check_multiple_proxies] does with it. *)
Definition process_multiple_proxies (bw : batch_world)
  (proxies : list string) (username : string)
  : list string * (list sched_event * (list entry + exn)) :=
  let proxies :=
    if (MAX_PROXIES_PER_BATCH <? length proxies)%nat
    then firstn MAX_PROXIES_PER_BATCH proxies
    else proxies in
  (proxies, check_multiple_proxies bw proxies (Some username)).

End Main.

(** A string without blank characters. *)
Fixpoint no_blank (s : string) : bool :=
  match s with
  | EmptyString => true
  | String c rest => negb (Py.isspace c) && no_blank rest
  end.

(** An element of the result of [text.split()]: not empty, no blank. *)
Definition is_word (s : string) : bool :=
  match s with
  | EmptyString => false
  | _ => no_blank s
  end.
(* ================================================================== *)
(** * Properties of the parser and validator *)
(* ================================================================== *)

Lemma split_not_nil (sep : ascii) (s : string) : Py.split sep s <> [].
Proof.
  induction s as [|c rest IH]; simpl; [discriminate|].
  destruct (Ascii.eqb c sep); [discriminate|].
  destruct (Py.split sep rest); discriminate.
Qed.

Lemma validate_in_range (host : string) (port : Z) :
  _validate_ip_port host port
  = if (1 <=? port) && (port <=? 65535) then None else Some MSG_PORT_RANGE.
Proof.
  unfold _validate_ip_port.
  destruct (port <? 1) eqn:Hlo, (port >? 65535) eqn:Hhi,
           (1 <=? port) eqn:Hlo', (port <=? 65535) eqn:Hhi';
    simpl; try reflexivity; lia.
Qed.

Ltac by_fields proxy_str :=
  unfold _parse_proxy_string;
  destruct (Py.split ":" proxy_str) as [|a [|b [|c [|d [|e l]]]]];
  simpl in *.

Lemma parse_format_error_iff (proxy_str : string) :
  _parse_proxy_string proxy_str = inr MSG_INVALID_FORMAT
  <-> length (Py.split ":"%char proxy_str) <> 2%nat
      /\ length (Py.split ":"%char proxy_str) <> 4%nat.
Proof.
  by_fields proxy_str; try destruct (Py.int b);
    (split; [intros H; try discriminate H; lia | intros [H2 H4]]);
    try reflexivity; lia.
Qed.

Lemma parse_port_error_iff (proxy_str : string) :
  _parse_proxy_string proxy_str = inr MSG_INVALID_PORT
  <-> (length (Py.split ":"%char proxy_str) = 2%nat
       \/ length (Py.split ":"%char proxy_str) = 4%nat)
      /\ Py.int (nth 1 (Py.split ":"%char proxy_str) EmptyString) = None.
Proof.
  by_fields proxy_str; try destruct (Py.int b);
    (split; [intros H; try discriminate H; auto
            | intros [[H|H] Hint]; try discriminate; try lia; auto]).
Qed.

Lemma parse_success_iff (proxy_str : string) (port : Z) :
  let fields := Py.split ":"%char proxy_str in
  _parse_proxy_string proxy_str
  = inl (nth 0 fields EmptyString, port,
         if (length fields =? 2)%nat then None
         else Some {| login := nth 2 fields EmptyString;
                      password := nth 3 fields EmptyString |})
  <-> (length fields = 2%nat \/ length fields = 4%nat)
      /\ Py.int (nth 1 fields EmptyString) = Some port.
Proof.
  cbv zeta.
  by_fields proxy_str; try destruct (Py.int b);
    (split; [intros H; try discriminate H; inversion H; auto
            | intros [[H|H] Hint]; try discriminate; try lia;
              inversion Hint; auto]).
Qed.

Lemma split_free (sep : ascii) (s : string) :
  Py.has_char sep s = false -> Py.split sep s = [s].
Proof.
  induction s as [|c rest IH]; simpl; [reflexivity|].
  destruct (Ascii.eqb c sep); simpl; [discriminate|].
  intros H. now rewrite (IH H).
Qed.

Lemma split_at_sep (sep : ascii) (a b : string) :
  Py.has_char sep a = false ->
  Py.split sep (a ++ String sep b) = a :: Py.split sep b.
Proof.
  induction a as [|c rest IH]; simpl.
  - intros _. now rewrite Ascii.eqb_refl.
  - destruct (Ascii.eqb c sep); simpl; [discriminate|].
    intros H. now rewrite (IH H).
Qed.

(** The parser on a string written with its colons: the outcome by the
    number of colons, the fields being free of them. *)
Lemma parse_by_colons (host port_str user pass : string) :
  Py.has_char ":" host = false ->
  Py.has_char ":" port_str = false ->
  Py.has_char ":" user = false ->
  Py.has_char ":" pass = false ->
  _parse_proxy_string host = inr MSG_INVALID_FORMAT
  /\ _parse_proxy_string (host ++ ":" ++ port_str)
     = match Py.int port_str with
       | Some port => inl (host, port, None)
       | None => inr MSG_INVALID_PORT
       end
  /\ _parse_proxy_string (host ++ ":" ++ port_str ++ ":" ++ user)
     = inr MSG_INVALID_FORMAT
  /\ _parse_proxy_string (host ++ ":" ++ port_str ++ ":" ++ user ++ ":" ++ pass)
     = match Py.int port_str with
       | Some port =>
           inl (host, port, Some {| login := user; password := pass |})
       | None => inr MSG_INVALID_PORT
       end
  /\ (forall more,
        _parse_proxy_string
          (host ++ ":" ++ port_str ++ ":" ++ user ++ ":" ++ pass ++ ":" ++ more)
        = inr MSG_INVALID_FORMAT).
Proof.
  intros Hh Hp Hu Hw. unfold _parse_proxy_string.
  change (":" ++ ?x) with (String ":" x).
  repeat split.
  - now rewrite (split_free _ _ Hh).
  - simpl (":" ++ _).
    rewrite (split_at_sep _ _ _ Hh), (split_free _ _ Hp).
    now destruct (Py.int port_str).
  - simpl (":" ++ _).
    rewrite (split_at_sep _ _ _ Hh). simpl (":" ++ _).
    rewrite (split_at_sep _ _ _ Hp), (split_free _ _ Hu). reflexivity.
  - simpl (":" ++ _).
    rewrite (split_at_sep _ _ _ Hh). simpl (":" ++ _).
    rewrite (split_at_sep _ _ _ Hp). simpl (":" ++ _).
    rewrite (split_at_sep _ _ _ Hu), (split_free _ _ Hw).
    now destruct (Py.int port_str).
  - intros more. simpl (":" ++ _).
    rewrite (split_at_sep _ _ _ Hh). simpl (":" ++ _).
    rewrite (split_at_sep _ _ _ Hp). simpl (":" ++ _).
    rewrite (split_at_sep _ _ _ Hu). simpl (":" ++ _).
    rewrite (split_at_sep _ _ _ Hw).
    pose proof (split_not_nil ":" more) as Hne.
    destruct (Py.split ":" more); [congruence|reflexivity].
Qed.

(** C5.  The parser cuts the string at every colon.  The format is accepted
    exactly for two or four fields; with an accepted format the outcome is
    decided by [int()] on the second field alone: a numeric-format error
    when it raises, otherwise the endpoint with the first field as host,
    untouched, and credentials exactly in the four-field form.  The
    validator rejects exactly the ports outside 1..65535, whatever the
    host.  A string refused by either step ends the check with that message
    and with no network operation started.  The same is said on the
    strings written with their colons, then on the examples of the
    specification and on the limits of each rule, with the text of each
    message. *)
Theorem parser_contract (proxy_str : string) :
  let fields := Py.split ":"%char proxy_str in
  let n := length fields in
  let host := nth 0 fields EmptyString in
  let port_str := nth 1 fields EmptyString in
  let auth :=
    if (n =? 2)%nat then None
    else Some {| login := nth 2 fields EmptyString;
                 password := nth 3 fields EmptyString |} in
  let format_error :=
    "Invalid proxy format. Use 'ip:port' or 'ip:port:username:password'" in
  let port_error := "Invalid port number. Must be an integer." in
  let range_error :=
    "Invalid port number. Port must be between 1 and 65535." in
  (_parse_proxy_string proxy_str = inr MSG_INVALID_FORMAT
   <-> n <> 2%nat /\ n <> 4%nat)
  /\ (_parse_proxy_string proxy_str = inr MSG_INVALID_PORT
      <-> (n = 2%nat \/ n = 4%nat) /\ Py.int port_str = None)
  /\ (forall port,
        _parse_proxy_string proxy_str = inl (host, port, auth)
        <-> (n = 2%nat \/ n = 4%nat) /\ Py.int port_str = Some port)
  /\ (forall h port,
        _validate_ip_port h port = None <-> 1 <= port <= 65535)
  /\ (forall h port,
        _validate_ip_port h port = Some MSG_PORT_RANGE
        <-> port < 1 \/ 65535 < port)
  /\ (forall w username msg,
        _parse_proxy_string proxy_str = inr msg ->
        ProxyChecker.check_proxy w proxy_str username
        = ([], inl (Message msg)))
  /\ (forall w username h port a msg,
        _parse_proxy_string proxy_str = inl (h, port, a) ->
        _validate_ip_port h port = Some msg ->
        ProxyChecker.check_proxy w proxy_str username
        = ([], inl (Message msg)))
  /\ (forall h p u pw,
        Py.has_char ":" h = false -> Py.has_char ":" p = false ->
        Py.has_char ":" u = false -> Py.has_char ":" pw = false ->
        _parse_proxy_string h = inr format_error
        /\ _parse_proxy_string (h ++ ":" ++ p)
           = match Py.int p with
             | Some port => inl (h, port, None)
             | None => inr port_error
             end
        /\ _parse_proxy_string (h ++ ":" ++ p ++ ":" ++ u) = inr format_error
        /\ _parse_proxy_string (h ++ ":" ++ p ++ ":" ++ u ++ ":" ++ pw)
           = match Py.int p with
             | Some port =>
                 inl (h, port, Some {| login := u; password := pw |})
             | None => inr port_error
             end
        /\ (forall more,
              _parse_proxy_string
                (h ++ ":" ++ p ++ ":" ++ u ++ ":" ++ pw ++ ":" ++ more)
              = inr format_error))
  /\ _parse_proxy_string "1.2.3.4" = inr format_error
  /\ _parse_proxy_string "" = inr format_error
  /\ _parse_proxy_string "1.2.3.4:8080:user" = inr format_error
  /\ _parse_proxy_string "1.2.3.4:8080:user:pass:more" = inr format_error
  /\ _parse_proxy_string "1.2.3.4:abc" = inr port_error
  /\ _parse_proxy_string "1.2.3.4:" = inr port_error
  /\ _parse_proxy_string "1.2.3.4:80.0" = inr port_error
  /\ _parse_proxy_string "1.2.3.4:0x50" = inr port_error
  /\ _parse_proxy_string "1.2.3.4:80a" = inr port_error
  /\ _parse_proxy_string "1.2.3.4:abc:user:pass" = inr port_error
  /\ _parse_proxy_string ("1.2.3.4:" ++ String (ascii_of_nat 28) "80")
     = inr port_error
  /\ _parse_proxy_string "1.2.3.4:8080" = inl ("1.2.3.4", 8080, None)
  /\ _validate_ip_port "1.2.3.4" 8080 = None
  /\ _parse_proxy_string "1.2.3.4:8080:user:pass"
     = inl ("1.2.3.4", 8080, Some {| login := "user"; password := "pass" |})
  /\ _parse_proxy_string "::u:p" = inr port_error
  /\ _parse_proxy_string "not an address!:3128"
     = inl ("not an address!", 3128, None)
  /\ _validate_ip_port "not an address!" 3128 = None
  /\ _parse_proxy_string "1.2.3.4:99999" = inl ("1.2.3.4", 99999, None)
  /\ _validate_ip_port "1.2.3.4" 99999 = Some range_error
  /\ _parse_proxy_string "1.2.3.4:0" = inl ("1.2.3.4", 0, None)
  /\ _validate_ip_port "1.2.3.4" 0 = Some range_error
  /\ _parse_proxy_string "1.2.3.4:-1" = inl ("1.2.3.4", -1, None)
  /\ _validate_ip_port "1.2.3.4" (-1) = Some range_error
  /\ _validate_ip_port "1.2.3.4" 1 = None
  /\ _validate_ip_port "1.2.3.4" 65535 = None
  /\ _validate_ip_port "1.2.3.4" 65536 = Some range_error
  /\ (forall w username,
        ProxyChecker.check_proxy w "1.2.3.4" username
        = ([], inl (Message format_error))
        /\ ProxyChecker.check_proxy w "1.2.3.4:abc" username
           = ([], inl (Message port_error))
        /\ ProxyChecker.check_proxy w "1.2.3.4:99999" username
           = ([], inl (Message range_error))).
Proof.
  cbv zeta.
  split; [apply parse_format_error_iff|].
  split; [apply parse_port_error_iff|].
  split; [intros port; apply (parse_success_iff proxy_str port)|].
  split.
  { intros h port. rewrite validate_in_range.
    destruct (1 <=? port) eqn:Hlo, (port <=? 65535) eqn:Hhi; simpl;
      (split; [intros H; try discriminate H; lia | intros H; try reflexivity; lia]). }
  split.
  { intros h port. rewrite validate_in_range.
    destruct (1 <=? port) eqn:Hlo, (port <=? 65535) eqn:Hhi; simpl;
      (split; [intros H; try discriminate H; lia | intros H; try reflexivity; lia]). }
  split.
  { intros w username msg H.
    unfold ProxyChecker.check_proxy. rewrite H. reflexivity. }
  split.
  { intros w username h port a msg H Hv.
    unfold ProxyChecker.check_proxy. rewrite H, Hv. reflexivity. }
  split.
  { intros h p u pw Hh Hp Hu Hw.
    exact (parse_by_colons h p u pw Hh Hp Hu Hw). }
  repeat match goal with
         | |- _ /\ _ => split; [vm_compute; reflexivity|]
         end.
  intros w username. repeat split.
Qed.

(** C10.  The port field goes through [int()] and nothing else: a string
    [host:port_str] is parsed to the port [n] as soon as [int(port_str)]
    is [n].  [int()] takes more than plain digit strings: blanks around
    the number, an explicit sign and single underscores between digits are
    accepted, so each of the three spellings below is parsed as port 80,
    which passes validation.  So are the decimal digits of other scripts
    and the blanks outside ASCII; the separators 0x1C to 0x1F, which
    [str.strip()] removes, are not blanks for [int()], and neither a
    doubled, leading or trailing underscore nor a blank after the sign is
    accepted. *)
Theorem port_accepts_int_spellings :
  (forall host port_str port,
     Py.has_char ":" host = false ->
     Py.has_char ":" port_str = false ->
     Py.int port_str = Some port ->
     _parse_proxy_string (host ++ ":" ++ port_str) = inl (host, port, None))
  /\ Py.int " 80 " = Some 80
  /\ Py.int "+80" = Some 80
  /\ Py.int "8_0" = Some 80
  /\ _parse_proxy_string "host: 80 " = inl ("host", 80, None)
  /\ _parse_proxy_string "host:+80" = inl ("host", 80, None)
  /\ _parse_proxy_string "host:8_0" = inl ("host", 80, None)
  /\ _validate_ip_port "host" 80 = None
  /\ _parse_proxy_string "host:80" = inl ("host", 80, None)
  /\ _parse_proxy_string "host:0080" = inl ("host", 80, None)
  /\ _parse_proxy_string "host:-80" = inl ("host", -80, None)
  /\ _parse_proxy_string "host:٨٠" = inl ("host", 80, None)
  /\ _parse_proxy_string "host:８０" = inl ("host", 80, None)
  /\ _parse_proxy_string
       ("host:" ++ String (ascii_of_nat 194) (String (ascii_of_nat 160) "80"))
     = inl ("host", 80, None)
  /\ _parse_proxy_string
       ("host:" ++ String (ascii_of_nat 9) "80" ++ String (ascii_of_nat 10) "")
     = inl ("host", 80, None)
  /\ _parse_proxy_string ("host:" ++ String (ascii_of_nat 28) "80")
     = inr MSG_INVALID_PORT
  /\ _parse_proxy_string ("host:80" ++ String (ascii_of_nat 31) "")
     = inr MSG_INVALID_PORT
  /\ _parse_proxy_string "host:8__0" = inr MSG_INVALID_PORT
  /\ _parse_proxy_string "host:_80" = inr MSG_INVALID_PORT
  /\ _parse_proxy_string "host:80_" = inr MSG_INVALID_PORT
  /\ _parse_proxy_string "host:+ 80" = inr MSG_INVALID_PORT
  /\ _parse_proxy_string "host:++80" = inr MSG_INVALID_PORT
  /\ _parse_proxy_string "host:8 0" = inr MSG_INVALID_PORT
  /\ _parse_proxy_string "host:+" = inr MSG_INVALID_PORT
  /\ _parse_proxy_string "host: " = inr MSG_INVALID_PORT.
Proof.
  split; [|repeat split; vm_compute; reflexivity].
  intros host port_str port Hhost Hport Hint.
  unfold _parse_proxy_string. simpl (":" ++ port_str).
  rewrite (split_at_sep _ _ _ Hhost), (split_free _ _ Hport), Hint.
  reflexivity.
Qed.

(* ================================================================== *)
(** * Properties of the per-candidate probe *)
(* ================================================================== *)

Lemma enrich_anonymity_working (v : pyval) (r : probe_result) :
  working (enrich_anonymity v r) = working r.
Proof.
  unfold enrich_anonymity.
  destruct v as [| | | | |d]; try reflexivity.
  destruct (match dict_get d "headers" with Some h => h | None => PyDict [] end);
    try reflexivity.
  repeat match goal with |- context [if ?b then _ else _] => destruct b end;
    reflexivity.
Qed.

Lemma enrich_working (v : pyval) (r : probe_result) :
  working (enrich v r) = working r.
Proof.
  unfold enrich.
  destruct (py_in "origin" v) as [[|]|]; try reflexivity.
  - destruct v as [| | | | |d]; try reflexivity.
    destruct (dict_get d "origin") as [[| | |s| |]|]; try reflexivity.
    now rewrite enrich_anonymity_working.
  - destruct (py_in "query" v) as [[|]|]; try reflexivity.
    + destruct v as [| | | | |d]; try reflexivity.
      destruct (dict_get d "query"); try reflexivity.
      now rewrite enrich_anonymity_working.
    + now rewrite enrich_anonymity_working.
Qed.

Lemma outer_handler_working (e : exn) (r r' : probe_result) :
  outer_handler e r = inl r' -> working r' = working r.
Proof.
  unfold outer_handler. destruct (isinstance e Exception); [|discriminate].
  intros H; inversion H; reflexivity.
Qed.

Lemma request_handlers_working (e : exn) (r r' : probe_result) :
  request_handlers e r = inl r' -> working r' = working r.
Proof.
  unfold request_handlers.
  repeat match goal with
         | |- context [if isinstance e ?c then _ else _] =>
             destruct (isinstance e c)
         end;
    try (intros H; inversion H; reflexivity).
  apply outer_handler_working.
Qed.

(** The verdict of a probe that returns: it is "working" exactly when a
    response arrived and its status code is below 500. *)
Lemma probe_working_iff (run : probe_run) (proxy test_url protocol : string)
  (r : probe_result) :
  _test_proxy run proxy test_url protocol = inl r ->
  (truthy (working r) = true
   <-> session_error run = None
       /\ exists elapsed resp,
            request run = Responded elapsed resp /\ resp_status resp < 500).
Proof.
  unfold _test_proxy. destruct run as [se rq]; simpl.
  destruct se as [e|].
  - intros H. apply outer_handler_working in H. simpl in H.
    rewrite H; simpl. split; [discriminate|]. intros [Hn _]; discriminate.
  - destruct rq as [elapsed resp|e].
    + destruct (resp_status resp <? 500) eqn:Hs.
      * apply Z.ltb_lt in Hs.
        assert (Hgoal : forall r0 : probe_result,
                   working r0 = PyBool true ->
                   (truthy (working r0) = true <->
                    None = None (A:=exn) /\
                    (exists (elapsed0 : Z) (resp0 : response),
                        Responded elapsed resp = Responded elapsed0 resp0 /\
                        resp_status resp0 < 500))).
        { intros r0 Hw. rewrite Hw; simpl. split; [|reflexivity].
          intros _. split; [reflexivity|]. exists elapsed, resp. now split. }
        destruct (Py.contains "application/json" (resp_content_type resp)).
        -- destruct (resp_body resp) as [v|e].
           ++ intros H; inversion H; subst. apply Hgoal.
              now rewrite enrich_working.
           ++ destruct (isinstance e TimeoutError);
                [intros H; inversion H; subst; now apply Hgoal|].
              destruct (isinstance e Exception);
                [intros H; inversion H; subst; now apply Hgoal|].
              intros H. apply request_handlers_working in H.
              now apply Hgoal.
        -- intros H; inversion H; subst. now apply Hgoal.
      * apply Z.ltb_ge in Hs.
        intros H; inversion H; subst; simpl.
        split; [discriminate|].
        intros [_ (el & rs & Heq & Hlt)]. inversion Heq; subst. lia.
    + destruct (isinstance e TimeoutError).
      * intros H; inversion H; subst; simpl.
        split; [discriminate|]. intros [_ (el & rs & Heq & _)]; discriminate.
      * intros H. apply request_handlers_working in H. simpl in H.
        rewrite H; simpl.
        split; [discriminate|]. intros [_ (el & rs & Heq & _)]; discriminate.
Qed.

(** A response with status 500 or more is reported with its code. *)
Lemma probe_server_error (elapsed : Z) (resp : response)
  (proxy test_url protocol : string) :
  500 <= resp_status resp ->
  _test_proxy {| session_error := None; request := Responded elapsed resp |}
    proxy test_url protocol
  = inl {| protocol := protocol; working := PyBool false;
           status := "❌ HTTP " ++ Py.str_of_int (resp_status resp);
           time := elapsed; ip := None; anonymity := None |}.
Proof.
  intros H. unfold _test_proxy; simpl.
  destruct (resp_status resp <? 500) eqn:Hs; [apply Z.ltb_lt in Hs; lia|].
  reflexivity.
Qed.

(** The transport failures that do get a status text of their own. *)
Lemma probe_failure_texts (proxy test_url protocol msg : string) :
  _test_proxy (raising TimeoutError msg) proxy test_url protocol
  = failed_with protocol "❌ Request Timeout"
  /\ _test_proxy (raising ClientConnectorError msg) proxy test_url protocol
     = failed_with protocol "❌ Connection Failed"
  /\ _test_proxy (raising ClientProxyConnectionError msg) proxy test_url protocol
     = failed_with protocol "❌ Proxy Connection Error"
  /\ _test_proxy (raising ClientError msg) proxy test_url protocol
     = failed_with protocol "❌ Client Error"
  /\ _test_proxy (raising CancelledError msg) proxy test_url protocol
     = failed_with protocol "❌ Request Cancelled".
Proof. repeat split; reflexivity. Qed.

(** C6.  A TLS failure of the request ([ClientSSLError] and its two
    subclasses) is a [ClientConnectorError], whose handler comes first: the
    probe reports "not working" with the text of a failed connection, the
    same result as for a refused connection, and never with the SSL text. *)
Theorem tls_error_reported_as_connection_failed
  (proxy test_url protocol msg : string) :
  let refused :=
    _test_proxy (raising ClientConnectorError msg) proxy test_url protocol in
  refused = failed_with protocol "❌ Connection Failed"
  /\ _test_proxy (raising ClientSSLError msg) proxy test_url protocol
     = refused
  /\ _test_proxy (raising ClientConnectorSSLError msg) proxy test_url protocol
     = refused
  /\ _test_proxy (raising ClientConnectorCertificateError msg)
       proxy test_url protocol
     = refused
  /\ forall c r,
       _test_proxy (raising c msg) proxy test_url protocol = inl r ->
       status r <> "❌ SSL Error".
Proof.
  cbv zeta. repeat split.
  intros c r.
  destruct c; intros H; vm_compute in H; inversion H; discriminate.
Qed.

(* ================================================================== *)
(** * Properties of the fallback tester *)
(* ================================================================== *)

Lemma last_cons {A : Type} (x d : A) (l : list A) :
  last (x :: l) d = last l x.
Proof.
  revert x d. induction l as [|y l IH]; intros x d; [reflexivity|].
  change (last (x :: y :: l) d) with (last (y :: l) d).
  now rewrite !IH.
Qed.

Lemma returned_app (l1 l2 : list (probe_result + exn)) :
  returned (l1 ++ l2) = (returned l1 ++ returned l2)%list.
Proof.
  induction l1 as [|[r|e] l1 IH]; simpl; congruence.
Qed.

(** The scan walks over quiet results, remembering the last dictionary. *)
Lemma scan_results_quiet (pre rest : list (probe_result + exn))
  (last_result : probe_result) :
  Forall quiet pre ->
  scan_results (pre ++ rest) last_result
  = scan_results rest (last (returned pre) last_result).
Proof.
  intros H. revert last_result.
  induction H as [|o pre Ho Hpre IH]; intros last_result; [reflexivity|].
  destruct o as [r|e]; cbn [scan_results app returned quiet] in *.
  - rewrite Ho, IH. now rewrite last_cons.
  - rewrite Ho. apply IH.
Qed.

Lemma gather_finish_upper (tasks : list candidate) :
  Forall (fun c => finish c <= gather_finish tasks) tasks.
Proof.
  induction tasks as [|c tasks IH]; constructor.
  - unfold gather_finish; simpl. lia.
  - eapply Forall_impl; [|exact IH].
    intros a Ha. unfold gather_finish in *; simpl. lia.
Qed.

Lemma gather_finish_nonneg (tasks : list candidate) : 0 <= gather_finish tasks.
Proof.
  induction tasks as [|c tasks IH]; unfold gather_finish in *; simpl; lia.
Qed.

(** C1, as the code has it.  When every candidate completes before the
    per-protocol timeout, the tester returns the result of the first
    candidate, in the order of [test_urls], that reports "working" (the
    candidates listed before it having returned "not working" or raised an
    [Exception]); it returns at the instant the slowest candidate
    completes, so no candidate is still running then. *)
Theorem first_working_in_list_order
  (probe : string -> string -> string -> candidate)
  (proxy : string) (test_urls : list string) (protocol : string)
  (before : list string) (url : string) (after : list string)
  (result : probe_result) :
  let tasks := map (fun u => probe proxy u protocol) test_urls in
  test_urls = (before ++ url :: after)%list ->
  gather_finish tasks < PROTOCOL_TIMEOUT ->
  Forall (fun u => quiet (outcome (probe proxy u protocol))) before ->
  outcome (probe proxy url protocol) = inl result ->
  truthy (working result) = true ->
  _test_proxy_with_fallbacks probe proxy test_urls protocol
  = (gather_finish tasks, inl result)
  /\ Forall (fun c => finish c <= gather_finish tasks) tasks.
Proof.
  intros tasks Hurls Hfast Hbefore Hout Hwork.
  split; [|apply gather_finish_upper].
  unfold _test_proxy_with_fallbacks. fold tasks.
  apply Z.ltb_lt in Hfast. rewrite Hfast. f_equal.
  unfold tasks. rewrite Hurls, !map_app. simpl.
  rewrite scan_results_quiet.
  - simpl. rewrite Hout, Hwork. reflexivity.
  - rewrite map_map. apply Forall_map. exact Hbefore.
Qed.

(** C7, as the code has it.  When every candidate completes before the
    per-protocol timeout and none reports "working" (each returned "not
    working" or raised an [Exception]), the tester returns the dictionary
    of the candidate that comes last in the order of [test_urls] among
    those that returned one, whatever the order of completion, and the
    default "not working" result when every candidate raised. *)
Theorem none_working_last_in_list_order
  (probe : string -> string -> string -> candidate)
  (proxy : string) (test_urls : list string) (protocol : string) :
  let tasks := map (fun u => probe proxy u protocol) test_urls in
  gather_finish tasks < PROTOCOL_TIMEOUT ->
  Forall (fun c => quiet (outcome c)) tasks ->
  _test_proxy_with_fallbacks probe proxy test_urls protocol
  = (gather_finish tasks,
     inl (last (returned (map outcome tasks)) (default_result protocol))).
Proof.
  intros tasks Hfast Hquiet.
  unfold _test_proxy_with_fallbacks. fold tasks.
  apply Z.ltb_lt in Hfast. rewrite Hfast. f_equal.
  rewrite <- (app_nil_r (map outcome tasks)) at 1.
  rewrite scan_results_quiet; [reflexivity|].
  apply Forall_map. exact Hquiet.
Qed.

Lemma first_working_in_list_order_witness :
  _test_proxy_with_fallbacks (test_proxy_task sample_world)
    "http://5.6.7.8:3128" HTTP_URLS "HTTP"
  = (900,
     inl {| protocol := "HTTP"; working := PyBool true;
            status := "✅ Working (0.90s)"; time := 900;
            ip := None; anonymity := None |}).
Proof.
  refine (proj1 (first_working_in_list_order (test_proxy_task sample_world)
                   "http://5.6.7.8:3128" HTTP_URLS "HTTP"
                   ["http://httpbin.org/get"; "http://ip-api.com/json"]
                   "http://example.com" [] _ _ _ _ _ _)).
  - reflexivity.
  - reflexivity.
  - repeat constructor.
  - reflexivity.
  - reflexivity.
Defined.

(** C1 as stated fails on the scenario of the specification.  Through an
    HTTP proxy, ip-api succeeds after 1 s while httpbin succeeds after 10 s
    and example.com fails after 12 s: the race of the specification yields
    the result of ip-api at 1 s, the code yields the result of httpbin, the
    first working entry of the list, at 12 s. *)
Lemma race_is_not_first_completion :
  let probe := test_proxy_task sample_world in
  let tasks :=
    map (fun u => probe "http://1.2.3.4:8080" u "HTTP") HTTP_URLS in
  spec_race tasks
  = Some (1000,
          inl {| protocol := "HTTP"; working := PyBool true;
                 status := "✅ Working (1.00s)"; time := 1000;
                 ip := None; anonymity := None |})
  /\ _test_proxy_with_fallbacks probe "http://1.2.3.4:8080" HTTP_URLS "HTTP"
     = (12000,
        inl {| protocol := "HTTP"; working := PyBool true;
               status := "✅ Working (10.00s)"; time := 10000;
               ip := None; anonymity := None |})
  /\ spec_race tasks
     <> Some (_test_proxy_with_fallbacks probe "http://1.2.3.4:8080"
                HTTP_URLS "HTTP").
Proof.
  cbv zeta. split; [reflexivity|]. split; [reflexivity|].
  vm_compute. discriminate.
Qed.

Lemma none_working_last_in_list_order_witness :
  _test_proxy_with_fallbacks (test_proxy_task sample_world)
    "http://1.2.3.4:8080" HTTPS_URLS "HTTPS"
  = (9000,
     inl {| protocol := "HTTPS"; working := PyBool false;
            status := "❌ Request Timeout"; time := 0;
            ip := None; anonymity := None |}).
Proof.
  refine (none_working_last_in_list_order (test_proxy_task sample_world)
            "http://1.2.3.4:8080" HTTPS_URLS "HTTPS" _ _).
  - reflexivity.
  - repeat constructor.
Defined.

(** C7 as stated fails when completion order and list order differ.  For
    HTTPS, httpbin answers 503 after 9 s, ifconfig.me is refused after 1 s
    and example.com times out after 4 s, all within the 27 s ceiling: the
    last result to complete is the 503 of httpbin, the code returns the
    timeout of example.com, the last entry of the list. *)
Lemma last_result_is_not_last_completion :
  let probe := test_proxy_task sample_world in
  let tasks :=
    map (fun u => probe "http://1.2.3.4:8080" u "HTTPS") HTTPS_URLS in
  forallb (fun c => negb (succeeded c) && (finish c <? PROTOCOL_TIMEOUT)) tasks
  = true
  /\ spec_no_success_result tasks "HTTPS"
     = inl {| protocol := "HTTPS"; working := PyBool false;
              status := "❌ HTTP 503"; time := 9000;
              ip := None; anonymity := None |}
  /\ snd (_test_proxy_with_fallbacks probe "http://1.2.3.4:8080"
            HTTPS_URLS "HTTPS")
     = inl {| protocol := "HTTPS"; working := PyBool false;
              status := "❌ Request Timeout"; time := 0;
              ip := None; anonymity := None |}
  /\ snd (_test_proxy_with_fallbacks probe "http://1.2.3.4:8080"
            HTTPS_URLS "HTTPS")
     <> spec_no_success_result tasks "HTTPS".
Proof.
  cbv zeta. repeat (split; [reflexivity|]).
  vm_compute. discriminate.
Qed.

(** When the gather is not complete at the ceiling, the handler calls
    [done()] on a coroutine object: the tester raises instead of
    returning [last_result]. *)
Lemma protocol_timeout_raises
  (probe : string -> string -> string -> candidate)
  (proxy url : string) (more : list string) (protocol : string) :
  PROTOCOL_TIMEOUT
  <= gather_finish (map (fun u => probe proxy u protocol) (url :: more)) ->
  _test_proxy_with_fallbacks probe proxy (url :: more) protocol
  = (PROTOCOL_TIMEOUT, inr EXC_NO_DONE).
Proof.
  intros H. unfold _test_proxy_with_fallbacks.
  apply Z.ltb_ge in H. rewrite H. reflexivity.
Qed.

(* ================================================================== *)
(** * Properties of the socket prober and of the validation client *)
(* ================================================================== *)

Lemma is_success_iff (v : pyval) :
  is_success v = true <-> v = PyStr "success".
Proof.
  destruct v; simpl; try (split; [discriminate|discriminate]).
  rewrite String.eqb_eq. split; congruence.
Qed.

(** C9.  When the socket probe of a well-formed endpoint fails, by a
    non-zero code or by an exception, the check returns at once the
    message that the endpoint, quoted as it was given, is not responding,
    followed by the code or by the text of the exception; the only network
    operations it started are the connection attempts of the probe: no
    RapidAPI request and no candidate probe. *)
Theorem dead_socket_ends_check (w : world) (proxy_str : string)
  (username : option string) (host : string) (port : Z)
  (auth : option BasicAuth) :
  _parse_proxy_string proxy_str = inl (host, port, auth) ->
  _validate_ip_port host port = None ->
  socket_failed (snd (_socket_connect (connect_ex w) host port)) ->
  let reason :=
    match snd (_socket_connect (connect_ex w) host port) with
    | inl code => "Connection error (code: " ++ Py.str_of_int code ++ ")"
    | inr e => "Error: " ++ exc_msg e
    end in
  ProxyChecker.check_proxy w proxy_str username
  = (map (fun a => EvConnect (fst a) host port)
       (fst (_socket_connect (connect_ex w) host port)),
     inl (Message ("❌ Proxy <code>" ++ proxy_str
                   ++ "</code> is not responding. " ++ reason)))
  /\ check_proxy w proxy_str username
     = ProxyChecker.check_proxy w proxy_str username
  /\ Forall is_connect (fst (check_proxy w proxy_str username))
  /\ (forall host' port', ~ In (EvApiPost host' port')
                             (fst (check_proxy w proxy_str username)))
  /\ (forall proxy url proto, ~ In (EvProbe proxy url proto)
                                (fst (check_proxy w proxy_str username))).
Proof.
  intros Hparse Hvalid Hfail reason.
  assert (Hconn : forall log : list (socket_family * nat),
             Forall is_connect (map (fun a => EvConnect (fst a) host port) log)).
  { intros log. apply Forall_map. apply Forall_forall. intros; exact I. }
  assert (Hrun :
    ProxyChecker.check_proxy w proxy_str username
    = (map (fun a => EvConnect (fst a) host port)
         (fst (_socket_connect (connect_ex w) host port)),
       inl (Message ("❌ Proxy <code>" ++ proxy_str
                     ++ "</code> is not responding. " ++ reason)))).
  { unfold reason, ProxyChecker.check_proxy.
    rewrite Hparse, Hvalid. unfold _check_socket_connection.
    destruct (_socket_connect (connect_ex w) host port) as [log r].
    simpl in Hfail. destruct r as [code|e]; simpl.
    - destruct (code =? 0) eqn:Hc; [apply Z.eqb_eq in Hc; contradiction|].
      reflexivity.
    - rewrite Hfail. reflexivity. }
  assert (Hsame : check_proxy w proxy_str username
                  = ProxyChecker.check_proxy w proxy_str username).
  { unfold check_proxy. rewrite Hrun. reflexivity. }
  assert (Hall : Forall is_connect (fst (check_proxy w proxy_str username))).
  { rewrite Hsame, Hrun. apply Hconn. }
  repeat split; auto.
  - intros host' port' Hin.
    rewrite Forall_forall in Hall. exact (Hall _ Hin).
  - intros proxy url proto Hin.
    rewrite Forall_forall in Hall. exact (Hall _ Hin).
Qed.

Lemma dead_socket_ends_check_witness :
  ProxyChecker.check_proxy dead_world "1.2.3.4:8080" None
  = ([EvConnect AF_INET "1.2.3.4" 8080; EvConnect AF_INET6 "1.2.3.4" 8080;
      EvConnect AF_INET "1.2.3.4" 8080],
     inl (Message ("❌ Proxy <code>1.2.3.4:8080</code> is not responding. "
                   ++ "Connection error (code: 111)")))
  /\ Forall is_connect (fst (check_proxy dead_world "1.2.3.4:8080" None)).
Proof.
  destruct (dead_socket_ends_check dead_world "1.2.3.4:8080" None
              "1.2.3.4" 8080 None eq_refl eq_refl)
    as (Hrun & _ & Hall & _).
  - simpl. discriminate.
  - split; [exact Hrun|exact Hall].
Defined.

(** The three attempts made on a closed port, and the message returned. *)
Example dead_socket_run :
  check_proxy dead_world "1.2.3.4:8080" None
  = ([EvConnect AF_INET "1.2.3.4" 8080; EvConnect AF_INET6 "1.2.3.4" 8080;
      EvConnect AF_INET "1.2.3.4" 8080],
     inl (Message ("❌ Proxy <code>1.2.3.4:8080</code> is not responding. "
                   ++ "Connection error (code: 111)"))).
Proof. reflexivity. Qed.

Lemma select_result_data_dict (d : list (string * pyval)) :
  select_result_data (PyDict d)
  = if match dict_get d "status" with
       | Some s => is_success s
       | None => false
       end
    then Some (match dict_get d "data" with
               | Some v => v
               | None => PyDict []
               end)
    else if dict_has d "isHttpProxyValid" || dict_has d "isHttpsProxyValid"
         then Some (PyDict d) else None.
Proof.
  unfold select_result_data, py_in, py_getitem, dict_has.
  destruct (dict_get d "status") as [s|]; [|reflexivity].
  destruct (is_success s); reflexivity.
Qed.

Lemma select_result_data_object (data : pyval) (rd : list (string * pyval)) :
  select_result_data data = Some (PyDict rd) -> exists d, data = PyDict d.
Proof.
  destruct data as [| | |s|l|d]; try discriminate.
  - unfold select_result_data, py_in, py_getitem.
    destruct (Py.contains "status" s); [discriminate|].
    destruct (_ || _); discriminate.
  - unfold select_result_data, py_in, py_getitem.
    destruct (existsb _ l); [discriminate|].
    destruct (_ || _); discriminate.
  - intros _. now exists d.
Qed.

Lemma select_result_data_source (d rd : list (string * pyval)) :
  select_result_data (PyDict d) = Some (PyDict rd) <-> flags_source d rd.
Proof.
  rewrite select_result_data_dict. unfold flags_source.
  destruct (dict_get d "status") as [s|] eqn:Hs.
  - destruct (is_success s) eqn:Hok.
    + apply is_success_iff in Hok. subst s.
      destruct (dict_get d "data") as [v|]; split.
      * intros H; inversion H; subst. left. split; [reflexivity|]. now left.
      * intros [[_ [H|[H _]]]|[H _]]; try congruence.
      * intros H; inversion H; subst. left. split; [reflexivity|]. now right.
      * intros [[_ [H|[_ H]]]|[H _]]; try congruence.
    + assert (Hne : Some s <> Some (PyStr "success")).
      { intros H; inversion H; subst. discriminate. }
      destruct (dict_has d "isHttpProxyValid" || dict_has d "isHttpsProxyValid")
        eqn:Hh; split.
      * intros H; inversion H; subst. right. split; [exact Hne|].
        split; [|reflexivity]. now apply orb_true_iff.
      * intros [[H _]|[_ [_ H]]]; congruence.
      * discriminate.
      * intros [[H _]|[_ [H _]]]; [congruence|].
        apply orb_true_iff in H. congruence.
  - destruct (dict_has d "isHttpProxyValid" || dict_has d "isHttpsProxyValid")
      eqn:Hh; split.
    * intros H; inversion H; subst. right. split; [discriminate|].
      split; [|reflexivity]. now apply orb_true_iff.
    * intros [[H _]|[_ [_ H]]]; congruence.
    * discriminate.
    * intros [[H _]|[_ [H _]]]; [congruence|].
      apply orb_true_iff in H. congruence.
Qed.

Lemma flags_source_nonempty (d rd : list (string * pyval)) :
  flags_source d rd -> truthy (PyDict d) = true.
Proof.
  destruct d as [|kv d]; [|reflexivity].
  unfold flags_source, dict_has; simpl.
  intros [[H _]|[_ [[H|H] _]]]; discriminate.
Qed.

Lemma handler_never_usable (e : exn) (v : api_verdict) :
  (if isinstance e Exception then UseFallback else ApiEscapes e) = v ->
  is_usable v = false
  /\ forall e', v = ApiEscapes e' -> isinstance e' Exception = false.
Proof.
  destruct (isinstance e Exception) eqn:He; intros <-; split;
    try reflexivity; try discriminate.
  intros e' H; inversion H; subst. exact He.
Qed.

Lemma usable_iff (resp : api_outcome)
  (http https socks4 socks5 : probe_result) :
  rapidapi_verdict resp = Usable http https socks4 socks5
  <-> exists elapsed status d rd,
        resp = ApiResponded elapsed status (BodyJson (PyDict d))
        /\ 200 <= status < 500
        /\ flags_source d rd
        /\ http = api_protocol_result rd "HTTP" "isHttpProxyValid" elapsed
        /\ https = api_protocol_result rd "HTTPS" "isHttpsProxyValid" elapsed
        /\ socks4
           = api_protocol_result rd "SOCKS4" "isSocks4ProxyValid" elapsed
        /\ socks5
           = api_protocol_result rd "SOCKS5" "isSocks5ProxyValid" elapsed.
Proof.
  split.
  - unfold rapidapi_verdict.
    destruct resp as [e|e|elapsed status body].
    { intros H. apply handler_never_usable in H. destruct H; discriminate. }
    { intros H. apply handler_never_usable in H. destruct H; discriminate. }
    destruct ((200 <=? status) && (status <? 500)) eqn:Hrange;
      [|discriminate].
    apply andb_true_iff in Hrange. destruct Hrange as [Hlo Hhi].
    apply Z.leb_le in Hlo. apply Z.ltb_lt in Hhi.
    destruct body as [data|e].
    2:{ intros H. apply handler_never_usable in H. destruct H; discriminate. }
    destruct (truthy data); [|discriminate].
    destruct (select_result_data data) as [[| | | | |rd]|] eqn:Hsel;
      try discriminate.
    destruct (select_result_data_object _ _ Hsel) as [d ->].
    intros H; inversion H; subst.
    exists elapsed, status, d, rd.
    repeat split; try assumption.
    now apply select_result_data_source.
  - intros (elapsed & status & d & rd & -> & [Hlo Hhi] & Hsrc
            & -> & -> & -> & ->).
    unfold rapidapi_verdict.
    apply Z.leb_le in Hlo. apply Z.ltb_lt in Hhi. rewrite Hlo, Hhi.
    cbn [andb]. rewrite (flags_source_nonempty _ _ Hsrc).
    apply select_result_data_source in Hsrc. rewrite Hsrc. reflexivity.
Qed.




(** The fallback part starts one probe per candidate URL of each of the
    four protocols. *)
Lemma fallback_launches_all_probes (w : world) (proxy_str host : string)
  (port : Z) (auth : option BasicAuth) (connection_time : Z)
  (username : option string) :
  length (fst (manual_testing w proxy_str host port auth connection_time
                 username))
  = FALLBACK_PROBES.
Proof.
  unfold manual_testing.
  repeat match goal with
         | |- context [match ?x with _ => _ end] => destruct x
         end; reflexivity.
Qed.

(** A whole check through the fallback: one connection attempt, the
    RapidAPI request, twelve candidate probes, and a report whose only
    working protocol is HTTP. *)
Example fallback_run :
  let r := check_proxy sample_world "1.2.3.4:8080" (Some "alice") in
  length (fst r) = 14%nat
  /\ exists rep,
       snd r = inl (Rendered rep)
       /\ working_protocols rep = ["HTTP"]
       /\ status (rep_http rep) = "✅ Working (10.00s)"
       /\ status (rep_https rep) = "❌ Request Timeout"
       /\ status (rep_socks4 rep) = "❌ Error: ValueError".
Proof.
  cbv zeta. split; [reflexivity|].
  eexists. split; [vm_compute; reflexivity|].
  repeat split; reflexivity.
Qed.

(** An unusable answer of RapidAPI is not reported: the check goes on with
    the candidate probes of the four protocols. *)
Lemma unusable_api_falls_back (w : world) (proxy_str : string)
  (username : option string) (host : string) (port : Z)
  (auth : option BasicAuth) :
  _parse_proxy_string proxy_str = inl (host, port, auth) ->
  _validate_ip_port host port = None ->
  snd (_socket_connect (connect_ex w) host port) = inl 0 ->
  rapidapi_verdict (api_post w host port auth) = UseFallback ->
  ProxyChecker.check_proxy w proxy_str username
  = ((map (fun a => EvConnect (fst a) host port)
        (fst (_socket_connect (connect_ex w) host port))
      ++ (if api_requested (api_post w host port auth)
          then [EvApiPost host port] else [])
      ++ fst (manual_testing w proxy_str host port auth (connect_elapsed w)
                username))%list,
     snd (manual_testing w proxy_str host port auth (connect_elapsed w)
            username)).
Proof.
  intros Hparse Hvalid Hsock Hapi.
  unfold ProxyChecker.check_proxy.
  rewrite Hparse, Hvalid. unfold _check_socket_connection.
  destruct (_socket_connect (connect_ex w) host port) as [log r].
  simpl in Hsock. subst r. simpl. rewrite Hapi.
  destruct (manual_testing w proxy_str host port auth (connect_elapsed w)
              username) as [probes out].
  destruct (api_requested (api_post w host port auth)); simpl;
    [now rewrite <- app_assoc|reflexivity].
Qed.

Lemma usable_api_reports (w : world) (proxy_str : string)
  (username : option string) (host : string) (port : Z)
  (auth : option BasicAuth)
  (http_result https_result socks4_result socks5_result : probe_result) :
  _parse_proxy_string proxy_str = inl (host, port, auth) ->
  _validate_ip_port host port = None ->
  snd (_socket_connect (connect_ex w) host port) = inl 0 ->
  rapidapi_verdict (api_post w host port auth)
  = Usable http_result https_result socks4_result socks5_result ->
  ProxyChecker.check_proxy w proxy_str username
  = ((map (fun a => EvConnect (fst a) host port)
        (fst (_socket_connect (connect_ex w) host port))
      ++ [EvApiPost host port])%list,
     inl (Rendered (_format_response proxy_str (connect_elapsed w)
                      http_result https_result socks4_result socks5_result
                      username))).
Proof.
  intros Hparse Hvalid Hsock Hapi.
  assert (Hreq : api_requested (api_post w host port auth) = true).
  { apply usable_iff in Hapi.
    destruct Hapi as (elapsed & status & d & rd & -> & _). reflexivity. }
  unfold ProxyChecker.check_proxy.
  rewrite Hparse, Hvalid. unfold _check_socket_connection.
  destruct (_socket_connect (connect_ex w) host port) as [log r].
  cbn [snd] in Hsock. subst r. cbn. rewrite Hapi, Hreq. reflexivity.
Qed.



(** The network operations of one check come in three stages, which are
    the three phases in which a call holds the semaphore: the connection
    attempts of the socket probe, then at most one RapidAPI request, then
    either nothing or the [FALLBACK_PROBES] candidate probes. *)
Lemma check_proxy_stages (w : world) (proxy_str : string)
  (username : option string) :
  exists connects api probes,
    fst (ProxyChecker.check_proxy w proxy_str username)
    = (connects ++ api ++ probes)%list
    /\ Forall is_connect connects
    /\ (api = [] \/ exists host port, api = [EvApiPost host port])
    /\ Forall is_probe probes
    /\ (probes = [] \/ length probes = FALLBACK_PROBES)
    /\ (api <> [] \/ probes <> [] ->
        exists host port auth,
          _parse_proxy_string proxy_str = inl (host, port, auth)
          /\ snd (_socket_connect (connect_ex w) host port) = inl 0).
Proof.
  unfold ProxyChecker.check_proxy.
  destruct (_parse_proxy_string proxy_str) as [[[host port] auth]|msg].
  2:{ exists [], [], []. cbn. repeat split; auto. intros [H|H]; congruence. }
  destruct (_validate_ip_port host port).
  { exists [], [], []. cbn. repeat split; auto. intros [H|H]; congruence. }
  unfold _check_socket_connection.
  destruct (_socket_connect (connect_ex w) host port) as [log r] eqn:Hsc.
  set (connects := map (fun a => EvConnect (fst a) host port) log).
  assert (Hconn : Forall is_connect connects).
  { apply Forall_map, Forall_forall. intros; exact I. }
  destruct r as [code|e].
  2:{ destruct (isinstance e Exception); cbn; exists connects, [], [];
      rewrite app_nil_r; repeat split; auto; intros [H|H]; congruence. }
  destruct (code =? 0) eqn:Hcode.
  2:{ cbn. exists connects, [], []. rewrite app_nil_r.
      repeat split; auto. intros [H|H]; congruence. }
  apply Z.eqb_eq in Hcode. subst code. cbn.
  pose proof (fallback_launches_all_probes w proxy_str host port auth
                (connect_elapsed w) username) as Hlen.
  assert (Hprobes : Forall is_probe
                      (fst (manual_testing w proxy_str host port auth
                              (connect_elapsed w) username))).
  { unfold manual_testing.
    repeat match goal with
           | |- context [match ?x with _ => _ end] => destruct x
           end; simpl; repeat constructor. }
  set (api := if api_requested (api_post w host port auth)
              then [EvApiPost host port] else []).
  assert (Hapi : api = [] \/ exists host port, api = [EvApiPost host port]).
  { unfold api. destruct (api_requested _); eauto. }
  assert (Hfold : (if api_requested (api_post w host port auth)
                   then (connects ++ [EvApiPost host port])%list
                   else connects)
                  = (connects ++ api)%list).
  { unfold api. destruct (api_requested _); [reflexivity|].
    now rewrite app_nil_r. }
  fold connects. rewrite Hfold.
  assert (Hlive : exists host0 port0 auth0,
             @inl (string * Z * option BasicAuth) string (host, port, auth)
             = inl (host0, port0, auth0)
             /\ snd (_socket_connect (connect_ex w) host0 port0) = inl 0).
  { exists host, port, auth. now rewrite Hsc. }
  destruct (rapidapi_verdict (api_post w host port auth)).
  - exists connects, api, [].
    cbn [fst]. rewrite app_nil_r. repeat split; auto.
  - destruct (manual_testing w proxy_str host port auth (connect_elapsed w)
                username) as [probes out].
    exists connects, api, probes.
    cbn [fst] in *. rewrite <- app_assoc. repeat split; auto.
  - exists connects, api, [].
    cbn [fst]. rewrite app_nil_r. repeat split; auto.
Qed.

(* ================================================================== *)
(** * Properties of the semaphore *)
(* ================================================================== *)

Section Semaphore.

Local Open Scope nat_scope.

Lemma holders_total (s : system) : holders s = total unit_count (calls s).
Proof.
  unfold holders, total, unit_count.
  induction (calls s) as [|p l IH]; [reflexivity|].
  simpl. destruct (holds_unit p); simpl; now rewrite IH.
Qed.

(** Replacing one element of a list moves a total by the difference of
    the two elements. *)
Lemma total_set_nth {A : Type} (f : A -> nat) (l : list A) (i : nat)
  (x x' : A) :
  nth_error l i = Some x ->
  total f (set_nth i x' l) + f x = total f l + f x'.
Proof.
  unfold total. revert i. induction l as [|q l IH]; intros i H.
  - destruct i; discriminate.
  - destruct i as [|j]; simpl in H.
    + inversion H; subst. simpl. lia.
    + simpl. specialize (IH j H). lia.
Qed.

Lemma total_from_set_nth (f : nat -> phase -> nat) (l : list phase) (i : nat)
  (p p' : phase) :
  forall start,
    nth_error l i = Some p ->
    total_from f start (set_nth i p' l) + f (start + i) p
    = total_from f start l + f (start + i) p'.
Proof.
  revert i. induction l as [|q l IH]; intros i start H.
  - destruct i; discriminate.
  - destruct i as [|j]; simpl in H.
    + inversion H; subst. simpl. rewrite Nat.add_0_r. lia.
    + simpl. specialize (IH j (S start) H).
      replace (start + S j) with (S start + j) by lia. lia.
Qed.

Lemma length_set_nth {A : Type} (i : nat) (x : A) (l : list A) :
  length (set_nth i x l) = length l.
Proof.
  revert i. induction l as [|y l IH]; intros [|j]; simpl; auto.
Qed.

Lemma nth_error_set_nth_eq {A : Type} (i : nat) (x y : A) (l : list A) :
  nth_error l i = Some y -> nth_error (set_nth i x l) i = Some x.
Proof.
  revert i. induction l as [|z l IH]; intros [|j] H; simpl in *;
    try discriminate; auto.
Qed.

Lemma nth_error_set_nth_neq {A : Type} (i j : nat) (x : A) (l : list A) :
  i <> j -> nth_error (set_nth i x l) j = nth_error l j.
Proof.
  revert i j. induction l as [|z l IH]; intros [|i] [|j] H; simpl;
    try reflexivity; try congruence.
  apply IH. congruence.
Qed.

Lemma Forall_set_nth (P : phase -> Prop) (l : list phase) (i : nat)
  (p' : phase) :
  Forall P l -> P p' -> Forall P (set_nth i p' l).
Proof.
  intros Hl Hp. revert i.
  induction Hl as [|q l Hq Hl IH]; intros i; destruct i; simpl;
    constructor; auto.
Qed.

Lemma none_connected_at_launch (n : nat) :
  total connected_count (repeat Waiting n) = 0.
Proof. induction n as [|n IH]; [reflexivity|exact IH]. Qed.

Lemma nth_error_waiting (n k : nat) (st : probe_state) :
  nth_error (repeat Waiting n) k = Some st -> st = Waiting.
Proof.
  intros H. apply nth_error_In in H. now apply repeat_spec in H.
Qed.

Lemma connected_le_launched (probes : list probe_state) :
  total connected_count probes <= length probes.
Proof.
  unfold total. induction probes as [|[| |] probes IH]; simpl; lia.
Qed.

(** One move of one call: the units given out and the units left add up
    as before, and so do the connections granted and the connections
    left. *)
Lemma step_phase_balance (v f v' f' : nat) (p p' : phase) (m : move) :
  step_phase v f p m = Some (v', f', p') ->
  launched_in_bounds p ->
  v' + unit_count p' = v + unit_count p
  /\ f' + connections_of p' = f + connections_of p
  /\ launched_in_bounds p'.
Proof.
  intros H Hp.
  destruct p as [| |[|]|probes|];
    destruct m as [[|]|[|]| |[|]|k|k|k|];
    cbn [step_phase] in H; try discriminate;
    repeat match type of H with
           | match ?x with _ => _ end = _ =>
               destruct x eqn:?; try discriminate
           end;
    inversion H; subst; clear H;
    cbn [unit_count holds_unit connections_of launched_in_bounds] in *;
    rewrite ?none_connected_at_launch, ?length_set_nth, ?repeat_length;
    try (repeat split; (lia || assumption || reflexivity)).
  all: try (repeat split; try reflexivity;
            change (total connected_count _) with 0; lia).
  all: match goal with
       | Hn : nth_error ?ps ?j = Some ?st |- _ =>
           pose proof (total_set_nth connected_count ps j st) as Ht
       end.
  - specialize (Ht Connected ltac:(assumption)). cbn in Ht.
    repeat split; (lia || assumption).
  - specialize (Ht Over ltac:(assumption)). cbn in Ht.
    repeat split; (lia || assumption).
  - specialize (Ht Over ltac:(assumption)). cbn in Ht.
    repeat split; (lia || assumption).
Qed.

Lemma holds_key_le_one (key : connection_key) (e : nat) (p : phase) :
  holds_key key e p <= 1.
Proof.
  destruct key as [|e' k], p as [| |[|]|probes|]; cbn; try lia.
  destruct (e' =? e); [|lia].
  destruct (nth_error probes k) as [[| |]|]; lia.
Qed.

(** A move adds a connection under no other key than the one it asks
    for. *)
Lemma step_phase_keys (v f v' f' : nat) (p p' : phase) (m : move)
  (key : connection_key) (e : nat) :
  step_phase v f p m = Some (v', f', p') ->
  requested_key e m <> Some key ->
  holds_key key e p' <= holds_key key e p.
Proof.
  intros H Hreq.
  destruct p as [| |[|]|probes|];
    destruct m as [[|]|[|]| |[|]|k|k|k|];
    cbn [step_phase] in H; try discriminate;
    repeat match type of H with
           | match ?x with _ => _ end = _ =>
               destruct x eqn:?; try discriminate
           end;
    inversion H; subst; clear H;
    destruct key as [|e' k']; cbn [holds_key requested_key] in *;
    try lia; try congruence.
  all: destruct (Nat.eqb_spec e' e) as [->|Hne]; [|lia].
  all: try match goal with
           | |- context [nth_error (Waiting :: ?l) ?j] =>
               destruct (nth_error (Waiting :: l) j) as [st|] eqn:Hst;
               [|lia];
               apply (nth_error_waiting 12 j st) in Hst; subst st; lia
           end.
  all: match goal with
       | |- context [nth_error (set_nth ?i _ _) ?j] =>
           destruct (Nat.eq_dec i j) as [->|Hk];
           [|rewrite (nth_error_set_nth_neq i j) by exact Hk; lia]
       end.
  - congruence.
  - erewrite nth_error_set_nth_eq by eassumption. lia.
  - erewrite nth_error_set_nth_eq by eassumption. lia.
Qed.

Lemma key_eq_dec (a b : option connection_key) : {a = b} + {a <> b}.
Proof. repeat decide equality. Qed.

Lemma step_balanced (cap : nat) (s s' : system) (i : nat) (m : move) :
  step s i m = Some s' -> balanced cap s -> balanced cap s'.
Proof.
  unfold step, balanced. rewrite !holders_total.
  unfold connections, acquired_per_host.
  destruct s as [v f h e l]; cbn [permits free_connections per_host
                                   endpoint_of calls].
  destruct (nth_error l i) as [p|] eqn:Hnth; [|discriminate].
  destruct (match requested_key (e i) m with
            | Some key =>
                h <=? total_from (fun i0 p0 => holds_key key (e i0) p0) 0 l
            | None => false
            end) eqn:Hguard; [discriminate|].
  destruct (step_phase v f p m) as [[[v' f'] p']|] eqn:Hstep; [|discriminate].
  intros H (Hsum & Hconn & Hall & Hkeys & Hper). injection H as <-.
  cbn [permits free_connections per_host endpoint_of calls].
  assert (Hp : launched_in_bounds p).
  { rewrite Forall_forall in Hall. apply Hall.
    eapply nth_error_In; eassumption. }
  destruct (step_phase_balance _ _ _ _ _ _ _ Hstep Hp)
    as (Hunits & Hconns & Hp').
  pose proof (total_set_nth unit_count l i p p' Hnth) as Hh.
  pose proof (total_set_nth connections_of l i p p' Hnth) as Hc.
  split; [lia|]. split; [lia|]. split; [now apply Forall_set_nth|].
  split; [|exact Hper].
  intros key.
  pose proof (total_from_set_nth
                (fun i0 p0 => holds_key key (e i0) p0) l i p p' 0 Hnth)
    as Hk.
  cbn [Nat.add] in Hk. specialize (Hkeys key).
  destruct (key_eq_dec (requested_key (e i) m) (Some key)) as [Heq|Hneq].
  - rewrite Heq in Hguard. apply Nat.leb_gt in Hguard.
    pose proof (holds_key_le_one key (e i) p'). lia.
  - pose proof (step_phase_keys _ _ _ _ _ _ _ key (e i) Hstep Hneq). lia.
Qed.

Lemma run_balanced (cap : nat) (script : list (nat * move)) :
  forall s s', run s script = Some s' -> balanced cap s -> balanced cap s'.
Proof.
  induction script as [|[i m] script IH]; intros s s' H Hs; simpl in H.
  - now inversion H; subst.
  - destruct (step s i m) as [s1|] eqn:Hstep; [|discriminate].
    apply (IH s1 s' H). eapply step_balanced; eassumption.
Qed.

Lemma initial_balanced (cap n : nat) (endpoints : nat -> nat) :
  balanced cap (initial cap n endpoints).
Proof.
  unfold balanced, initial, holders, connections, acquired_per_host, total;
    cbn [permits free_connections per_host endpoint_of calls].
  split; [|split; [|split; [|split]]].
  - induction n as [|n IH]; simpl; [lia|exact IH].
  - induction n as [|n IH]; simpl; [lia|exact IH].
  - induction n as [|n IH]; simpl; constructor; [exact I|exact IH].
  - intros key.
    assert (H : forall start,
               total_from (fun i p => holds_key key (endpoints i) p) start
                 (repeat Created n) = 0).
    { induction n as [|n IH]; intros start; [reflexivity|].
      cbn [repeat total_from]. rewrite IH. now destruct key. }
    rewrite H. lia.
  - reflexivity.
Qed.

(** A socket probe runs under the unit of its call; a call holds
    connections only while it holds a unit, and never more than it has
    launched probes. *)
Lemma per_call_bounds (s : system) :
  Forall launched_in_bounds (calls s) ->
  sockets s <= holders s
  /\ connections s <= FALLBACK_PROBES * holders s
  /\ in_flight s = sockets s + connections s.
Proof.
  rewrite holders_total.
  unfold sockets, connections, in_flight, total.
  induction 1 as [|p l Hp Hl IH]; cbn [map fold_right]; [lia|].
  destruct IH as (IH1 & IH2 & IH3).
  assert (sockets_of p <= unit_count p
          /\ connections_of p <= FALLBACK_PROBES * unit_count p).
  { clear IH1 IH2 IH3 Hl.
    destruct p as [| |[|]|probes|];
      cbn [sockets_of connections_of unit_count holds_unit
           launched_in_bounds] in *;
      try (change FALLBACK_PROBES with 12; lia).
    pose proof (connected_le_launched probes). lia. }
  unfold in_flight_of at 1.
  change FALLBACK_PROBES with 12 in *. lia.
Qed.

(** C2, as the code has it.  The semaphore is taken once per endpoint
    check, around the whole of [ProxyChecker.check_proxy], and given back
    on every way out of it: in every state reached by any number of
    concurrent checks, the units left and the checks inside the guarded
    block add up to the capacity, so at most [max_concurrent] checks are
    inside it.  No network operation takes a unit of its own.  A socket
    probe runs under the unit of its check, one per check at a time.  An
    HTTP operation (the RapidAPI request, a candidate probe) holds a
    connection of the shared connector instead, whose limit is the same
    capacity and which grants two connections per host at most: at most
    [max_concurrent] of them are in flight, among them at most two
    RapidAPI requests, and up to [FALLBACK_PROBES] (twelve) under the
    single unit of one check. *)
Theorem semaphore_bounds_checks (max_concurrent n : nat)
  (endpoints : nat -> nat) (script : list (nat * move)) (s : system) :
  run (initial max_concurrent n endpoints) script = Some s ->
  permits s + holders s = max_concurrent
  /\ holders s <= max_concurrent
  /\ free_connections s + connections s = max_concurrent
  /\ connections s <= max_concurrent
  /\ (forall key, acquired_per_host s key <= 2)
  /\ connections s <= FALLBACK_PROBES * holders s
  /\ sockets s <= holders s
  /\ in_flight s = sockets s + connections s
  /\ in_flight s <= 2 * max_concurrent.
Proof.
  intros H.
  destruct (run_balanced max_concurrent script _ _ H
              (initial_balanced max_concurrent n endpoints))
    as (Hsum & Hconn & Hall & Hkeys & Hper).
  destruct (per_call_bounds s Hall) as (Hsock & Hper' & Hfl).
  cbn in Hper. rewrite Hper in Hkeys.
  repeat split; try assumption; lia.
Qed.

End Semaphore.

Lemma semaphore_bounds_checks_witness :
  (0 + 20 = MAX_CONCURRENT_CHECKS
   /\ 20 <= MAX_CONCURRENT_CHECKS
   /\ 18 + 2 = MAX_CONCURRENT_CHECKS
   /\ 2 <= MAX_CONCURRENT_CHECKS
   /\ 2 <= FALLBACK_PROBES * 20
   /\ 19 <= 20
   /\ 21 = 19 + 2
   /\ 21 <= 2 * MAX_CONCURRENT_CHECKS)%nat.
Proof.
  destruct (semaphore_bounds_checks MAX_CONCURRENT_CHECKS 20 (fun i => i)
              nineteen_sockets_two_probes
              {| permits := 0;
                 free_connections := 18;
                 per_host := 2;
                 endpoint_of := fun i => i;
                 calls := (repeat Probing 19
                           ++ [Testing (Connected :: Connected
                                        :: repeat Waiting 10)])%list |}
              eq_refl)
    as (H1 & H2 & H3 & H4 & _ & H5 & H6 & H7 & H8).
  exact (conj H1 (conj H2 (conj H3 (conj H4 (conj H5 (conj H6
           (conj H7 H8))))))).
Defined.

(** C2 as stated fails with twenty endpoints.  Nineteen checks are
    awaiting their socket probe; the twentieth passed it, got no usable
    answer from RapidAPI and has two candidate probes connected through
    the proxy.  That makes 21 network operations in flight against a
    ceiling of 20, all twenty units being taken and the connector holding
    two connections out of twenty, under two different keys: the
    operations outnumber the units there are. *)
Lemma in_flight_exceeds_ceiling :
  exists s,
    run (initial MAX_CONCURRENT_CHECKS 20 (fun i => i))
      nineteen_sockets_two_probes
    = Some s
    /\ permits s = 0%nat
    /\ holders s = 20%nat
    /\ free_connections s = 18%nat
    /\ acquired_per_host s (Candidate 19 0) = 1%nat
    /\ acquired_per_host s (Candidate 19 1) = 1%nat
    /\ sockets s = 19%nat
    /\ connections s = 2%nat
    /\ in_flight s = 21%nat
    /\ (MAX_CONCURRENT_CHECKS < in_flight s)%nat.
Proof.
  exists {| permits := 0;
            free_connections := 18;
            per_host := 2;
            endpoint_of := fun i => i;
            calls := (repeat Probing 19
                      ++ [Testing (Connected :: Connected
                                   :: repeat Waiting 10)])%list |}.
  repeat split; try reflexivity.
  vm_compute. lia.
Qed.

(** The limit per host at work: with two RapidAPI requests connected, the
    request of a third check has to wait, although the connector has
    eighteen connections left. *)
Example third_api_request_waits :
  exists s,
    run (initial MAX_CONCURRENT_CHECKS 3 (fun i => i)) three_api_requests
    = Some s
    /\ free_connections s = 18%nat
    /\ acquired_per_host s ApiHost = 2%nat
    /\ step s 2 ApiConnect = None.
Proof.
  eexists. split; [reflexivity|]. repeat split.
Qed.

(* ================================================================== *)
(** * Properties of the batch orchestrator *)
(* ================================================================== *)

Section Batches.

Local Open Scope nat_scope.

Lemma tasks_from_cons (s : nat) (x : string) (l : list string) :
  tasks_from s (x :: l) = {| t_idx := s; t_proxy := x |} :: tasks_from (S s) l.
Proof. reflexivity. Qed.

Lemma tasks_from_length (s : nat) (l : list string) :
  length (tasks_from s l) = length l.
Proof.
  unfold tasks_from. rewrite length_map, length_combine, length_seq. lia.
Qed.

Lemma tasks_from_idx (s : nat) (l : list string) :
  map t_idx (tasks_from s l) = seq s (length l).
Proof.
  revert s. induction l as [|x l IH]; intros s; [reflexivity|].
  rewrite tasks_from_cons. simpl. now rewrite IH.
Qed.

Lemma skipn_tasks_from (i s : nat) (l : list string) :
  skipn i (tasks_from s l) = tasks_from (s + i) (skipn i l).
Proof.
  revert s l. induction i as [|i IH]; intros s l.
  - now rewrite Nat.add_0_r.
  - destruct l as [|x l]; [reflexivity|].
    rewrite tasks_from_cons. simpl. rewrite IH. f_equal. lia.
Qed.

Lemma firstn_tasks_from (b s : nat) (l : list string) :
  firstn b (tasks_from s l) = tasks_from s (firstn b l).
Proof.
  revert s l. induction b as [|b IH]; intros s l; [reflexivity|].
  destruct l as [|x l]; [reflexivity|].
  rewrite tasks_from_cons. simpl. rewrite IH. reflexivity.
Qed.

(** A sub-batch is the run of tasks made for the matching slice of the
    input. *)
Lemma batch_slice (bs i : nat) (proxy_list : list string) :
  firstn bs (skipn i (tasks_from 0 proxy_list))
  = tasks_from i (firstn bs (skipn i proxy_list)).
Proof. now rewrite skipn_tasks_from, firstn_tasks_from. Qed.

Lemma nth_slice (bs i j : nat) (l : list string) (d : string) :
  j < length (firstn bs (skipn i l)) ->
  nth j (firstn bs (skipn i l)) d = nth (i + j) l d.
Proof.
  intros H. rewrite length_firstn in H.
  rewrite nth_firstn.
  destruct (j <? bs) eqn:Hj; [|apply Nat.ltb_ge in Hj; lia].
  now rewrite nth_skipn.
Qed.

Variable bw : batch_world.
Variable proxy_list : list string.
Variable username : option string.

(** The entries collected for a completed sub-batch are those of its
    endpoints, in order. *)
Lemma collect_batch_entries (i j0 : nat) (l : list string) :
  (forall j, j < length l ->
             nth j l "unknown"%string = proxy_at proxy_list (i + j0 + j)) ->
  map (fun jt : nat * task =>
         let '(j, t) := jt in
         match task_outcome bw username t with
         | inr e =>
             if isinstance e Exception then
               Entry (Message ("❌ Error checking proxy "
                               ++ proxy_at proxy_list (i + j) ++ ": "
                               ++ exc_msg e))
             else EntryExc e
         | inl result => Entry result
         end)
      (combine (seq j0 (length l)) (tasks_from (i + j0) l))
  = map (done_entry bw proxy_list username) (seq (i + j0) (length l)).
Proof.
  revert j0. induction l as [|x l IH]; intros j0 H; [reflexivity|].
  rewrite tasks_from_cons. simpl. f_equal.
  - unfold done_entry.
    pose proof (H 0 (Nat.lt_0_succ _)) as H0. simpl in H0.
    rewrite Nat.add_0_r in H0. now rewrite <- H0.
  - replace (S (i + j0)) with (i + S j0) by lia.
    apply IH. intros j Hj.
    specialize (H (S j) (proj1 (Nat.succ_lt_mono _ _) Hj)). simpl in H.
    rewrite H. f_equal. lia.
Qed.

Lemma collect_batch_slice (bs i : nat) :
  let l := firstn bs (skipn i proxy_list) in
  collect_batch bw proxy_list username i (tasks_from i l)
  = map (done_entry bw proxy_list username) (seq i (length l)).
Proof.
  intros l. unfold collect_batch.
  rewrite tasks_from_length.
  pose proof (collect_batch_entries i 0 l) as H.
  rewrite Nat.add_0_r in H. apply H.
  intros j Hj. unfold proxy_at. now apply nth_slice.
Qed.

Lemma timeout_batch_slice (i : nat) (batch : list task) :
  timeout_batch proxy_list i batch
  = map (timeout_entry proxy_list) (seq i (length batch)).
Proof.
  unfold timeout_batch.
  assert (H : forall n j0,
             map (fun j => Entry (Message ("❌ Timeout checking proxy "
                                           ++ proxy_at proxy_list (i + j))))
               (seq j0 n)
             = map (timeout_entry proxy_list) (seq (i + j0) n)).
  { induction n as [|n IH]; intros j0; [reflexivity|].
    simpl. f_equal. rewrite IH. f_equal. f_equal. lia. }
  rewrite H. now rewrite Nat.add_0_r.
Qed.

Variable bs : nat.

Lemma Forall2_map_seq (f : nat -> entry) (l : list nat) :
  (forall k, entry_for bw proxy_list username k (f k)) ->
  Forall2 (entry_for bw proxy_list username) l (map f l).
Proof.
  intros H. induction l as [|k l IH]; simpl; constructor; auto.
Qed.

Lemma waits_cancels (pending : list task) (events : list sched_event) :
  waits (map (fun t => Cancel (t_idx t)) pending ++ events) = waits events.
Proof. induction pending as [|t pending IH]; simpl; auto. Qed.

Lemma sequenced_cancels (now : Z) (pending : list task)
  (events : list sched_event) :
  sequenced bw now (map (fun t => Cancel (t_idx t)) pending ++ events)
  <-> sequenced bw now events.
Proof. induction pending as [|t pending IH]; simpl; tauto. Qed.

Lemma all_done_tasks (now : Z) (i : nat) (l : list string) :
  fold_right Z.max now
    (map (fun t => task_finish bw (t_idx t)) (tasks_from i l))
  = all_done bw now (seq i (length l)).
Proof.
  unfold all_done. now rewrite <- tasks_from_idx, map_map.
Qed.

Lemma fold_max_ge (now : Z) (l : list Z) : (now <= fold_right Z.max now l)%Z.
Proof. induction l as [|x l IH]; simpl; lia. Qed.

(** One pass of the loop per start index: entries, waits and their
    chaining. *)
Lemma run_batches_shape (starts : list nat) :
  forall now,
    let r := run_batches bw proxy_list username (tasks_from 0 proxy_list)
               bs starts now in
    let slices :=
      map (fun i => seq i (length (firstn bs (skipn i proxy_list)))) starts in
    Forall2 (entry_for bw proxy_list username) (concat slices) (snd r)
    /\ waits (fst r) = slices
    /\ sequenced bw now (fst r)
    /\ (starts <> [] -> first_wait (fst r) = Some now).
Proof.
  induction starts as [|i starts IH]; intros now; cbv zeta.
  - simpl. repeat split; try constructor. congruence.
  - cbn [run_batches map concat]. rewrite batch_slice.
    rewrite tasks_from_idx, all_done_tasks.
    set (l := firstn bs (skipn i proxy_list)).
    set (done_at := all_done bw now (seq i (length l))).
    destruct (done_at <? now + BATCH_TIMEOUT)%Z eqn:Hlt.
    + apply Z.ltb_lt in Hlt.
      specialize (IH done_at). cbv zeta in IH.
      destruct (run_batches bw proxy_list username (tasks_from 0 proxy_list)
                  bs starts done_at) as [events results].
      destruct IH as (Hres & Hwaits & Hseq & _).
      cbn [fst snd waits first_wait sequenced] in *.
      fold done_at.
      repeat split; auto.
      * apply Forall2_app; [|exact Hres].
        unfold l. rewrite collect_batch_slice.
        apply Forall2_map_seq. intros k. now left.
      * now rewrite Hwaits.
    + apply Z.ltb_ge in Hlt.
      set (resumed := (now + BATCH_TIMEOUT + Z.of_nat (unwind bw i))%Z).
      specialize (IH resumed). cbv zeta in IH.
      destruct (run_batches bw proxy_list username (tasks_from 0 proxy_list)
                  bs starts resumed) as [events results].
      destruct IH as (Hres & Hwaits & Hseq & _).
      cbn [fst snd app waits first_wait sequenced] in *.
      fold done_at.
      repeat split; auto.
      * apply Forall2_app; [|exact Hres].
        rewrite timeout_batch_slice, tasks_from_length.
        apply Forall2_map_seq. intros k. now right.
      * rewrite waits_cancels. now rewrite Hwaits.
      * unfold resumed. lia.
      * now apply sequenced_cancels.
Qed.

Lemma slice_length (i : nat) :
  length (firstn bs (skipn i proxy_list))
  = Nat.min bs (length proxy_list - i).
Proof. now rewrite length_firstn, length_skipn. Qed.

(** Consecutive slices of width [bs] tile the indices. *)
Lemma slices_tile (m k0 : nat) :
  0 < bs ->
  concat (map (fun i => seq i (length (firstn bs (skipn i proxy_list))))
            (map (fun k => k * bs) (seq k0 m)))
  = seq (k0 * bs) (Nat.min (m * bs) (length proxy_list - k0 * bs)).
Proof.
  intros Hbs. revert k0. induction m as [|m IH]; intros k0; [reflexivity|].
  cbn [seq map concat]. rewrite IH, slice_length.
  set (n := length proxy_list).
  replace (S k0 * bs) with (k0 * bs + bs) by (simpl; lia).
  replace (S m * bs) with (bs + m * bs) by (simpl; lia).
  destruct (Nat.le_gt_cases bs (n - k0 * bs)) as [Hle|Hgt].
  - rewrite (Nat.min_l bs) by exact Hle.
    rewrite <- seq_app. f_equal. lia.
  - rewrite (Nat.min_r bs) by lia.
    replace (Nat.min (m * bs) (n - (k0 * bs + bs))) with 0 by lia.
    rewrite app_nil_r. f_equal. lia.
Qed.

Lemma range_covers (n : nat) :
  0 < bs -> n <= (n + bs - 1) / bs * bs.
Proof.
  intros Hbs.
  pose proof (Nat.div_mod_eq (n + bs - 1) bs) as Hdm.
  pose proof (Nat.mod_upper_bound (n + bs - 1) bs ltac:(lia)) as Hm.
  rewrite (Nat.mul_comm _ bs). lia.
Qed.

Lemma range_slices :
  0 < bs ->
  exists starts,
    py_range (length (tasks_from 0 proxy_list)) bs = Some starts
    /\ starts = map (fun k => k * bs)
                  (seq 0 ((length proxy_list + bs - 1) / bs))
    /\ concat (map (fun i => seq i (length (firstn bs (skipn i proxy_list))))
                 starts)
       = seq 0 (length proxy_list).
Proof.
  intros Hbs. rewrite tasks_from_length.
  eexists. split; [|split; [reflexivity|]].
  - unfold py_range. destruct bs; [lia|reflexivity].
  - rewrite slices_tile by exact Hbs. simpl. f_equal.
    pose proof (range_covers (length proxy_list) Hbs). lia.
Qed.

End Batches.

Lemma waits_spawns (tasks : list task) (events : list sched_event) :
  waits (map (fun t => Spawn (t_idx t) (t_proxy t)) tasks ++ events)
  = waits events.
Proof. induction tasks as [|t tasks IH]; simpl; auto. Qed.

Lemma first_wait_spawns (tasks : list task) (events : list sched_event) :
  first_wait (map (fun t => Spawn (t_idx t) (t_proxy t)) tasks ++ events)
  = first_wait events.
Proof. induction tasks as [|t tasks IH]; simpl; auto. Qed.

(** A task starts at the first wait that follows the whole run of
    creations. *)
Lemma task_start_spawns (l : list string) (events : list sched_event) :
  forall s idx,
    (s <= idx < s + length l)%nat ->
    task_start
      (map (fun t => Spawn (t_idx t) (t_proxy t)) (tasks_from s l) ++ events)
      idx
    = first_wait events.
Proof.
  induction l as [|x l IH]; intros s idx H; simpl in H; [lia|].
  rewrite tasks_from_cons. cbn [map app task_start t_idx].
  destruct (s =? idx)%nat eqn:Heq.
  - apply first_wait_spawns.
  - apply Nat.eqb_neq in Heq. apply IH. lia.
Qed.

Lemma skipn_spawns (l : list string) (events : list sched_event) :
  skipn (length l)
    (map (fun t => Spawn (t_idx t) (t_proxy t)) (tasks_from 0 l) ++ events)
  = events.
Proof.
  rewrite <- (tasks_from_length 0 l).
  rewrite <- (length_map (fun t => Spawn (t_idx t) (t_proxy t))).
  rewrite skipn_app, skipn_all, Nat.sub_diag. reflexivity.
Qed.

(** The orchestrator when [initialize] raises: nothing is started. *)
Lemma check_multiple_proxies_failed (bw : batch_world)
  (proxy_list : list string) (username : option string) (e : exn) :
  initialize_raises bw = Some e ->
  check_multiple_proxies bw proxy_list username
  = ([], if isinstance e Exception then inl (batch_error e) else inr e).
Proof.
  unfold initialize_raises, check_multiple_proxies. intros ->.
  now destruct (isinstance e Exception).
Qed.

(** The orchestrator on a list that is not empty, once [initialize] has
    returned: the creations, then the loop over the start indices. *)
Lemma check_multiple_proxies_unfold (bw : batch_world)
  (proxy_list : list string) (username : option string) :
  initialize_raises bw = None ->
  proxy_list <> [] ->
  let bs := Nat.min 10 (length proxy_list) in
  let starts :=
    map (fun k => (k * bs)%nat)
      (seq 0 ((length proxy_list + bs - 1) / bs)%nat) in
  let r := run_batches bw proxy_list username (tasks_from 0 proxy_list)
             bs starts 0 in
  (0 < bs)%nat
  /\ starts <> []
  /\ check_multiple_proxies bw proxy_list username
     = ((map (fun t => Spawn (t_idx t) (t_proxy t)) (tasks_from 0 proxy_list)
         ++ fst r)%list, inl (snd r)).
Proof.
  intros Hinit Hne bs starts r.
  assert (Hlen : (0 < length proxy_list)%nat).
  { destruct proxy_list; [congruence|simpl; lia]. }
  assert (Hbs : (0 < bs)%nat) by (unfold bs; lia).
  split; [exact Hbs|]. split.
  - unfold starts.
    assert (0 < (length proxy_list + bs - 1) / bs)%nat.
    { apply Nat.div_str_pos. lia. }
    destruct ((length proxy_list + bs - 1) / bs)%nat; [lia|discriminate].
  - unfold check_multiple_proxies. unfold initialize_raises in Hinit.
    rewrite Hinit.
    change (map (fun ip : nat * string =>
                   {| t_idx := fst ip; t_proxy := snd ip |})
              (combine (seq 0 (length proxy_list)) proxy_list))
      with (tasks_from 0 proxy_list).
    fold bs.
    destruct (range_slices proxy_list bs Hbs) as (starts' & Hr & Hs & _).
    rewrite Hr. subst starts'. fold starts. fold r.
    destruct r as [events results]. reflexivity.
Qed.

(** Order preservation on every list that is not empty, once [initialize]
    has returned: one entry per endpoint, the [k]-th entry being the
    outcome of the check of the [k]-th endpoint or the timeout message
    that names it. *)
Lemma results_follow_input (bw : batch_world) (proxy_list : list string)
  (username : option string) :
  initialize_raises bw = None ->
  proxy_list <> [] ->
  exists results,
    snd (check_multiple_proxies bw proxy_list username) = inl results
    /\ Forall2 (entry_for bw proxy_list username)
         (seq 0 (length proxy_list)) results
    /\ length results = length proxy_list.
Proof.
  intros Hinit Hne.
  destruct (check_multiple_proxies_unfold bw proxy_list username Hinit Hne)
    as (Hbs & _ & ->).
  cbn [snd].
  set (bs := Nat.min 10 (length proxy_list)) in *.
  destruct (range_slices proxy_list bs Hbs) as (starts & _ & -> & Htile).
  destruct (run_batches_shape bw proxy_list username bs
              (map (fun k => (k * bs)%nat)
                 (seq 0 ((length proxy_list + bs - 1) / bs)%nat)) 0)
    as (Hres & _).
  rewrite Htile in Hres. eexists. split; [reflexivity|].
  split; [exact Hres|].
  apply Forall2_length in Hres. now rewrite length_seq in Hres.
Qed.

Lemma range_tight (n bs : nat) :
  (0 < bs -> 0 < n -> ((n + bs - 1) / bs - 1) * bs < n)%nat.
Proof.
  intros Hbs Hn.
  pose proof (Nat.div_mod_eq (n + bs - 1) bs) as Hdm.
  pose proof (Nat.mod_upper_bound (n + bs - 1) bs ltac:(lia)) as Hm.
  rewrite Nat.mul_sub_distr_r, (Nat.mul_comm _ bs). lia.
Qed.

(** What the orchestrator does once [initialize] has returned, on a list
    that is not empty. *)
Lemma orchestrator_trace (bw : batch_world)
  (proxy_list : list string) (username : option string) :
  initialize_raises bw = None ->
  proxy_list <> [] ->
  let events := fst (check_multiple_proxies bw proxy_list username) in
  firstn (length proxy_list) events
  = map (fun t => Spawn (t_idx t) (t_proxy t)) (tasks_from 0 proxy_list)
  /\ (forall idx, (idx < length proxy_list)%nat ->
                  task_start events idx = Some 0)
  /\ concat (waits events) = seq 0 (length proxy_list)
  /\ Forall (fun members => (length members <= 10)%nat) (waits events)
  /\ (forall k, (S k < length (waits events))%nat ->
                nth k (waits events) [] = seq (k * 10) 10)
  /\ sequenced bw 0 (skipn (length proxy_list) events).
Proof.
  intros Hinit Hne events. unfold events.
  destruct (check_multiple_proxies_unfold bw proxy_list username Hinit Hne)
    as (Hbs & Hstarts & ->).
  cbn [fst].
  set (n := length proxy_list) in *.
  set (bs := Nat.min 10 n) in *.
  set (m := ((n + bs - 1) / bs)%nat) in *.
  destruct (range_slices proxy_list bs Hbs) as (starts & _ & -> & Htile).
  fold n m in Htile.
  destruct (run_batches_shape bw proxy_list username bs
              (map (fun k => (k * bs)%nat) (seq 0 m)) 0)
    as (_ & Hwaits & Hseq & Hfirst).
  set (r := run_batches bw proxy_list username (tasks_from 0 proxy_list) bs
              (map (fun k => (k * bs)%nat) (seq 0 m)) 0) in *.
  assert (Hn : (0 < n)%nat).
  { unfold n. destruct proxy_list; [congruence|simpl; lia]. }
  split; [|split; [|split; [|split; [|split]]]].
  - unfold n. rewrite <- (tasks_from_length 0 proxy_list).
    rewrite <- (length_map (fun t => Spawn (t_idx t) (t_proxy t))).
    rewrite firstn_app, firstn_all, Nat.sub_diag. simpl.
    now rewrite app_nil_r.
  - intros idx Hidx. rewrite task_start_spawns by (fold n; lia).
    now apply Hfirst.
  - rewrite waits_spawns, Hwaits. exact Htile.
  - rewrite waits_spawns, Hwaits. apply Forall_map, Forall_forall.
    intros i _. rewrite length_seq, slice_length. unfold bs. lia.
  - rewrite waits_spawns, Hwaits. rewrite !length_map, length_seq.
    intros k Hk.
    rewrite (nth_indep _ []
               (seq 0 (length (firstn bs (skipn 0 proxy_list)))))
      by (rewrite !length_map, length_seq; lia).
    rewrite (map_nth (fun i => seq i (length (firstn bs (skipn i proxy_list))))).
    rewrite (nth_indep _ 0%nat (0 * bs)%nat)
      by (rewrite length_map, length_seq; lia).
    rewrite (map_nth (fun k => (k * bs)%nat)), seq_nth by lia.
    rewrite slice_length. fold n. simpl (0 + k)%nat.
    pose proof (range_tight n bs Hbs Hn) as Htight. fold m in Htight.
    assert (Hle : (S k * bs <= (m - 1) * bs)%nat)
      by (apply Nat.mul_le_mono_r; lia).
    assert (Hfull : (k * bs + bs <= n)%nat) by (simpl in Hle; lia).
    assert (Hten : bs = 10%nat).
    { unfold bs in *. destruct (Nat.min_spec 10 n) as [[_ ->]|[Hge Heq]];
        [reflexivity|].
      rewrite Heq in Hfull. assert (k * n = 0)%nat by lia.
      rewrite Heq in Hle, Htight.
      destruct k; [|simpl in *; lia].
      destruct m as [|[|m']]; simpl in *; lia. }
    rewrite Hten in *. f_equal. lia.
  - unfold n. rewrite skipn_spawns. exact Hseq.
Qed.

(** C3.  [initialize] passes [keepalive_timeout] together with
    [force_close=True] to [aiohttp.TCPConnector], which refuses the pair
    with a [ValueError]; the outermost handler of the orchestrator turns it
    into a list that holds one message.  So, as long as no connector
    exists, every call returns that one entry, whatever the number of
    endpoints: one entry for three endpoints, naming none of them, and no
    check is started.  The same handler gives one entry for the empty list
    when the connector does exist, [range] raising on a step of 0. *)
Theorem batch_error_breaks_alignment (tw : nat -> world) (tf : nat -> Z)
  (uw : nat -> nat) (proxy_list : list string) (username : option string) :
  let fresh :=
    {| connector := NoConnector; build_connector := TCPConnector;
       task_world := tw; task_finish := tf; unwind := uw |} in
  let message :=
    Entry (Message ("❌ An error occurred in batch processing: "
                    ++ "keepalive_timeout cannot be set if force_close "
                    ++ "is True")) in
  check_multiple_proxies fresh proxy_list username = ([], inl [message])
  /\ check_multiple_proxies fresh
       ["1.2.3.4:8080"; "5.6.7.8:3128"; "9.10.11.12:80"] username
     = ([], inl [message])
  /\ length [message]
     <> length ["1.2.3.4:8080"; "5.6.7.8:3128"; "9.10.11.12:80"]
  /\ (forall bw,
        connector bw = OpenConnector ->
        check_multiple_proxies bw [] username
        = ([], inl [Entry (Message
                             ("❌ An error occurred in batch processing: "
                              ++ "range() arg 3 must not be zero"))])).
Proof.
  intros fresh message. repeat split; try reflexivity.
  - discriminate.
  - intros bw Hopen. unfold check_multiple_proxies, initialize.
    rewrite Hopen. reflexivity.
Qed.

(** C8, as the code has it.  When [initialize] raises, the orchestrator
    creates no task and starts no check.  Otherwise, on a list that is not
    empty, it first creates one task per endpoint, so that every check,
    whatever its sub-batch, starts running at the first suspension
    (instant 0); it then waits for the tasks in sub-batches that are
    consecutive runs of ten indices (the last one possibly shorter), each
    covered by one gather, and the waits follow one another: a wait begins
    when the one before has ended, which is when the last of its checks
    completes or, if one of them is still running at the ceiling of 54 s,
    by timeout. *)
Theorem checks_start_together_waits_in_turn (bw : batch_world)
  (proxy_list : list string) (username : option string) :
  let r := check_multiple_proxies bw proxy_list username in
  let events := fst r in
  (forall e,
     initialize_raises bw = Some e ->
     events = []
     /\ (forall idx, task_start events idx = None)
     /\ snd r = if isinstance e Exception then inl (batch_error e)
                else inr e)
  /\ (initialize_raises bw = None ->
      proxy_list <> [] ->
      firstn (length proxy_list) events
      = map (fun t => Spawn (t_idx t) (t_proxy t)) (tasks_from 0 proxy_list)
      /\ (forall idx, (idx < length proxy_list)%nat ->
                      task_start events idx = Some 0)
      /\ concat (waits events) = seq 0 (length proxy_list)
      /\ Forall (fun members => (length members <= 10)%nat) (waits events)
      /\ (forall k, (S k < length (waits events))%nat ->
                    nth k (waits events) [] = seq (k * 10) 10)
      /\ sequenced bw 0 (skipn (length proxy_list) events)).
Proof.
  intros r events. split.
  - intros e He. unfold events, r.
    rewrite (check_multiple_proxies_failed bw proxy_list username e He).
    cbn [fst snd]. repeat split.
  - intros Hinit Hne.
    exact (orchestrator_trace bw proxy_list username Hinit Hne).
Qed.

Lemma checks_start_together_waits_in_turn_witness :
  let events := fst (check_multiple_proxies steady_batch eleven_proxies None) in
  task_start events 10 = Some 0
  /\ concat (waits events) = seq 0 11
  /\ sequenced steady_batch 0 (skipn 11 events).
Proof.
  destruct (checks_start_together_waits_in_turn steady_batch eleven_proxies
              None) as [_ H].
  destruct (H eq_refl ltac:(discriminate))
    as (_ & Hstart & Htile & _ & _ & Hseq).
  split; [|split].
  - apply Hstart. vm_compute. lia.
  - exact Htile.
  - exact Hseq.
Defined.

(** C8 as stated fails with eleven endpoints.  The eleventh check belongs
    to the second sub-batch; it starts at instant 0 with the ten others
    and has completed, at 2 s, before the wait on the first sub-batch ends
    at 5 s. *)
Lemma later_batch_starts_at_once :
  let r := check_multiple_proxies steady_batch eleven_proxies None in
  let events := fst r in
  initialize_raises steady_batch = None
  /\ waits events = [seq 0 10; [10%nat]]
  /\ task_start events 10 = Some 0
  /\ task_finish steady_batch 10 = 2000
  /\ wait_end events 0 = Some 5000
  /\ exists results, snd r = inl results /\ length results = 11%nat.
Proof.
  vm_compute. repeat split; try reflexivity.
  eexists. split; reflexivity.
Qed.

(* ================================================================== *)
(** * Further properties of the parser *)
(* ================================================================== *)

Lemma split_length (sep : ascii) (s : string) :
  length (Py.split sep s) = S (count_char sep s).
Proof.
  induction s as [|c rest IH]; simpl; [reflexivity|].
  destruct (Ascii.eqb c sep); simpl; [now rewrite IH|].
  destruct (Py.split sep rest); simpl in *; [discriminate|exact IH].
Qed.

Lemma split_fields_free (sep : ascii) (s : string) :
  Forall (fun f => Py.has_char sep f = false) (Py.split sep s).
Proof.
  induction s as [|c rest IH]; simpl; [repeat constructor|].
  destruct (Ascii.eqb c sep) eqn:Hc; [constructor; [reflexivity|exact IH]|].
  destruct (Py.split sep rest) as [|f fs].
  - repeat constructor. simpl. now rewrite Hc.
  - inversion IH; subst. constructor; [|assumption].
    simpl. rewrite Hc. assumption.
Qed.

(** X1.  The format of an endpoint string is accepted exactly when the
    string holds one colon or three: the format error is returned for
    every other number of colons, whatever stands between them. *)
Theorem format_error_iff_colon_count (proxy_str : string) :
  _parse_proxy_string proxy_str = inr MSG_INVALID_FORMAT
  <-> count_char ":" proxy_str <> 1%nat /\ count_char ":" proxy_str <> 3%nat.
Proof.
  rewrite parse_format_error_iff, split_length. lia.
Qed.

(** X2.  No part of a parsed endpoint holds a colon: a host written as an
    IPv6 literal, or a login or password with a colon in it, can never
    come out of the parser. *)
Theorem parsed_parts_hold_no_colon (proxy_str host : string) (port : Z)
  (auth : option BasicAuth) :
  _parse_proxy_string proxy_str = inl (host, port, auth) ->
  Py.has_char ":" host = false
  /\ match auth with
     | Some a =>
         Py.has_char ":" (login a) = false
         /\ Py.has_char ":" (password a) = false
     | None => True
     end.
Proof.
  unfold _parse_proxy_string.
  pose proof (split_fields_free ":" proxy_str) as Hfree.
  destruct (Py.split ":" proxy_str) as [|a [|b [|c [|d [|e l]]]]];
    try discriminate; destruct (Py.int b); try discriminate;
    intros H; inversion H; subst; clear H;
    repeat match goal with
           | H : Forall _ (_ :: _) |- _ => inversion H; subst; clear H
           end; simpl; auto.
Qed.

Lemma parsed_parts_hold_no_colon_witness :
  Py.has_char ":" "proxy.example" = false
  /\ Py.has_char ":" "bob" = false /\ Py.has_char ":" "s3cret" = false.
Proof.
  exact (parsed_parts_hold_no_colon "proxy.example:3128:bob:s3cret"
           "proxy.example" 3128
           (Some {| login := "bob"; password := "s3cret" |}) eq_refl).
Defined.

(* ================================================================== *)
(** * Further properties of the socket prober *)
(* ================================================================== *)

(** X3.  [_socket_connect] tries IPv4, then IPv6, then
    IPv4 again, and calls [connect_ex] at most three times, in that order.
    It returns 0 exactly when a turn gives 0 after every earlier turn
    failed with a non-zero code or an [OSError] (a timeout is one); the
    codes of the first two turns are otherwise dropped.  From the two
    turns of the loop an exception escapes only if it is not an [OSError].
    In the final retry the socket is created outside the [try]: an
    exception of [connect_ex], of any class, becomes code 111, so a host
    whose name does not resolve is reported as code 111, but an exception
    raised by the creation of the socket or by [close] escapes, even an
    [OSError]. *)
Theorem socket_connect_attempts (connect_ex : connect_oracle)
  (host : string) (port : Z) :
  let a0 := connect_ex AF_INET 0%nat host port in
  let a1 := connect_ex AF_INET6 1%nat host port in
  let a2 := connect_ex AF_INET 2%nat host port in
  let r := _socket_connect connect_ex host port in
  (exists keep, fst r = filter keep ATTEMPTS)
  /\ (snd r = inl 0
      <-> loop_body a0 = inl 0
          \/ (soft_failure a0 = true /\ loop_body a1 = inl 0)
          \/ (soft_failure a0 = true /\ soft_failure a1 = true
              /\ final_retry a2 = inl 0))
  /\ (forall e,
        snd r = inr e
        <-> (isinstance e OSError = false
             /\ (loop_body a0 = inr e
                 \/ (soft_failure a0 = true /\ loop_body a1 = inr e)))
            \/ (soft_failure a0 = true /\ soft_failure a1 = true
                /\ (sock_error a2 = Some e
                    \/ (sock_error a2 = None /\ close_error a2 = Some e))))
  /\ (soft_failure a0 = true -> soft_failure a1 = true ->
      sock_error a2 = None -> close_error a2 = None ->
      snd r = inl (match connect_result a2 with
                   | inl code => code
                   | inr _ => 111
                   end))
  /\ isinstance {| exc_type := TimeoutError; exc_msg := "timed out" |} OSError
     = true
  /\ _socket_connect (fun _ _ _ _ => unresolved) "no.such.host" 8080
     = (ATTEMPTS, inl 111)
  /\ _socket_connect (fun _ _ _ _ => no_descriptor) "1.2.3.4" 8080
     = ([], inr EXC_EMFILE).
Proof.
  cbv zeta.
  split; [|split; [|split; [|split; [|repeat split]]]].
  - unfold ATTEMPTS, _socket_connect. cbn [connect_loop].
    unfold connect_calls.
    destruct (loop_body (connect_ex AF_INET 0%nat host port)) as [c0|e0];
      [destruct (c0 =? 0)|destruct (isinstance e0 OSError)];
      destruct (loop_body (connect_ex AF_INET6 1%nat host port)) as [c1|e1];
      try destruct (c1 =? 0); try destruct (isinstance e1 OSError);
      destruct (sock_error (connect_ex AF_INET 0%nat host port));
      destruct (sock_error (connect_ex AF_INET6 1%nat host port));
      destruct (sock_error (connect_ex AF_INET 2%nat host port));
      cbn [fst app];
      match goal with
      | |- exists keep, ?l = _ =>
          exists (fun a => existsb (fun b => (snd a =? snd b)%nat) l)
      end;
      reflexivity.
  - unfold _socket_connect, soft_failure. cbn [connect_loop].
    destruct (loop_body (connect_ex AF_INET 0%nat host port)) as [c0|e0];
      [destruct (Z.eqb_spec c0 0); subst
      |destruct (isinstance e0 OSError) eqn:?];
      destruct (loop_body (connect_ex AF_INET6 1%nat host port)) as [c1|e1];
      try (destruct (Z.eqb_spec c1 0); subst);
      try destruct (isinstance e1 OSError) eqn:?;
      cbn [fst snd negb];
      (split; [intros H; try discriminate H; auto 8
              |intros [H|[[H1 H2]|[H1 [H2 H3]]]];
               try discriminate; try congruence; auto]).
  - intros e. unfold _socket_connect, soft_failure, final_retry.
    cbn [connect_loop].
    destruct (loop_body (connect_ex AF_INET 0%nat host port)) as [c0|e0];
      [destruct (Z.eqb_spec c0 0); subst
      |destruct (isinstance e0 OSError) eqn:?];
      destruct (loop_body (connect_ex AF_INET6 1%nat host port)) as [c1|e1];
      try (destruct (Z.eqb_spec c1 0); subst);
      try destruct (isinstance e1 OSError) eqn:?;
      destruct (sock_error (connect_ex AF_INET 2%nat host port));
      destruct (close_error (connect_ex AF_INET 2%nat host port));
      destruct (connect_result (connect_ex AF_INET 2%nat host port));
      cbn [fst snd negb];
      (split;
       [intros H; try discriminate H; inversion H; subst; auto 10
       |intros [[Hos [H|[H1 H2]]]|[H1 [H2 [H3|[H3 H4]]]]];
        try discriminate; try congruence]).
  - intros H0 H1 Hs Hc. unfold _socket_connect, final_retry.
    unfold soft_failure in H0, H1. cbn [connect_loop].
    destruct (loop_body (connect_ex AF_INET 0%nat host port)) as [c0|e0];
      [destruct (c0 =? 0); [discriminate|]|rewrite H0];
      (destruct (loop_body (connect_ex AF_INET6 1%nat host port)) as [c1|e1];
       [destruct (c1 =? 0); [discriminate|]|rewrite H1]);
      cbn [snd]; rewrite Hs, Hc;
      now destruct (connect_result (connect_ex AF_INET 2%nat host port)).
Qed.

(** X4.  In the dictionary built by [_check_socket_connection] the keys
    agree: [connected] is true exactly when [_socket_connect] returned 0,
    which is exactly when there is no ['error'] key; an error text is never
    empty, so the caller's truth test sees every failure; and the elapsed
    time is recorded unless the probe raised. *)
Theorem socket_result_consistent (connect_ex : connect_oracle) (elapsed : Z)
  (host : string) (port : Z) (sr : socket_result) :
  snd (_check_socket_connection connect_ex elapsed host port) = inl sr ->
  (connected sr = true
   <-> snd (_socket_connect connect_ex host port) = inl 0)
  /\ (connected sr = true <-> error sr = None)
  /\ (forall err, error sr = Some err -> err <> EmptyString)
  /\ ((exists code, snd (_socket_connect connect_ex host port) = inl code) ->
      sock_time sr = elapsed).
Proof.
  unfold _check_socket_connection.
  destruct (_socket_connect connect_ex host port) as [log [code|e]];
    cbn [fst snd].
  - destruct (Z.eqb_spec code 0) as [->|Hne]; cbn [negb];
      intros H; inversion H; subst; cbn.
    + repeat split; auto; try discriminate.
    + repeat split; try discriminate; auto.
      * intros H0. inversion H0. contradiction.
      * intros err Herr. inversion Herr. discriminate.
  - destruct (isinstance e Exception); [|discriminate].
    intros H; inversion H; subst; cbn.
    repeat split; try discriminate.
    + intros err Herr. inversion Herr. discriminate.
    + intros [code Hc]. discriminate.
Qed.

Lemma socket_result_consistent_witness :
  (false = true
   <-> snd (_socket_connect (connect_ex dead_world) "1.2.3.4" 8080) = inl 0)
  /\ (false = true <-> Some "Connection error (code: 111)" = None)
  /\ (forall err,
        Some "Connection error (code: 111)" = Some err -> err <> EmptyString)
  /\ ((exists code,
         snd (_socket_connect (connect_ex dead_world) "1.2.3.4" 8080)
         = inl code) -> 3 = 3).
Proof.
  exact (socket_result_consistent (connect_ex dead_world) 3 "1.2.3.4" 8080
           {| connected := false; sock_time := 3;
              error := Some "Connection error (code: 111)" |} eq_refl).
Defined.

(* ================================================================== *)
(** * Further properties of the per-candidate probe *)
(* ================================================================== *)

(** The enrichment writes the two optional keys only. *)
Lemma enrich_anonymity_frame (v : pyval) (r : probe_result) :
  protocol (enrich_anonymity v r) = protocol r
  /\ working (enrich_anonymity v r) = working r
  /\ status (enrich_anonymity v r) = status r
  /\ time (enrich_anonymity v r) = time r
  /\ ip (enrich_anonymity v r) = ip r.
Proof.
  unfold enrich_anonymity.
  destruct v as [| | | | |d]; try (repeat split; reflexivity).
  destruct (match dict_get d "headers" with Some h => h | None => PyDict [] end);
    try (repeat split; reflexivity).
  repeat match goal with |- context [if ?b then _ else _] => destruct b end;
    repeat split; reflexivity.
Qed.

Lemma enrich_frame (v : pyval) (r : probe_result) :
  protocol (enrich v r) = protocol r
  /\ working (enrich v r) = working r
  /\ status (enrich v r) = status r
  /\ time (enrich v r) = time r.
Proof.
  unfold enrich.
  destruct (py_in "origin" v) as [[|]|]; try (repeat split; reflexivity).
  - destruct v as [| | | | |d]; try (repeat split; reflexivity).
    destruct (dict_get d "origin") as [[| | |s| |]|];
      try (repeat split; reflexivity).
    destruct (enrich_anonymity_frame (PyDict d)
                (set_ip (PyStr (Py.strip (hd EmptyString (Py.split "," s)))) r))
      as (-> & -> & -> & -> & _).
    repeat split; reflexivity.
  - destruct (py_in "query" v) as [[|]|]; try (repeat split; reflexivity).
    + destruct v as [| | | | |d]; try (repeat split; reflexivity).
      destruct (dict_get d "query") as [q|]; try (repeat split; reflexivity).
      destruct (enrich_anonymity_frame (PyDict d) (set_ip q r))
        as (-> & -> & -> & -> & _).
      repeat split; reflexivity.
    + destruct (enrich_anonymity_frame v r) as (-> & -> & -> & -> & _).
      repeat split; reflexivity.
Qed.

(** X5.  Once a response with a status below 500 has
    arrived, nothing that happens while its body is read changes the
    verdict: whatever the content type, whatever JSON document the body
    holds, and whatever [Exception] the reading raises (a timeout
    included), the probe returns "working" with the elapsed time and the
    status text made from it. *)
Theorem enrichment_never_downgrades (elapsed : Z) (resp : response)
  (proxy test_url proto : string) :
  resp_status resp < 500 ->
  match resp_body resp with
  | BodyJson _ => True
  | BodyRaised e => isinstance e Exception = true
  end ->
  exists r,
    _test_proxy {| session_error := None; request := Responded elapsed resp |}
      proxy test_url proto = inl r
    /\ protocol r = proto
    /\ working r = PyBool true
    /\ status r = "✅ Working (" ++ format_2f elapsed ++ "s)"
    /\ time r = elapsed.
Proof.
  intros Hs Hbody. unfold _test_proxy. cbn [session_error request].
  apply Z.ltb_lt in Hs. rewrite Hs.
  destruct (Py.contains "application/json" (resp_content_type resp)).
  - destruct (resp_body resp) as [v|e].
    + eexists. split; [reflexivity|].
      match goal with
      | |- context [enrich v ?r0] =>
          destruct (enrich_frame v r0) as (-> & -> & -> & ->)
      end.
      repeat split; reflexivity.
    + rewrite Hbody.
      destruct (isinstance e TimeoutError);
        eexists; (split; [reflexivity|repeat split; reflexivity]).
  - eexists. split; [reflexivity|repeat split; reflexivity].
Qed.

Lemma enrichment_never_downgrades_witness :
  (exists r,
     _test_proxy (responding 730 404 "application/json; charset=utf-8"
                    (BodyJson (PyList [PyInt 1])))
       "http://1.2.3.4:8080" "http://httpbin.org/get" "HTTP" = inl r
     /\ protocol r = "HTTP"
     /\ working r = PyBool true
     /\ status r = "✅ Working (0.73s)"
     /\ time r = 730)
  /\ (exists r,
        _test_proxy (responding 15 200 "application/json"
                       (BodyRaised EXC_WAIT_TIMEOUT))
          "http://1.2.3.4:8080" "https://httpbin.org/get" "HTTPS" = inl r
        /\ protocol r = "HTTPS"
        /\ working r = PyBool true
        /\ status r = "✅ Working (0.01s)"
        /\ time r = 15).
Proof.
  split.
  - refine (enrichment_never_downgrades 730
              {| resp_status := 404;
                 resp_content_type := "application/json; charset=utf-8";
                 resp_body := BodyJson (PyList [PyInt 1]) |}
              "http://1.2.3.4:8080" "http://httpbin.org/get" "HTTP" _ _).
    + reflexivity.
    + exact I.
  - refine (enrichment_never_downgrades 15
              {| resp_status := 200;
                 resp_content_type := "application/json";
                 resp_body := BodyRaised EXC_WAIT_TIMEOUT |}
              "http://1.2.3.4:8080" "https://httpbin.org/get" "HTTPS" _ _).
    + reflexivity.
    + reflexivity.
Defined.

Lemma handlers_keep_exceptions (e e' : exn) (r : probe_result) :
  request_handlers e r = inr e' ->
  e' = e /\ isinstance e Exception = false
  /\ isinstance e CancelledError = false.
Proof.
  unfold request_handlers, outer_handler.
  repeat match goal with
         | |- context [if isinstance e ?c then _ else _] =>
             destruct (isinstance e c) eqn:?
         end; try discriminate.
  intros H; inversion H; auto.
Qed.

(** X6.  [_test_proxy] never lets an [Exception] out: what
    escapes the coroutine is not an instance of [Exception].  Once the
    session exists, a cancellation does not escape either: it is caught by
    the handler chain and comes back as an ordinary result. *)
Theorem probe_swallows_exceptions (run : probe_run)
  (proxy test_url protocol : string) (e : exn) :
  _test_proxy run proxy test_url protocol = inr e ->
  isinstance e Exception = false
  /\ (session_error run = None -> isinstance e CancelledError = false).
Proof.
  unfold _test_proxy, outer_handler.
  destruct run as [[e0|] rq]; cbn [session_error request].
  - destruct (isinstance e0 Exception) eqn:He; [discriminate|].
    intros H; inversion H; subst. split; [assumption|discriminate].
  - destruct rq as [elapsed resp|e0].
    + destruct (resp_status resp <? 500); [|discriminate].
      destruct (Py.contains "application/json" (resp_content_type resp));
        [|discriminate].
      destruct (resp_body resp) as [v|e0]; [discriminate|].
      destruct (isinstance e0 TimeoutError); [discriminate|].
      destruct (isinstance e0 Exception); [discriminate|].
      intros H. apply handlers_keep_exceptions in H.
      destruct H as (-> & H1 & H2). auto.
    + destruct (isinstance e0 TimeoutError); [discriminate|].
      intros H. apply handlers_keep_exceptions in H.
      destruct H as (-> & H1 & H2). auto.
Qed.

Lemma probe_swallows_exceptions_witness :
  isinstance {| exc_type := CancelledError; exc_msg := "" |} Exception = false
  /\ (Some {| exc_type := CancelledError; exc_msg := "" |} = None ->
      isinstance {| exc_type := CancelledError; exc_msg := "" |} CancelledError
      = false).
Proof.
  exact (probe_swallows_exceptions
           {| session_error := Some {| exc_type := CancelledError;
                                       exc_msg := "" |};
              request := RequestRaised {| exc_type := TimeoutError;
                                          exc_msg := "" |} |}
           "http://1.2.3.4:8080" "http://example.com" "HTTP"
           {| exc_type := CancelledError; exc_msg := "" |} eq_refl).
Defined.

Lemma outer_handler_sets_status (e : exn) (r r' : probe_result) :
  outer_handler e r = inl r' -> exists s, r' = set_status s r.
Proof.
  unfold outer_handler. destruct (isinstance e Exception); [|discriminate].
  intros H; inversion H. eexists; reflexivity.
Qed.

Lemma request_handlers_set_status (e : exn) (r r' : probe_result) :
  request_handlers e r = inl r' -> exists s, r' = set_status s r.
Proof.
  unfold request_handlers.
  repeat match goal with
         | |- context [if isinstance e ?c then _ else _] =>
             destruct (isinstance e c)
         end;
    try (intros H; inversion H; eexists; reflexivity).
  apply outer_handler_sets_status.
Qed.

(** X7.  A probe that returns is "working" exactly when a
    response arrived with a status code below 500; its result always
    carries the label of the protocol it was asked to test, and a result
    that is not "working" never carries a detected IP or an anonymity
    level. *)
Theorem probe_verdict (run : probe_run) (proxy test_url proto : string)
  (r : probe_result) :
  _test_proxy run proxy test_url proto = inl r ->
  (truthy (working r) = true
   <-> session_error run = None
       /\ exists elapsed resp,
            request run = Responded elapsed resp /\ resp_status resp < 500)
  /\ protocol r = proto
  /\ (truthy (working r) = false -> ip r = None /\ anonymity r = None).
Proof.
  intros H. split; [exact (probe_working_iff run proxy test_url proto r H)|].
  revert H. unfold _test_proxy.
  destruct run as [[e0|] rq]; cbn [session_error request].
  - intros H. apply outer_handler_sets_status in H. destruct H as [s ->].
    cbn. auto.
  - destruct rq as [elapsed resp|e0].
    + destruct (resp_status resp <? 500).
      * destruct (Py.contains "application/json" (resp_content_type resp)).
        -- destruct (resp_body resp) as [v|e0].
           ++ intros H; inversion H; subst.
              match goal with
              | |- context [enrich v ?r0] =>
                  destruct (enrich_frame v r0) as (-> & -> & _)
              end.
              cbn. split; [reflexivity|discriminate].
           ++ destruct (isinstance e0 TimeoutError);
                [intros H; inversion H; subst; cbn;
                 split; [reflexivity|discriminate]|].
              destruct (isinstance e0 Exception);
                [intros H; inversion H; subst; cbn;
                 split; [reflexivity|discriminate]|].
              intros H. apply request_handlers_set_status in H.
              destruct H as [s ->]. cbn. split; [reflexivity|discriminate].
        -- intros H; inversion H; subst; cbn.
           split; [reflexivity|discriminate].
      * intros H; inversion H; subst; cbn. auto.
    + destruct (isinstance e0 TimeoutError).
      * intros H; inversion H; subst; cbn. auto.
      * intros H. apply request_handlers_set_status in H.
        destruct H as [s ->]. cbn. auto.
Qed.

Lemma probe_verdict_witness :
  (truthy (PyBool false) = true
   <-> session_error (responding 12000 503 "text/html" (BodyJson PyNone)) = None
       /\ exists elapsed resp,
            request (responding 12000 503 "text/html" (BodyJson PyNone))
            = Responded elapsed resp /\ resp_status resp < 500)
  /\ "HTTP" = "HTTP"
  /\ (truthy (PyBool false) = false ->
      @None pyval = None /\ @None string = None).
Proof.
  exact (probe_verdict (responding 12000 503 "text/html" (BodyJson PyNone))
           "http://1.2.3.4:8080" "http://example.com" "HTTP"
           {| protocol := "HTTP"; working := PyBool false;
              status := "❌ HTTP 503"; time := 12000;
              ip := None; anonymity := None |} eq_refl).
Defined.

(** ** The detected IP *)

Lemma lstrip_free (c : ascii) (s : string) :
  Py.has_char c s = false -> Py.has_char c (Py.lstrip s) = false.
Proof.
  induction s as [|a s IH]; [reflexivity|].
  cbn [Py.lstrip]. destruct (Py.isspace a); [|trivial].
  cbn [Py.has_char]. intros H. apply orb_false_iff in H. now apply IH.
Qed.

Lemma rstrip_free (c : ascii) (s : string) :
  Py.has_char c s = false -> Py.has_char c (Py.rstrip s) = false.
Proof.
  induction s as [|a s IH]; [reflexivity|].
  cbn [Py.has_char Py.rstrip]. intros H. apply orb_false_iff in H.
  destruct H as [Ha Hs]. specialize (IH Hs).
  destruct (Py.rstrip s) eqn:Hr.
  - destruct (Py.isspace a); cbn; [reflexivity|now rewrite Ha].
  - cbn [Py.has_char] in *. now rewrite Ha.
Qed.

Lemma rstrip_idempotent (s : string) : Py.rstrip (Py.rstrip s) = Py.rstrip s.
Proof.
  induction s as [|a s IH]; [reflexivity|].
  cbn [Py.rstrip]. destruct (Py.rstrip s) as [|b t] eqn:Hr.
  - destruct (Py.isspace a) eqn:Ha; [reflexivity|].
    cbn [Py.rstrip]. now rewrite Ha.
  - cbn [Py.rstrip]. cbn [Py.rstrip] in IH.
    destruct (match Py.rstrip t with
              | EmptyString =>
                  if Py.isspace b then EmptyString else String b EmptyString
              | String a0 s0 => String b (String a0 s0)
              end) eqn:Hm; [discriminate|].
    now inversion IH.
Qed.

Lemma lstrip_head (s : string) :
  Py.lstrip s = EmptyString
  \/ exists a t, Py.lstrip s = String a t /\ Py.isspace a = false.
Proof.
  induction s as [|a s IH]; [now left|].
  cbn [Py.lstrip]. destruct (Py.isspace a) eqn:Ha; [exact IH|].
  right. now exists a, s.
Qed.

Lemma rstrip_keeps_head (a : ascii) (t : string) :
  Py.isspace a = false -> exists t', Py.rstrip (String a t) = String a t'.
Proof.
  intros Ha. cbn [Py.rstrip]. destruct (Py.rstrip t).
  - rewrite Ha. now eexists.
  - now eexists.
Qed.

Lemma strip_idempotent (s : string) : Py.strip (Py.strip s) = Py.strip s.
Proof.
  unfold Py.strip.
  destruct (lstrip_head s) as [->|(a & t & -> & Ha)]; [reflexivity|].
  destruct (rstrip_keeps_head a t Ha) as [t' Ht]. rewrite Ht.
  cbn [Py.lstrip]. rewrite Ha, <- Ht. apply rstrip_idempotent.
Qed.

Lemma enrich_anonymity_ip (v : pyval) (r : probe_result) :
  ip (enrich_anonymity v r) = ip r.
Proof. now destruct (enrich_anonymity_frame v r) as (_ & _ & _ & _ & ->). Qed.

(** X8.  When the JSON body is an object whose [origin] is a
    string, the detected IP is the part of that string before its first
    comma, with the blanks around it removed: it holds no comma and has no
    blank at either end, whatever the rest of the body holds. *)
Theorem detected_ip_is_first_origin (d : list (string * pyval))
  (s : string) (result : probe_result) :
  dict_get d "origin" = Some (PyStr s) ->
  exists x,
    ip (enrich (PyDict d) result) = Some (PyStr x)
    /\ x = Py.strip (hd EmptyString (Py.split "," s))
    /\ Py.has_char "," x = false
    /\ Py.strip x = x.
Proof.
  intros Ho. unfold enrich, py_in, dict_has. rewrite Ho.
  exists (Py.strip (hd EmptyString (Py.split "," s))).
  split; [now rewrite enrich_anonymity_ip|].
  split; [reflexivity|]. split; [|apply strip_idempotent].
  unfold Py.strip. apply rstrip_free, lstrip_free.
  pose proof (split_fields_free "," s) as Hfree.
  destruct (Py.split "," s); [reflexivity|].
  now inversion Hfree.
Qed.

Lemma detected_ip_is_first_origin_witness :
  exists x,
    ip (enrich (PyDict [("origin", PyStr " 203.0.113.5 , 10.0.0.1")])
          (default_result "HTTP")) = Some (PyStr x)
    /\ x = Py.strip (hd EmptyString
                       (Py.split "," " 203.0.113.5 , 10.0.0.1"))
    /\ Py.has_char "," x = false
    /\ Py.strip x = x.
Proof.
  exact (detected_ip_is_first_origin
           [("origin", PyStr " 203.0.113.5 , 10.0.0.1")]
           " 203.0.113.5 , 10.0.0.1" (default_result "HTTP") eq_refl).
Defined.

(* ================================================================== *)
(** * Further properties of the fallback tester *)
(* ================================================================== *)

Lemma probe_duration_bounds (t : transport) :
  0 <= probe_duration t <= REQUEST_TIMEOUT + BODY_TIMEOUT.
Proof.
  unfold probe_duration, REQUEST_TIMEOUT, BODY_TIMEOUT.
  destruct (session_error (net_run t)); [lia|].
  destruct (request (net_run t)) as [elapsed resp|e]; [|lia].
  destruct (Z.ltb_spec elapsed 18000); [|lia].
  destruct (reads_body resp); lia.
Qed.

Lemma gather_finish_bound (bound : Z) (tasks : list candidate) :
  0 <= bound ->
  Forall (fun c => finish c <= bound) tasks ->
  gather_finish tasks <= bound.
Proof.
  intros Hb. unfold gather_finish.
  induction 1 as [|c tasks Hc _ IH]; simpl; lia.
Qed.

Lemma tester_gather_in_time (w : world) (proxy : string)
  (test_urls : list string) (proto : string) :
  gather_finish (map (fun url => test_proxy_task w proxy url proto) test_urls)
  <= REQUEST_TIMEOUT + BODY_TIMEOUT.
Proof.
  apply gather_finish_bound; [unfold REQUEST_TIMEOUT, BODY_TIMEOUT; lia|].
  apply Forall_map, Forall_forall. intros url _.
  unfold test_proxy_task. cbn [finish].
  apply probe_duration_bounds.
Qed.

(** X9.  The per-protocol ceiling of 27 s is never
    reached.  Every candidate that a tester starts is [_test_proxy], which
    waits at most 18 s for the response and then at most 2 s for the body;
    so the gather of the candidates is complete after at most 20 s, the
    timeout handler of the tester (the one that calls [done()] on
    coroutine objects) does not run, and the tester returns the outcome of
    the scan of the candidates' results at the instant the slowest
    candidate ends. *)
Theorem tester_ceiling_is_never_reached (w : world) (proxy : string)
  (test_urls : list string) (proto : string) :
  let tasks := map (fun url => test_proxy_task w proxy url proto) test_urls in
  Forall (fun c => 0 <= finish c <= 20000) tasks
  /\ gather_finish tasks <= 20000
  /\ gather_finish tasks < PROTOCOL_TIMEOUT
  /\ PROTOCOL_TIMEOUT = 27000
  /\ _test_proxy_with_fallbacks (test_proxy_task w) proxy test_urls proto
     = (gather_finish tasks,
        scan_results (map outcome tasks) (default_result proto)).
Proof.
  cbv zeta.
  pose proof (tester_gather_in_time w proxy test_urls proto) as Hg.
  change (REQUEST_TIMEOUT + BODY_TIMEOUT) with 20000 in Hg.
  assert (Hp : PROTOCOL_TIMEOUT = 27000) by reflexivity.
  repeat split; try lia.
  - apply Forall_map, Forall_forall. intros url _.
    unfold test_proxy_task. cbn [finish].
    pose proof (probe_duration_bounds (probe_net w proxy url proto)) as H.
    change (REQUEST_TIMEOUT + BODY_TIMEOUT) with 20000 in H. exact H.
  - unfold _test_proxy_with_fallbacks.
    assert (Hlt : (gather_finish
                     (map (fun url => test_proxy_task w proxy url proto)
                        test_urls) <? PROTOCOL_TIMEOUT) = true)
      by (apply Z.ltb_lt; lia).
    now rewrite Hlt.
Qed.

Lemma scan_results_returned (results : list (probe_result + exn)) :
  forall last_result r,
    truthy (working last_result) = false ->
    scan_results results last_result = inl r ->
    (r = last_result \/ In (inl r) results)
    /\ (truthy (working r) = true -> In (inl r) results)
    /\ (truthy (working r) = false -> Forall quiet results).
Proof.
  induction results as [|[x|e] results IH]; intros last_result r Hlast H;
    cbn [scan_results] in H.
  - inversion H; subst. split; [now left|]. split; [congruence|constructor].
  - destruct (truthy (working x)) eqn:Hx.
    + inversion H; subst. split; [right; now left|].
      split; [intros _; now left|congruence].
    + destruct (IH x r Hx H) as (Hprov & Hwork & Hquiet).
      split; [right; destruct Hprov as [->|Hin]; [now left|now right]|].
      split; [intros Hw; right; auto|].
      intros Hw. constructor; [exact Hx|auto].
  - destruct (isinstance e Exception) eqn:He; [|discriminate].
    destruct (IH last_result r Hlast H) as (Hprov & Hwork & Hquiet).
    split; [destruct Hprov as [->|Hin]; [now left|right; now right]|].
    split; [intros Hw; right; auto|].
    intros Hw. constructor; [exact He|auto].
Qed.

(** X10.  A tester that returns does so when its slowest
    candidate completes, before the ceiling, and it makes nothing up: the
    returned dictionary is the default "not working" one or the result of
    one of the candidates.  A "working" result is always a candidate's
    result, and a result that is not "working" means that no candidate
    returned a working one: a success that arrives in time is never
    missed. *)
Theorem tester_reports_candidates_faithfully
  (probe : string -> string -> string -> candidate)
  (proxy : string) (test_urls : list string) (proto : string)
  (t : Z) (r : probe_result) :
  _test_proxy_with_fallbacks probe proxy test_urls proto = (t, inl r) ->
  let tasks := map (fun u => probe proxy u proto) test_urls in
  (t = gather_finish tasks /\ 0 <= t < PROTOCOL_TIMEOUT)
  /\ (r = default_result proto
      \/ exists url,
           In url test_urls /\ outcome (probe proxy url proto) = inl r)
  /\ (truthy (working r) = true ->
      exists url, In url test_urls /\ outcome (probe proxy url proto) = inl r)
  /\ (truthy (working r) = false ->
      forall url,
        In url test_urls -> quiet (outcome (probe proxy url proto))).
Proof.
  intros H tasks. unfold _test_proxy_with_fallbacks in H. fold tasks in H.
  destruct (gather_finish tasks <? PROTOCOL_TIMEOUT) eqn:Hfast.
  2:{ unfold tasks in *. destruct test_urls;
        [vm_compute in Hfast; discriminate|inversion H]. }
  injection H as Ht Hscan.
  apply Z.ltb_lt in Hfast.
  pose proof (gather_finish_nonneg tasks) as Hpos.
  assert (Hin : forall x, In (inl x) (map outcome tasks) ->
                          exists url, In url test_urls
                                      /\ outcome (probe proxy url proto) = inl x).
  { intros x Hx. unfold tasks in Hx. rewrite map_map in Hx.
    apply in_map_iff in Hx. destruct Hx as (url & Hout & Hurl). eauto. }
  destruct (scan_results_returned (map outcome tasks) (default_result proto) r
              eq_refl Hscan) as (Hprov & Hwork & Hquiet).
  split; [split; [now symmetry|lia]|].
  split; [destruct Hprov as [->|Hx]; [now left|right; now apply Hin]|].
  split; [intros Hw; apply Hin; now apply Hwork|].
  intros Hw url Hurl. specialize (Hquiet Hw).
  rewrite Forall_forall in Hquiet. apply Hquiet.
  unfold tasks. rewrite map_map.
  apply in_map_iff. exists url. split; [reflexivity|exact Hurl].
Qed.

Lemma tester_reports_candidates_faithfully_witness :
  let probe := test_proxy_task sample_world in
  let r := {| protocol := "HTTPS"; working := PyBool false;
              status := "❌ Request Timeout"; time := 0;
              ip := None; anonymity := None |} in
  let tasks :=
    map (fun u => probe "http://1.2.3.4:8080" u "HTTPS") HTTPS_URLS in
  (9000 = gather_finish tasks /\ 0 <= 9000 < PROTOCOL_TIMEOUT)
  /\ (r = default_result "HTTPS"
      \/ exists url,
           In url HTTPS_URLS
           /\ outcome (probe "http://1.2.3.4:8080" url "HTTPS") = inl r)
  /\ (truthy (working r) = true ->
      exists url,
        In url HTTPS_URLS
        /\ outcome (probe "http://1.2.3.4:8080" url "HTTPS") = inl r)
  /\ (truthy (working r) = false ->
      forall url,
        In url HTTPS_URLS ->
        quiet (outcome (probe "http://1.2.3.4:8080" url "HTTPS"))).
Proof.
  exact (tester_reports_candidates_faithfully (test_proxy_task sample_world)
           "http://1.2.3.4:8080" HTTPS_URLS "HTTPS" 9000
           {| protocol := "HTTPS"; working := PyBool false;
              status := "❌ Request Timeout"; time := 0;
              ip := None; anonymity := None |} eq_refl).
Defined.

(* ================================================================== *)
(** * Further properties of [check_proxy] *)
(* ================================================================== *)

Lemma check_proxy_same_events (w : world) (proxy_str : string)
  (username : option string) :
  fst (check_proxy w proxy_str username)
  = fst (ProxyChecker.check_proxy w proxy_str username).
Proof.
  unfold check_proxy.
  destruct (ProxyChecker.check_proxy w proxy_str username) as [ev [o|e]];
    [reflexivity|].
  destruct (isinstance e Exception); reflexivity.
Qed.

(** X11.  The network operations of one check always come in the
    same order: the connection attempts of the socket probe, then at most
    one RapidAPI request, then either nothing or all twelve candidate
    probes.  A RapidAPI request or a candidate probe is started only for an
    endpoint that parsed and whose socket probe returned 0.  The request is
    not a condition of the probes: when the session for it cannot be
    created, the twelve probes follow the socket probe directly. *)
Theorem network_operations_in_stages (w : world) (proxy_str : string)
  (username : option string) :
  (exists connects api probes,
     fst (check_proxy w proxy_str username) = (connects ++ api ++ probes)%list
     /\ Forall is_connect connects
     /\ (api = [] \/ exists host port, api = [EvApiPost host port])
     /\ Forall is_probe probes
     /\ (probes = [] \/ length probes = FALLBACK_PROBES)
     /\ (api <> [] \/ probes <> [] ->
         exists host port auth,
           _parse_proxy_string proxy_str = inl (host, port, auth)
           /\ snd (_socket_connect (connect_ex w) host port) = inl 0))
  /\ (forall host port auth e,
        _parse_proxy_string proxy_str = inl (host, port, auth) ->
        _validate_ip_port host port = None ->
        snd (_socket_connect (connect_ex w) host port) = inl 0 ->
        api_post w host port auth = ApiSessionRaised e ->
        isinstance e Exception = true ->
        fst (check_proxy w proxy_str username)
        = (map (fun a => EvConnect (fst a) host port)
             (fst (_socket_connect (connect_ex w) host port))
           ++ fst (manual_testing w proxy_str host port auth
                     (connect_elapsed w) username))%list
        /\ length (fst (manual_testing w proxy_str host port auth
                          (connect_elapsed w) username)) = FALLBACK_PROBES).
Proof.
  rewrite check_proxy_same_events. split.
  - exact (check_proxy_stages w proxy_str username).
  - intros host port auth e Hparse Hvalid Hsock Hresp He.
    assert (Hv : rapidapi_verdict (api_post w host port auth) = UseFallback).
    { rewrite Hresp. unfold rapidapi_verdict. now rewrite He. }
    rewrite (unusable_api_falls_back w proxy_str username host port auth
               Hparse Hvalid Hsock Hv).
    rewrite Hresp. cbn [fst api_requested app].
    split; [reflexivity|apply fallback_launches_all_probes].
Qed.

(** X12.  When RapidAPI gives a usable answer the fallback is
    not touched: the check makes the socket probe and the one request,
    starts no candidate probe, and returns the report built from the four
    results of the answer and the connection time of the socket probe. *)
Theorem usable_answer_skips_fallback (w : world) (proxy_str : string)
  (username : option string) (host : string) (port : Z)
  (auth : option BasicAuth)
  (http_result https_result socks4_result socks5_result : probe_result) :
  _parse_proxy_string proxy_str = inl (host, port, auth) ->
  _validate_ip_port host port = None ->
  snd (_socket_connect (connect_ex w) host port) = inl 0 ->
  rapidapi_verdict (api_post w host port auth)
  = Usable http_result https_result socks4_result socks5_result ->
  check_proxy w proxy_str username
  = ((map (fun a => EvConnect (fst a) host port)
        (fst (_socket_connect (connect_ex w) host port))
      ++ [EvApiPost host port])%list,
     inl (Rendered (_format_response proxy_str (connect_elapsed w)
                      http_result https_result socks4_result socks5_result
                      username)))
  /\ Forall (fun ev => ~ is_probe ev) (fst (check_proxy w proxy_str username)).
Proof.
  intros Hparse Hvalid Hsock Hapi.
  assert (Heq : check_proxy w proxy_str username
                = ((map (fun a => EvConnect (fst a) host port)
                      (fst (_socket_connect (connect_ex w) host port))
                    ++ [EvApiPost host port])%list,
                   inl (Rendered (_format_response proxy_str
                                    (connect_elapsed w) http_result
                                    https_result socks4_result socks5_result
                                    username)))).
  { unfold check_proxy.
    now rewrite (usable_api_reports w proxy_str username host port auth
                   http_result https_result socks4_result socks5_result
                   Hparse Hvalid Hsock Hapi). }
  split; [exact Heq|]. rewrite Heq. cbn [fst].
  apply Forall_app. split.
  - apply Forall_map, Forall_forall. intros a _ H. exact H.
  - repeat constructor. intros H. exact H.
Qed.

Lemma usable_answer_skips_fallback_witness :
  check_proxy answering_world "203.0.113.5:3128" None
  = ((map (fun a => EvConnect (fst a) "203.0.113.5" 3128)
        (fst (_socket_connect (connect_ex answering_world)
                "203.0.113.5" 3128))
      ++ [EvApiPost "203.0.113.5" 3128])%list,
     inl (Rendered
            (_format_response "203.0.113.5:3128"
               (connect_elapsed answering_world)
               (api_protocol_result
                  [("isHttpProxyValid", PyBool true)] "HTTP"
                  "isHttpProxyValid" 310)
               (api_protocol_result [] "HTTPS" "isHttpsProxyValid" 310)
               (api_protocol_result [] "SOCKS4" "isSocks4ProxyValid" 310)
               (api_protocol_result [] "SOCKS5" "isSocks5ProxyValid" 310)
               None)))
  /\ Forall (fun ev => ~ is_probe ev)
       (fst (check_proxy answering_world "203.0.113.5:3128" None)).
Proof.
  refine (usable_answer_skips_fallback answering_world "203.0.113.5:3128"
            None "203.0.113.5" 3128 None _ _ _ _ _ _ _ _).
  - reflexivity.
  - reflexivity.
  - reflexivity.
  - reflexivity.
Defined.

(** ** The labels of a report *)

Lemma probe_label (run : probe_run) (proxy test_url proto : string)
  (r : probe_result) :
  _test_proxy run proxy test_url proto = inl r -> protocol r = proto.
Proof.
  unfold _test_proxy.
  destruct run as [[e0|] rq]; cbn [session_error request].
  - intros H. apply outer_handler_sets_status in H. now destruct H as [s ->].
  - destruct rq as [elapsed resp|e0].
    + destruct (resp_status resp <? 500).
      * destruct (Py.contains "application/json" (resp_content_type resp)).
        -- destruct (resp_body resp) as [v|e0].
           ++ intros H; inversion H; subst.
              match goal with
              | |- context [enrich v ?r0] =>
                  now destruct (enrich_frame v r0) as (-> & _)
              end.
           ++ destruct (isinstance e0 TimeoutError);
                [intros H; now inversion H|].
              destruct (isinstance e0 Exception);
                [intros H; now inversion H|].
              intros H. apply request_handlers_set_status in H.
              now destruct H as [s ->].
        -- intros H; now inversion H.
      * intros H; now inversion H.
    + destruct (isinstance e0 TimeoutError); [intros H; now inversion H|].
      intros H. apply request_handlers_set_status in H.
      now destruct H as [s ->].
Qed.

Lemma tester_label (w : world) (proxy : string) (urls : list string)
  (proto : string) (r : probe_result) :
  snd (_test_proxy_with_fallbacks (test_proxy_task w) proxy urls proto)
  = inl r ->
  protocol r = proto.
Proof.
  unfold _test_proxy_with_fallbacks.
  destruct (gather_finish _ <? PROTOCOL_TIMEOUT); cbn [snd].
  - intros H.
    destruct (scan_results_returned _ (default_result proto) r eq_refl H)
      as ([->|Hin] & _); [reflexivity|].
    rewrite map_map in Hin. apply in_map_iff in Hin.
    destruct Hin as (url & Hout & _). cbn in Hout.
    now apply probe_label in Hout.
  - destruct urls; cbn; intros H; inversion H. reflexivity.
Qed.

Lemma usable_labels (resp : api_outcome) (a b c d : probe_result) :
  rapidapi_verdict resp = Usable a b c d ->
  protocol a = "HTTP" /\ protocol b = "HTTPS"
  /\ protocol c = "SOCKS4" /\ protocol d = "SOCKS5".
Proof.
  unfold rapidapi_verdict.
  destruct resp as [e|e|elapsed st body].
  { destruct (isinstance e Exception); discriminate. }
  { destruct (isinstance e Exception); discriminate. }
  destruct ((200 <=? st) && (st <? 500)); [|discriminate].
  destruct body as [data|e].
  2:{ destruct (isinstance e Exception); discriminate. }
  destruct (truthy data); [|discriminate].
  destruct (select_result_data data) as [[| | | | |rd]|]; try discriminate.
  intros H; inversion H; subst. repeat split; reflexivity.
Qed.

Lemma format_response_labels (proxy_str : string) (connection_time : Z)
  (a b c d : probe_result) (username : option string) :
  protocol a = "HTTP" -> protocol b = "HTTPS" ->
  protocol c = "SOCKS4" -> protocol d = "SOCKS5" ->
  let rep := _format_response proxy_str connection_time a b c d username in
  sublist (working_protocols rep) PROTOCOLS
  /\ (working_protocols rep = []
      <-> truthy (working a) = false /\ truthy (working b) = false
          /\ truthy (working c) = false /\ truthy (working d) = false)
  /\ (In "HTTP" (working_protocols rep) <-> truthy (working a) = true)
  /\ (In "HTTPS" (working_protocols rep) <-> truthy (working b) = true)
  /\ (In "SOCKS4" (working_protocols rep) <-> truthy (working c) = true)
  /\ (In "SOCKS5" (working_protocols rep) <-> truthy (working d) = true).
Proof.
  intros Ha Hb Hc Hd. cbv zeta. unfold _format_response, PROTOCOLS.
  cbn [working_protocols filter].
  destruct (truthy (working a)), (truthy (working b)),
    (truthy (working c)), (truthy (working d));
    cbn [map]; rewrite ?Ha, ?Hb, ?Hc, ?Hd; cbn;
    repeat split; intros; try discriminate; try tauto;
    repeat match goal with
           | H : _ \/ _ |- _ => destruct H; try discriminate
           | H : _ /\ _ |- _ => destruct H; try discriminate
           | H : False |- _ => destruct H
           end; auto 8.
Qed.

(** X14.  A report is never partly filled.  Whenever
    [check_proxy] returns a report, through RapidAPI or through the
    fallback, the report is about the string that was given, carries one
    result for each of HTTP, HTTPS, SOCKS4 and SOCKS5 under its own label,
    and lists as working exactly the protocols whose result is truthy, in
    that fixed order; the list is empty exactly when none is. *)
Theorem report_is_fully_labelled (w : world) (proxy_str : string)
  (username : option string) (rep : report) :
  snd (check_proxy w proxy_str username) = inl (Rendered rep) ->
  rep_proxy_str rep = proxy_str
  /\ rep_username rep = username
  /\ map protocol [rep_http rep; rep_https rep; rep_socks4 rep; rep_socks5 rep]
     = PROTOCOLS
  /\ sublist (working_protocols rep) PROTOCOLS
  /\ (working_protocols rep = []
      <-> truthy (working (rep_http rep)) = false
          /\ truthy (working (rep_https rep)) = false
          /\ truthy (working (rep_socks4 rep)) = false
          /\ truthy (working (rep_socks5 rep)) = false)
  /\ (In "HTTP" (working_protocols rep)
      <-> truthy (working (rep_http rep)) = true)
  /\ (In "HTTPS" (working_protocols rep)
      <-> truthy (working (rep_https rep)) = true)
  /\ (In "SOCKS4" (working_protocols rep)
      <-> truthy (working (rep_socks4 rep)) = true)
  /\ (In "SOCKS5" (working_protocols rep)
      <-> truthy (working (rep_socks5 rep)) = true).
Proof.
  assert (Hbuild : forall ct a b c d,
             protocol a = "HTTP" -> protocol b = "HTTPS" ->
             protocol c = "SOCKS4" -> protocol d = "SOCKS5" ->
             rep = _format_response proxy_str ct a b c d username ->
             rep_proxy_str rep = proxy_str
             /\ rep_username rep = username
             /\ map protocol
                  [rep_http rep; rep_https rep; rep_socks4 rep; rep_socks5 rep]
                = PROTOCOLS
             /\ sublist (working_protocols rep) PROTOCOLS
             /\ (working_protocols rep = []
                 <-> truthy (working (rep_http rep)) = false
                     /\ truthy (working (rep_https rep)) = false
                     /\ truthy (working (rep_socks4 rep)) = false
                     /\ truthy (working (rep_socks5 rep)) = false)
             /\ (In "HTTP" (working_protocols rep)
                 <-> truthy (working (rep_http rep)) = true)
             /\ (In "HTTPS" (working_protocols rep)
                 <-> truthy (working (rep_https rep)) = true)
             /\ (In "SOCKS4" (working_protocols rep)
                 <-> truthy (working (rep_socks4 rep)) = true)
             /\ (In "SOCKS5" (working_protocols rep)
                 <-> truthy (working (rep_socks5 rep)) = true)).
  { intros ct a b c d Ha Hb Hc Hd ->.
    pose proof (format_response_labels proxy_str ct a b c d username
                  Ha Hb Hc Hd) as H.
    cbv zeta in H.
    split; [reflexivity|]. split; [reflexivity|].
    split; [cbn; now rewrite Ha, Hb, Hc, Hd|]. exact H. }
  unfold check_proxy, ProxyChecker.check_proxy.
  destruct (_parse_proxy_string proxy_str) as [[[host port] auth]|msg];
    [|discriminate].
  destruct (_validate_ip_port host port); [discriminate|].
  destruct (_check_socket_connection (connect_ex w) (connect_elapsed w)
              host port) as [log [sr|e]].
  2:{ cbn [snd]. destruct (isinstance e Exception); discriminate. }
  destruct (match error sr with
            | Some err => negb (String.eqb err EmptyString)
            | None => false
            end); [discriminate|].
  destruct (rapidapi_verdict (api_post w host port auth)) as [a b c d| |e]
    eqn:Hapi.
  - cbn [snd]. intros H; inversion H; subst.
    destruct (usable_labels _ _ _ _ _ Hapi) as (Ha & Hb & Hc & Hd).
    now apply (Hbuild (sock_time sr) a b c d).
  - unfold manual_testing.
    set (r1 := _test_proxy_with_fallbacks _ _ HTTP_URLS "HTTP").
    set (r2 := _test_proxy_with_fallbacks _ _ HTTPS_URLS "HTTPS").
    set (r3 := _test_proxy_with_fallbacks _ _ SOCKS4_URLS "SOCKS4").
    set (r4 := _test_proxy_with_fallbacks _ _ SOCKS5_URLS "SOCKS5").
    destruct (first_raised [r1; r2; r3; r4]) as [[t e]|].
    { cbn [snd]. destruct (isinstance e Exception); discriminate. }
    destruct (snd r1) as [a|e1] eqn:H1;
      [|cbn [snd]; discriminate].
    destruct (snd r2) as [b|e2] eqn:H2; [|cbn [snd]; discriminate].
    destruct (snd r3) as [c|e3] eqn:H3; [|cbn [snd]; discriminate].
    destruct (snd r4) as [d|e4] eqn:H4; [|cbn [snd]; discriminate].
    cbn [snd]. intros H; inversion H; subst.
    apply tester_label in H1, H2, H3, H4.
    now apply (Hbuild (sock_time sr) a b c d).
  - cbn [snd]. destruct (isinstance e Exception); discriminate.
Qed.

Lemma report_is_fully_labelled_witness :
  let rep :=
    _format_response "203.0.113.5:3128" 40
      (api_protocol_result [("isHttpProxyValid", PyBool true)] "HTTP"
         "isHttpProxyValid" 310)
      (api_protocol_result [] "HTTPS" "isHttpsProxyValid" 310)
      (api_protocol_result [] "SOCKS4" "isSocks4ProxyValid" 310)
      (api_protocol_result [] "SOCKS5" "isSocks5ProxyValid" 310) None in
  map protocol [rep_http rep; rep_https rep; rep_socks4 rep; rep_socks5 rep]
  = PROTOCOLS
  /\ (In "HTTP" (working_protocols rep)
      <-> truthy (working (rep_http rep)) = true).
Proof.
  destruct (report_is_fully_labelled answering_world "203.0.113.5:3128" None
              (_format_response "203.0.113.5:3128" 40
                 (api_protocol_result [("isHttpProxyValid", PyBool true)]
                    "HTTP" "isHttpProxyValid" 310)
                 (api_protocol_result [] "HTTPS" "isHttpsProxyValid" 310)
                 (api_protocol_result [] "SOCKS4" "isSocks4ProxyValid" 310)
                 (api_protocol_result [] "SOCKS5" "isSocks5ProxyValid" 310)
                 None) eq_refl)
    as (_ & _ & Hlabels & _ & _ & Hhttp & _).
  split; [exact Hlabels|exact Hhttp].
Defined.

(* ================================================================== *)
(** * Further properties of the batch orchestrator *)
(* ================================================================== *)

Lemma Forall2_seq_nth (R : nat -> entry -> Prop) (d : entry)
  (l : list entry) :
  forall s, Forall2 R (seq s (length l)) l ->
            forall k, (k < length l)%nat -> R (s + k)%nat (nth k l d).
Proof.
  induction l as [|x l IH]; intros s H k Hk; simpl in Hk; [lia|].
  cbn [length seq] in H. inversion H; subst.
  destruct k as [|k]; cbn [nth].
  - now rewrite Nat.add_0_r.
  - replace (s + S k)%nat with (S s + k)%nat by lia.
    apply IH; [assumption|lia].
Qed.

(** X15.  Once [initialize] has returned, for every list of
    endpoints that is not empty the orchestrator returns exactly one entry
    per endpoint, in the order of the input: the entry at each position is
    either the outcome of the check of the endpoint at that position, or
    the timeout message naming that endpoint, whatever the completion
    order and whichever sub-batch the position falls in. *)
Theorem every_endpoint_gets_its_entry (bw : batch_world)
  (proxy_list : list string) (username : option string) :
  initialize_raises bw = None ->
  proxy_list <> [] ->
  exists results,
    snd (check_multiple_proxies bw proxy_list username) = inl results
    /\ length results = length proxy_list
    /\ forall k d,
         (k < length proxy_list)%nat ->
         nth k results d = done_entry bw proxy_list username k
         \/ nth k results d = timeout_entry proxy_list k.
Proof.
  intros Hinit Hne.
  destruct (results_follow_input bw proxy_list username Hinit Hne)
    as (results & Hout & Hall & Hlen).
  exists results. split; [exact Hout|]. split; [exact Hlen|].
  intros k d Hk. rewrite <- Hlen in Hall, Hk.
  exact (Forall2_seq_nth (entry_for bw proxy_list username) d results 0%nat
           Hall k Hk).
Qed.

Lemma every_endpoint_gets_its_entry_witness :
  exists results,
    snd (check_multiple_proxies steady_batch eleven_proxies None) = inl results
    /\ length results = 11%nat
    /\ forall k d,
         (k < 11)%nat ->
         nth k results d = done_entry steady_batch eleven_proxies None k
         \/ nth k results d = timeout_entry eleven_proxies k.
Proof.
  exact (every_endpoint_gets_its_entry steady_batch eleven_proxies None
           eq_refl ltac:(discriminate)).
Defined.

Lemma fold_max_lt (now bound : Z) (l : list Z) :
  fold_right Z.max now l < bound <-> now < bound /\ Forall (fun x => x < bound) l.
Proof.
  induction l as [|x l IH]; cbn [fold_right].
  - split; [intros H; split; [exact H|constructor]|now intros [H _]].
  - rewrite Z.max_lub_lt_iff, IH. split.
    + intros (Hx & Hn & Hl). split; [exact Hn|now constructor].
    + intros (Hn & Hl). inversion Hl; subst. auto.
Qed.

Lemma single_start (n : nat) : (0 < n -> (n + n - 1) / n = 1)%nat.
Proof.
  intros Hn. symmetry.
  apply (Nat.div_unique (n + n - 1) n 1 (n - 1)); lia.
Qed.

Lemma collect_batch_slice_all (bw : batch_world) (proxy_list : list string)
  (username : option string) :
  collect_batch bw proxy_list username 0 (tasks_from 0 proxy_list)
  = map (done_entry bw proxy_list username) (seq 0 (length proxy_list)).
Proof.
  pose proof (collect_batch_slice bw proxy_list username
                (length proxy_list) 0) as Hc.
  cbv zeta in Hc. cbn [skipn] in Hc. now rewrite !firstn_all in Hc.
Qed.

(** X16.  Once [initialize] has returned, with at most ten
    endpoints there is one sub-batch, and it is all or nothing.  If every
    check completes before the 54 s ceiling, every entry is the outcome of
    its check.  If a single check is still running at the ceiling, every
    entry, also those of the checks that had completed, is the timeout
    message for its endpoint. *)
Theorem one_late_check_times_out_the_batch (bw : batch_world)
  (proxy_list : list string) (username : option string) :
  initialize_raises bw = None ->
  (1 <= length proxy_list <= 10)%nat ->
  let n := length proxy_list in
  let results := snd (check_multiple_proxies bw proxy_list username) in
  ((forall k, (k < n)%nat -> task_finish bw k < BATCH_TIMEOUT) ->
   results = inl (map (done_entry bw proxy_list username) (seq 0 n)))
  /\ ((exists k, (k < n)%nat /\ BATCH_TIMEOUT <= task_finish bw k) ->
      results = inl (map (timeout_entry proxy_list) (seq 0 n))).
Proof.
  intros Hinit Hn n results.
  assert (Hne : proxy_list <> []).
  { destruct proxy_list; [simpl in Hn; lia|discriminate]. }
  destruct (check_multiple_proxies_unfold bw proxy_list username Hinit Hne)
    as (_ & _ & Heq).
  cbv zeta in Heq. unfold results, n. rewrite Heq. clear Heq results n.
  cbn [snd].
  replace (Nat.min 10 (length proxy_list)) with (length proxy_list) by lia.
  rewrite single_start by lia.
  cbn [seq map run_batches Nat.mul].
  rewrite batch_slice. cbn [skipn]. rewrite !firstn_all.
  rewrite collect_batch_slice_all, timeout_batch_slice, tasks_from_length.
  rewrite !app_nil_r.
  set (done_at := fold_right Z.max 0 _).
  assert (Hdone : done_at < 0 + BATCH_TIMEOUT
                  <-> forall k, (k < length proxy_list)%nat ->
                                task_finish bw k < BATCH_TIMEOUT).
  { unfold done_at. rewrite fold_max_lt.
    rewrite <- (map_map t_idx (task_finish bw)), tasks_from_idx.
    rewrite Forall_map, Forall_forall. split.
    - intros [_ H] k Hk. apply H. apply in_seq. lia.
    - intros H. split; [reflexivity|].
      intros k Hk. apply in_seq in Hk. apply H. lia. }
  split.
  - intros Hall. apply Hdone in Hall. apply Z.ltb_lt in Hall.
    now rewrite Hall.
  - intros (k & Hk & Hlate).
    assert (Hlt : (done_at <? 0 + BATCH_TIMEOUT) = false).
    { apply Z.ltb_ge. destruct (Z.lt_ge_cases done_at (0 + BATCH_TIMEOUT))
        as [Hlt|Hge]; [|exact Hge].
      pose proof (proj1 Hdone Hlt k Hk). lia. }
    now rewrite Hlt.
Qed.

Lemma one_late_check_times_out_the_batch_witness :
  snd (check_multiple_proxies stuck_batch three_proxies None)
  = inl [Entry (Message "❌ Timeout checking proxy 1.2.3.4:8080");
         Entry (Message "❌ Timeout checking proxy 5.6.7.8:3128");
         Entry (Message "❌ Timeout checking proxy 9.10.11.12:80")].
Proof.
  assert (Hlen : (1 <= length three_proxies <= 10)%nat)
    by (unfold three_proxies; simpl; lia).
  destruct (one_late_check_times_out_the_batch stuck_batch three_proxies None
              eq_refl Hlen) as [_ Hlate].
  apply Hlate. exists 1%nat.
  split; [unfold three_proxies; simpl; lia|]. vm_compute. discriminate.
Defined.

(* ================================================================== *)
(** * The address rebuilt from a parsed endpoint *)
(* ================================================================== *)

Lemma decimal_value_acc (d : Decimal.uint) :
  forall p, decimal_value d (Zpos p) = Zpos (Pos.of_uint_acc d p).
Proof.
  induction d; intros p; cbn [decimal_value Pos.of_uint_acc]; try reflexivity;
    rewrite <- IHd; f_equal; lia.
Qed.

Lemma decimal_value_of_uint (d : Decimal.uint) :
  decimal_value d 0 = Z.of_N (Pos.of_uint d).
Proof.
  induction d; cbn [decimal_value Pos.of_uint]; try reflexivity;
    try exact IHd; apply (decimal_value_acc d).
Qed.

Lemma decimal_value_bounds (d : Decimal.uint) :
  forall acc, 0 <= acc ->
    acc * 10 ^ Z.of_nat (Decimal.nb_digits d) <= decimal_value d acc
    < (acc + 1) * 10 ^ Z.of_nat (Decimal.nb_digits d).
Proof.
  induction d; intros acc Hacc; cbn [decimal_value Decimal.nb_digits];
    try (cbn; lia);
    rewrite Nat2Z.inj_succ, Z.pow_succ_r by lia;
    match goal with
    | |- _ <= decimal_value _ ?a < _ =>
        specialize (IHd a ltac:(lia));
        pose proof (Z.pow_pos_nonneg 10 (Z.of_nat (Decimal.nb_digits d))
                      ltac:(lia) ltac:(lia))
    end; nia.
Qed.

Lemma scan_digits_decimal (d : Decimal.uint) :
  forall after_us acc k,
    d <> Decimal.Nil \/ after_us = false ->
    Py.scan_digits (NilEmpty.string_of_uint d) after_us acc k
    = Some (decimal_value d acc, (k + Decimal.nb_digits d)%nat).
Proof.
  induction d; intros after_us acc k H;
    cbn [NilEmpty.string_of_uint Py.scan_digits decimal_value
         Decimal.nb_digits];
    try (destruct H as [H| ->]; [congruence|now rewrite Nat.add_0_r]);
    change (Py.isdigit _) with true; cbn match;
    rewrite IHd by (now right);
    match goal with
    | |- context [Py.digit_value ?c] =>
        let v := eval vm_compute in (Py.digit_value c) in
        change (Py.digit_value c) with v
    end;
    now rewrite Nat.add_succ_r, ?Z.add_0_r.
Qed.

Lemma scan_digits_bounds (s : string) :
  forall after_us acc k v n,
    0 <= acc ->
    Py.scan_digits s after_us acc k = Some (v, n) ->
    (k <= n)%nat
    /\ acc * 10 ^ Z.of_nat (n - k) <= v < (acc + 1) * 10 ^ Z.of_nat (n - k).
Proof.
  induction s as [|c rest IH]; intros after_us acc k v n Hacc H;
    cbn [Py.scan_digits] in H.
  - destruct after_us; [discriminate|]. injection H as <- <-.
    rewrite Nat.sub_diag. cbn. lia.
  - destruct (Py.isdigit c) eqn:Hd.
    + assert (Hv : 0 <= Py.digit_value c <= 9).
      { unfold Py.isdigit in Hd. unfold Py.digit_value.
        apply andb_true_iff in Hd. destruct Hd as [H1 H2].
        apply Nat.leb_le in H1, H2. lia. }
      apply IH in H; [|lia]. destruct H as [Hk Hb]. split; [lia|].
      replace (n - k)%nat with (S (n - S k)) by lia.
      rewrite Nat2Z.inj_succ, Z.pow_succ_r by lia.
      pose proof (Z.pow_pos_nonneg 10 (Z.of_nat (n - S k))
                    ltac:(lia) ltac:(lia)).
      nia.
    + destruct (Ascii.eqb c "_"); [|discriminate].
      destruct after_us; [discriminate|].
      now apply IH in H.
Qed.

Lemma int_bounded (s : string) (v : Z) :
  Py.int s = Some v -> Z.abs v < 10 ^ Z.of_nat Py.int_max_str_digits.
Proof.
  unfold Py.int. intros H.
  set (body := Py.rstrip_c (Py.lstrip_c (Py.to_ascii_decimal s))) in *.
  destruct (match body with
            | String "+"%char rest => (1, rest)
            | String "-"%char rest => (-1, rest)
            | _ => (1, body)
            end) as [sign digits] eqn:Hsign.
  assert (Hs : sign = 1 \/ sign = -1).
  { destruct body as [|a t]; [injection Hsign as <- _; now left|].
    destruct (Ascii.eqb a "+") eqn:Hp.
    - apply Ascii.eqb_eq in Hp. subst a. injection Hsign as <- _. now left.
    - destruct (Ascii.eqb a "-") eqn:Hm.
      + apply Ascii.eqb_eq in Hm. subst a. injection Hsign as <- _. now right.
      + left.
        destruct a as [[] [] [] [] [] [] [] []]; try discriminate;
          now injection Hsign as <- _. }
  destruct (Py.scan_digits digits true 0 0) as [[w n]|] eqn:Hscan;
    [|discriminate].
  destruct (Py.int_max_str_digits <? n)%nat eqn:Hn; [discriminate|].
  injection H as <-. apply Nat.ltb_ge in Hn.
  apply scan_digits_bounds in Hscan; [|lia].
  destruct Hscan as [_ Hb]. rewrite Nat.sub_0_r in Hb.
  assert (10 ^ Z.of_nat n <= 10 ^ Z.of_nat Py.int_max_str_digits)
    by (apply Z.pow_le_mono_r; lia).
  destruct Hs as [-> | ->]; lia.
Qed.

Lemma to_ascii_decimal_uint (d : Decimal.uint) :
  Py.to_ascii_decimal (NilEmpty.string_of_uint d) = NilEmpty.string_of_uint d.
Proof.
  induction d; cbn [NilEmpty.string_of_uint Py.to_ascii_decimal];
    try reflexivity;
    match goal with
    | |- context [(N_of_ascii ?c <? 128)%N] =>
        change (N_of_ascii c <? 128)%N with true
    end; cbn match; now rewrite IHd.
Qed.

Lemma rstrip_uint (d : Decimal.uint) :
  Py.rstrip_c (NilEmpty.string_of_uint d) = NilEmpty.string_of_uint d.
Proof.
  induction d; cbn [NilEmpty.string_of_uint Py.rstrip_c]; try reflexivity;
    rewrite IHd; now destruct (NilEmpty.string_of_uint d).
Qed.

Lemma strip_uint (d : Decimal.uint) :
  Py.rstrip_c (Py.lstrip_c (Py.to_ascii_decimal (NilEmpty.string_of_uint d)))
  = NilEmpty.string_of_uint d.
Proof.
  rewrite to_ascii_decimal_uint.
  replace (Py.lstrip_c (NilEmpty.string_of_uint d))
    with (NilEmpty.string_of_uint d) by now destruct d.
  apply rstrip_uint.
Qed.

Lemma strip_negative (d : Decimal.uint) :
  Py.rstrip_c
    (Py.lstrip_c
       (Py.to_ascii_decimal (String "-" (NilEmpty.string_of_uint d))))
  = String "-" (NilEmpty.string_of_uint d).
Proof.
  cbn [Py.to_ascii_decimal].
  change (N_of_ascii "-" <? 128)%N with true. cbn match.
  rewrite to_ascii_decimal_uint.
  change (Py.lstrip_c (String "-" ?r)) with (String "-" r).
  cbn [Py.rstrip_c]. rewrite rstrip_uint.
  now destruct (NilEmpty.string_of_uint d).
Qed.

Lemma uint_has_no_colon (d : Decimal.uint) :
  Py.has_char ":" (NilEmpty.string_of_uint d) = false.
Proof. induction d; cbn [NilEmpty.string_of_uint Py.has_char]; auto. Qed.

Lemma str_of_int_has_no_colon (n : Z) :
  Py.has_char ":" (Py.str_of_int n) = false.
Proof.
  unfold Py.str_of_int.
  destruct n; cbn [Z.to_int NilEmpty.string_of_int Py.has_char];
    try apply uint_has_no_colon; reflexivity.
Qed.

Lemma to_uint_normal (p : positive) :
  Decimal.unorm (Pos.to_uint p) = Pos.to_uint p.
Proof.
  rewrite <- (DecimalPos.Unsigned.to_of (Pos.to_uint p)).
  now rewrite DecimalPos.Unsigned.of_to.
Qed.

Lemma normal_decimal_lower (d : Decimal.uint) :
  d <> Decimal.Nil -> d <> Decimal.zero -> Decimal.unorm d = d ->
  10 ^ (Z.of_nat (Decimal.nb_digits d) - 1) <= decimal_value d 0.
Proof.
  intros Hnil Hzero Hnorm.
  destruct d; try congruence.
  { exfalso. unfold Decimal.unorm in Hnorm.
    rewrite DecimalFacts.nzhead_D0 in Hnorm.
    destruct (Decimal.nzhead d) as [|u|u|u|u|u|u|u|u|u|u] eqn:Hh;
      try discriminate.
    - now symmetry in Hnorm.
    - now apply (DecimalFacts.nzhead_nonzero d u). }
  all: cbn [decimal_value Decimal.nb_digits];
    rewrite Nat2Z.inj_succ;
    replace (Z.succ (Z.of_nat (Decimal.nb_digits d)) - 1)
      with (Z.of_nat (Decimal.nb_digits d)) by lia;
    match goal with
    | |- _ <= decimal_value _ ?a =>
        pose proof (decimal_value_bounds d a ltac:(lia));
        pose proof (Z.pow_pos_nonneg 10 (Z.of_nat (Decimal.nb_digits d))
                      ltac:(lia) ltac:(lia))
    end; nia.
Qed.

Lemma to_uint_digits (p : positive) (m : nat) :
  Z.pos p < 10 ^ Z.of_nat m -> (Decimal.nb_digits (Pos.to_uint p) <= m)%nat.
Proof.
  intros Hp.
  pose proof (normal_decimal_lower (Pos.to_uint p)
                (DecimalPos.Unsigned.to_uint_nonnil p)
                (DecimalPos.Unsigned.to_uint_nonzero p)
                (to_uint_normal p)) as Hlow.
  rewrite decimal_value_of_uint, DecimalPos.Unsigned.of_to in Hlow.
  cbn [Z.of_N] in Hlow.
  destruct (Nat.le_gt_cases (Decimal.nb_digits (Pos.to_uint p)) m)
    as [Hle|Hgt]; [exact Hle|exfalso].
  assert (10 ^ Z.of_nat m
          <= 10 ^ (Z.of_nat (Decimal.nb_digits (Pos.to_uint p)) - 1))
    by (apply Z.pow_le_mono_r; lia).
  lia.
Qed.

Lemma int_of_uint (d : Decimal.uint) :
  d <> Decimal.Nil ->
  (Decimal.nb_digits d <= Py.int_max_str_digits)%nat ->
  Py.int (NilEmpty.string_of_uint d) = Some (decimal_value d 0)
  /\ Py.int (String "-" (NilEmpty.string_of_uint d))
     = Some (- decimal_value d 0).
Proof.
  intros Hnil Hlen. unfold Py.int.
  rewrite strip_uint, strip_negative.
  replace (match NilEmpty.string_of_uint d with
           | String "+"%char rest => (1, rest)
           | String "-"%char rest => (-1, rest)
           | _ => (1, NilEmpty.string_of_uint d)
           end) with (1, NilEmpty.string_of_uint d)
    by (destruct d; (reflexivity || congruence)).
  rewrite scan_digits_decimal by now left.
  apply Nat.ltb_ge in Hlen. cbn [Nat.add]. rewrite Hlen.
  split; f_equal; lia.
Qed.

Lemma int_str_of_int (n : Z) :
  Z.abs n < 10 ^ Z.of_nat Py.int_max_str_digits ->
  Py.int (Py.str_of_int n) = Some n.
Proof.
  intros Hn. unfold Py.str_of_int.
  destruct n as [|p|p]; cbn [Z.to_int NilEmpty.string_of_int].
  - reflexivity.
  - destruct (int_of_uint (Pos.to_uint p)
                (DecimalPos.Unsigned.to_uint_nonnil p)
                (to_uint_digits p _ Hn)) as [-> _].
    now rewrite decimal_value_of_uint, DecimalPos.Unsigned.of_to.
  - destruct (int_of_uint (Pos.to_uint p)
                (DecimalPos.Unsigned.to_uint_nonnil p)
                (to_uint_digits p _ Hn)) as [_ ->].
    now rewrite decimal_value_of_uint, DecimalPos.Unsigned.of_to.
Qed.

Lemma parse_two_fields (host : string) (port : Z) :
  Py.has_char ":" host = false ->
  Z.abs port < 10 ^ Z.of_nat Py.int_max_str_digits ->
  _parse_proxy_string (host ++ ":" ++ Py.str_of_int port)
  = inl (host, port, None).
Proof.
  intros Hhost Hport. unfold _parse_proxy_string.
  change (":" ++ Py.str_of_int port) with (String ":" (Py.str_of_int port)).
  rewrite split_at_sep by exact Hhost.
  rewrite split_free by apply str_of_int_has_no_colon.
  now rewrite int_str_of_int.
Qed.

Lemma parsed_host_port (proxy_str host : string) (port : Z)
  (auth : option BasicAuth) :
  _parse_proxy_string proxy_str = inl (host, port, auth) ->
  Py.has_char ":" host = false
  /\ exists port_str, Py.int port_str = Some port.
Proof.
  unfold _parse_proxy_string. intros H.
  pose proof (split_fields_free ":" proxy_str) as Hfree.
  destruct (Py.split ":" proxy_str) as [|h [|ps [|u [|pw [|x rest]]]]];
    try discriminate.
  - destruct (Py.int ps) as [v|] eqn:Hint; [|discriminate].
    injection H as <- <- _. inversion Hfree; subst. split; [assumption|].
    now exists ps.
  - destruct (Py.int ps) as [v|] eqn:Hint; [|discriminate].
    injection H as <- <- _. inversion Hfree; subst. split; [assumption|].
    now exists ps.
Qed.

(** X18.  The address probed by the fallback is canonical.  From
    an accepted endpoint [check_proxy] rebuilds the address as
    [f"{host}:{port}"]; whatever blanks, sign, leading zeros, underscores
    or credentials the input carried, that address is again accepted by
    the parser, as a two-field endpoint with the same host and the same
    port. *)
Theorem probed_endpoint_is_canonical (proxy_str host : string) (port : Z)
  (auth : option BasicAuth) :
  _parse_proxy_string proxy_str = inl (host, port, auth) ->
  _parse_proxy_string (host ++ ":" ++ Py.str_of_int port)
  = inl (host, port, None).
Proof.
  intros H. destruct (parsed_host_port _ _ _ _ H) as (Hhost & ps & Hint).
  apply parse_two_fields; [exact Hhost|exact (int_bounded _ _ Hint)].
Qed.

Lemma probed_endpoint_is_canonical_witness :
  _parse_proxy_string "10.0.0.1: +00_80 :user:secret"
  = inl ("10.0.0.1", 80, Some {| login := "user"; password := "secret" |})
  /\ _parse_proxy_string "10.0.0.1:80" = inl ("10.0.0.1", 80, None).
Proof.
  split; [reflexivity|].
  exact (probed_endpoint_is_canonical "10.0.0.1: +00_80 :user:secret"
           "10.0.0.1" 80 _ eq_refl).
Defined.

(* ================================================================== *)
(** * The handlers of [main.py] *)
(* ================================================================== *)

Lemma has_char_app (c : ascii) (a b : string) :
  Py.has_char c (a ++ b) = Py.has_char c a || Py.has_char c b.
Proof.
  induction a as [|x a IH]; [reflexivity|].
  cbn [append Py.has_char]. now rewrite IH, orb_assoc.
Qed.

Lemma no_blank_no_line_feed (s : string) :
  no_blank s = true -> Py.has_char Main.LF s = false.
Proof.
  induction s as [|c s IH]; [reflexivity|].
  cbn [no_blank Py.has_char]. intros H. apply andb_true_iff in H.
  destruct H as [Hc Hs]. rewrite (IH Hs), orb_false_r.
  destruct (Ascii.eqb c Main.LF) eqn:E; [|reflexivity].
  apply Ascii.eqb_eq in E. subst c. discriminate Hc.
Qed.

Lemma word_no_blank (s : string) : is_word s = true -> no_blank s = true.
Proof. destruct s; [discriminate|trivial]. Qed.

Lemma join_no_line_feed (args : list string) :
  Forall (fun a => is_word a = true) args ->
  Py.has_char Main.LF (Py.join " " args) = false.
Proof.
  induction 1 as [|a args Ha Hargs IH]; [reflexivity|].
  cbn [Py.join]. destruct args as [|b args].
  - now apply no_blank_no_line_feed, word_no_blank.
  - rewrite !has_char_app, IH.
    rewrite (no_blank_no_line_feed a (word_no_blank a Ha)). reflexivity.
Qed.

Lemma rstrip_no_blank (s : string) : no_blank s = true -> Py.rstrip s = s.
Proof.
  induction s as [|c s IH]; [reflexivity|].
  cbn [no_blank Py.rstrip]. intros H. apply andb_true_iff in H.
  destruct H as [Hc Hs]. rewrite (IH Hs).
  destruct s; [|reflexivity].
  now destruct (Py.isspace c).
Qed.

Lemma rstrip_app_keeps (a b : string) :
  b <> EmptyString -> Py.rstrip b = b -> Py.rstrip (a ++ b) = a ++ b.
Proof.
  intros Hb Hr. induction a as [|c a IH]; [exact Hr|].
  cbn [append Py.rstrip]. rewrite IH.
  destruct (a ++ b) eqn:E; [|reflexivity].
  destruct a; [now cbn in E|discriminate E].
Qed.

Lemma join_words (args : list string) :
  args <> [] ->
  Forall (fun a => is_word a = true) args ->
  Py.strip (Py.join " " args) = Py.join " " args
  /\ Py.join " " args <> EmptyString.
Proof.
  intros Hne Hall.
  assert (Hr : Py.rstrip (Py.join " " args) = Py.join " " args
               /\ Py.join " " args <> EmptyString).
  { induction Hall as [|a args Ha Hargs IH]; [congruence|].
    cbn [Py.join]. destruct args as [|b args].
    - split; [now apply rstrip_no_blank, word_no_blank|].
      now destruct a.
    - destruct (IH ltac:(discriminate)) as [IHr IHn]. split.
      + apply rstrip_app_keeps; [discriminate|].
        change (" " ++ ?x) with (String " " x).
        cbn [Py.rstrip]. rewrite IHr.
        destruct (Py.join " " (b :: args)); [congruence|reflexivity].
      + destruct a; discriminate. }
  split; [|apply Hr].
  unfold Py.strip.
  replace (Py.lstrip (Py.join " " args)) with (Py.join " " args);
    [apply Hr|].
  destruct Hall as [|a args Ha Hargs]; [congruence|].
  destruct a as [|c a]; [discriminate|].
  cbn [is_word no_blank] in Ha. apply andb_true_iff in Ha.
  destruct Ha as [Hc _]. apply negb_true_iff in Hc.
  cbn [Py.join]. destruct args; cbn [append Py.lstrip]; now rewrite Hc.
Qed.

(** X19.  [/pchk] always checks one endpoint.  When the
    arguments of the command are words (not empty, no blank character, as a
    split on blanks yields them), [pchk_command] awaits
    [process_single_proxy] on the arguments joined by single spaces: it
    never takes the branch for several endpoints, and never shows the
    usage text. *)
Theorem pchk_arguments_are_one_endpoint (args : list string) :
  args <> [] ->
  Forall (fun a => is_word a = true) args ->
  Main.pchk_command args = Main.Single (Py.join " " args).
Proof.
  intros Hne Hall.
  destruct (join_words args Hne Hall) as [Hstrip Hnonempty].
  unfold Main.pchk_command, Main.stripped_lines.
  destruct args as [|a args]; [congruence|].
  rewrite (split_free Main.LF _ (join_no_line_feed _ Hall)).
  remember (Py.join " " (a :: args)) as proxy eqn:Hproxy.
  cbn [filter]. rewrite Hstrip.
  destruct proxy as [|c proxy]; [congruence|].
  cbn [map length]. now rewrite Hstrip.
Qed.

Lemma pchk_arguments_are_one_endpoint_witness :
  Main.pchk_command ["1.2.3.4:8080"; "5.6.7.8:3128"]
  = Main.Single "1.2.3.4:8080 5.6.7.8:3128".
Proof.
  exact (pchk_arguments_are_one_endpoint ["1.2.3.4:8080"; "5.6.7.8:3128"]
           ltac:(discriminate)
           ltac:(repeat constructor)).
Defined.

Lemma count_char_has_char (c : ascii) (s : string) :
  Py.has_char c s = negb (count_char c s =? 0)%nat.
Proof.
  induction s as [|x s IH]; [reflexivity|].
  cbn [Py.has_char count_char]. destruct (Ascii.eqb x c); [reflexivity|].
  exact IH.
Qed.

Lemma looks_like_proxy_iff (line : string) :
  Main.looks_like_proxy line = true
  <-> _parse_proxy_string line <> inr MSG_INVALID_FORMAT.
Proof.
  unfold Main.looks_like_proxy.
  rewrite parse_format_error_iff, count_char_has_char, split_length.
  destruct (count_char ":" line) as [|[|[|[|n]]]]; cbn; split;
    try discriminate; try reflexivity; intros H; try lia;
    exfalso; apply H; split; discriminate.
Qed.

Lemma proxy_message_forwards (text : string) :
  Main.forwarded (Main.proxy_message text)
  = filter Main.looks_like_proxy (Main.stripped_lines text).
Proof.
  unfold Main.proxy_message.
  destruct (filter Main.looks_like_proxy (Main.stripped_lines text))
    as [|p [|q rest]]; reflexivity.
Qed.

(** X20.  The line filter of [proxy_message] agrees with the
    parser.  The endpoints the handler passes on are exactly the stripped,
    non-empty lines of the message that [_parse_proxy_string] does not
    reject with the format error. *)
Theorem forwarded_lines_pass_the_format_test (text line : string) :
  In line (Main.forwarded (Main.proxy_message text))
  <-> In line (Main.stripped_lines text)
      /\ _parse_proxy_string line <> inr MSG_INVALID_FORMAT.
Proof.
  rewrite proxy_message_forwards, filter_In.
  now rewrite looks_like_proxy_iff.
Qed.

Lemma clipped_batch (proxies : list string) :
  proxies <> [] ->
  let kept :=
    if (Main.MAX_PROXIES_PER_BATCH <? length proxies)%nat
    then firstn Main.MAX_PROXIES_PER_BATCH proxies
    else proxies in
  kept = firstn Main.MAX_PROXIES_PER_BATCH proxies
  /\ kept <> []
  /\ (length kept <= Main.MAX_PROXIES_PER_BATCH)%nat.
Proof.
  intros Hne. cbv zeta.
  destruct (Main.MAX_PROXIES_PER_BATCH <? length proxies)%nat eqn:Hlen.
  - apply Nat.ltb_lt in Hlen. split; [reflexivity|]. split.
    + destruct proxies; [congruence|discriminate].
    + rewrite length_firstn. lia.
  - apply Nat.ltb_ge in Hlen. split; [now rewrite firstn_all2|].
    split; [exact Hne|exact Hlen].
Qed.

Lemma short_list_single_wait (bw : batch_world) (proxy_list : list string)
  (username : option string) :
  initialize_raises bw = None ->
  proxy_list <> [] ->
  (length proxy_list <= 10)%nat ->
  waits (fst (check_multiple_proxies bw proxy_list username))
  = [seq 0 (length proxy_list)].
Proof.
  intros Hinit Hne Hlen.
  destruct (check_multiple_proxies_unfold bw proxy_list username Hinit Hne)
    as (Hbs & _ & ->).
  cbn [fst]. rewrite waits_spawns.
  rewrite Nat.min_r in * by exact Hlen.
  rewrite single_start by exact Hbs. cbn [seq map Nat.mul].
  destruct (run_batches_shape bw proxy_list username (length proxy_list)
              [0%nat] 0) as (_ & -> & _).
  cbn [map skipn]. now rewrite firstn_all.
Qed.

(** X21.  A batch sent by the bot is checked in one wait.
    [process_multiple_proxies] keeps the first ten endpoints.  When
    [initialize] raises, the orchestrator starts no check and returns its
    single error entry (the exception itself escapes when it is not an
    [Exception]).  Otherwise it waits once, on all the tasks together, and
    returns one entry per endpoint kept. *)
Theorem bot_batches_take_one_wait (bw : batch_world) (proxies : list string)
  (username : string) :
  proxies <> [] ->
  let '(kept, (events, out)) :=
    Main.process_multiple_proxies bw proxies username in
  kept = firstn Main.MAX_PROXIES_PER_BATCH proxies
  /\ (forall e,
        initialize_raises bw = Some e ->
        events = []
        /\ out = if isinstance e Exception then inl (batch_error e)
                 else inr e)
  /\ (initialize_raises bw = None ->
      waits events = [seq 0 (length kept)]
      /\ exists results, out = inl results /\ length results = length kept).
Proof.
  intros Hne. pose proof (clipped_batch proxies Hne) as H.
  cbv zeta in H. unfold Main.process_multiple_proxies.
  set (kept := if (Main.MAX_PROXIES_PER_BATCH <? length proxies)%nat
               then firstn Main.MAX_PROXIES_PER_BATCH proxies
               else proxies) in *.
  destruct H as (Hkept & Hne' & Hlen).
  pose proof (short_list_single_wait bw kept (Some username)) as Hwaits.
  pose proof (results_follow_input bw kept (Some username)) as Hres.
  pose proof (check_multiple_proxies_failed bw kept (Some username)) as Hfail.
  destruct (check_multiple_proxies bw kept (Some username))
    as [events out].
  cbn [fst snd] in *.
  split; [exact Hkept|]. split.
  - intros e He. specialize (Hfail e He). inversion Hfail; subst. now split.
  - intros Hinit. split; [exact (Hwaits Hinit Hne' Hlen)|].
    destruct (Hres Hinit Hne') as (results & Hout & _ & Hl).
    now exists results.
Qed.

Lemma bot_batches_take_one_wait_witness :
  let '(kept, (events, out)) :=
    Main.process_multiple_proxies steady_batch eleven_proxies "alice" in
  kept = firstn Main.MAX_PROXIES_PER_BATCH eleven_proxies
  /\ (forall e,
        initialize_raises steady_batch = Some e ->
        events = []
        /\ out = if isinstance e Exception then inl (batch_error e)
                 else inr e)
  /\ (initialize_raises steady_batch = None ->
      waits events = [seq 0 (length kept)]
      /\ exists results, out = inl results /\ length results = length kept).
Proof.
  exact (bot_batches_take_one_wait steady_batch eleven_proxies "alice"
           ltac:(discriminate)).
Defined.
